(** * Reward points calculator: a shallow embedding of [src/rewardCalculator.js]

    The JavaScript module exports the class [RewardCalculator], whose static
    methods compute loyalty points from transaction records.  This file
    embeds those methods as Rocq functions over a model of the JavaScript
    values they receive, and proves properties of them.

    Layout: the model of numbers (IEEE 754 binary64, through the
    specification of the Standard Library), of values and of exceptions
    comes first, then the methods of the class in the order of the source,
    then the theorems. *)

From Stdlib Require Import ZArith List String Ascii Bool Lia DecimalString.
From Stdlib Require Import Floats.SpecFloat.
Import ListNotations.

Set Warnings "-register-all".

Local Open Scope Z_scope.

(** ** Numbers

    A JavaScript number is an IEEE 754 binary64 value.  [spec_float] with
    precision 53 and maximal exponent 1024 is that format: signed zeros,
    signed infinities, one NaN, and finite values [(-1)^s * m * 2^e].  The
    arithmetic is the round-to-nearest-even arithmetic of [SpecFloat]. *)

Module Num.

Definition prec : Z := 53.
Definition emax : Z := 1024.

Definition number : Type := spec_float.

Definition NaN : number := S754_nan.
Definition Infinity : number := S754_infinity false.

(** A well-formed binary64 datum: the mantissa of a finite value is
    normalised (53 bits, or fewer at the least exponent). *)
Definition wf (x : number) : bool := valid_binary prec emax x.

(** An integer literal. *)
Definition of_Z (z : Z) : number := binary_normalize prec emax z 0 false.

Definition add : number -> number -> number := SFadd prec emax.
Definition sub : number -> number -> number := SFsub prec emax.
Definition mul : number -> number -> number := SFmul prec emax.
Definition div : number -> number -> number := SFdiv prec emax.

(** [x < y], [x <= y] and [x === y] on numbers; all three are false when an
    operand is NaN. *)
Definition ltb : number -> number -> bool := SFltb.
Definition leb : number -> number -> bool := SFleb.
Definition eqb : number -> number -> bool := SFeqb.

(** The global [isNaN] on a number and [Number.isFinite]. *)
Definition isNaN (x : number) : bool :=
  match x with S754_nan => true | _ => false end.

Definition isFinite (x : number) : bool :=
  match x with S754_zero _ | S754_finite _ _ _ => true | _ => false end.

(** A decimal literal [n / 10^k], as the lexer reads it: the binary64
    value nearest to the rational.  Both [n] and [10^k] are exactly
    representable for the literals used here, and division is correctly
    rounded. *)
Definition decimal (n : Z) (k : Z) : number := div (of_Z n) (of_Z (10 ^ k)).

(** [Math.floor]: NaN, the infinities and the zeros are returned as they
    are; a finite value with a non-negative exponent is already an
    integer; otherwise the signed mantissa is divided by [2^(-e)],
    rounding towards minus infinity, and the quotient, which has fewer
    than 53 bits, is converted back without rounding. *)
Definition Math_floor (x : number) : number :=
  match x with
  | S754_finite s m e =>
      if 0 <=? e then x
      else of_Z (cond_Zopp s (Zpos m) / 2 ^ (- e))
  | _ => x
  end.

(** [Math.min] of two numbers: NaN if either is; [-0] is below [+0]. *)
Definition Math_min (x y : number) : number :=
  if isNaN x || isNaN y then NaN
  else match x, y with
       | S754_zero false, S754_zero true => y
       | _, _ => if ltb y x then y else x
       end.

(** The mathematical integer a number denotes, when it denotes one. *)
Definition to_Z (x : number) : option Z :=
  match x with
  | S754_zero _ => Some 0
  | S754_finite s m e =>
      if 0 <=? e then Some (cond_Zopp s (Zpos m * 2 ^ e))
      else if Zpos m mod 2 ^ (- e) =? 0
           then Some (cond_Zopp s (Zpos m / 2 ^ (- e)))
           else None
  | _ => None
  end.


End Num.

Definition number : Type := Num.number.

(** ** Values, property access and exceptions

    The values the calculator handles are plain data: primitives, arrays
    and ordinary objects with own data properties (no accessors, no
    proxies, no functions).  An object is the list of its properties in
    property order; it inherits from [Object.prototype], an array from
    [Array.prototype]. *)

Inductive value : Type :=
| VUndefined
| VNull
| VBool (b : bool)
| VNum (x : number)
| VStr (s : string)
| VArr (items : list value)
| VObj (props : list (string * value)).

(** What the code throws.  The source throws plain [Error] objects and tells
    them apart by message only:
    - [InvalidAmount v] is [Error(`Invalid transaction amount: ${v}`)];
    - [InvalidInput] is [Error('Transactions must be an array')];
    - [InvalidDate] is [Error('Invalid date provided')];
    - [TypeError] is what reading a property of [null] or [undefined]
      raises, and what converting an object to a string raises when no
      method of the object gives a primitive. *)
Inductive error : Type :=
| InvalidAmount (v : value)
| InvalidInput
| InvalidDate
| TypeError.

Inductive result (A : Type) : Type :=
| Return (a : A)
| Throw (err : error).

Arguments Return {A} a.
Arguments Throw {A} err.

Definition bind {A B : Type} (r : result A) (k : A -> result B) : result B :=
  match r with
  | Return a => k a
  | Throw err => Throw err
  end.

Notation "'let*' x ':=' r 'in' k" := (bind r (fun x => k))
  (at level 10, x name, r at level 100, k at level 200).

(** [try { body } catch (error) { handler }] *)
Definition try_catch {A : Type} (body : result A) (handler : error -> A) : A :=
  match body with
  | Return a => a
  | Throw err => handler err
  end.

Definition raises {A : Type} (r : result A) : bool :=
  match r with Return _ => false | Throw _ => true end.

(** ToBoolean: the falsy values are [undefined], [null], [false], the zeros,
    NaN and the empty string. *)
Definition truthy (v : value) : bool :=
  match v with
  | VUndefined | VNull => false
  | VBool b => b
  | VNum (S754_zero _) | VNum S754_nan => false
  | VNum _ => true
  | VStr EmptyString => false
  | VStr _ => true
  | VArr _ | VObj _ => true
  end.

(** [typeof v === 'number'] *)
Definition typeof_number (v : value) : bool :=
  match v with VNum _ => true | _ => false end.

(** [typeof v === 'string'] *)
Definition typeof_string (v : value) : bool :=
  match v with VStr _ => true | _ => false end.

(** [Array.isArray(v)] *)
Definition Array_isArray (v : value) : bool :=
  match v with VArr _ => true | _ => false end.

Fixpoint lookup {A : Type} (k : string) (l : list (string * A)) : option A :=
  match l with
  | [] => None
  | (k', a) :: l' => if String.eqb k k' then Some a else lookup k l'
  end.

(** Assignment to a property: an existing property keeps its place, a new
    one goes last. *)
Fixpoint assign {A : Type} (k : string) (a : A) (l : list (string * A))
  : list (string * A) :=
  match l with
  | [] => [(k, a)]
  | (k', a') :: l' =>
      if String.eqb k k' then (k, a) :: l' else (k', a') :: assign k a l'
  end.

(** [v.name] for the property names the code reads ([amount], [date]).
    Primitives and arrays have no such property, neither of their own nor
    inherited; [null] and [undefined] have no properties at all. *)
Definition get (v : value) (name : string) : result value :=
  match v with
  | VUndefined | VNull => Throw TypeError
  | VObj props =>
      match lookup name props with
      | Some w => Return w
      | None => Return VUndefined
      end
  | _ => Return VUndefined
  end.

(** ToString, as far as it can fail; a template literal applies it to the
    value of each substitution.  A primitive always converts.  An object
    is asked for its [toString] and, if that is not callable, for its
    [valueOf]: an own property is plain data here, never a function, so an
    own [toString] hides the inherited method, and [valueOf], own or
    inherited, gives no primitive: the conversion throws.  Without an own
    [toString] the inherited method answers.  An array joins the strings
    of its elements, with [null] and [undefined] as the empty string, so
    it converts exactly when its other elements do. *)
Fixpoint ToString_throws (v : value) : bool :=
  match v with
  | VObj props =>
      match lookup "toString" props with Some _ => true | None => false end
  | VArr items => existsb ToString_throws items
  | _ => false
  end.

(** The string itself is not needed: the messages it goes into are told
    apart by the value (see [error]). *)
Definition ToString (v : value) : result unit :=
  if ToString_throws v then Throw TypeError else Return tt.

(** ** Constants ([CONSTANTS.REWARDS] of the constants module) *)

Module CONSTANTS.
Module REWARDS.
Definition HIGH_THRESHOLD : number := Num.of_Z 100.
Definition LOW_THRESHOLD : number := Num.of_Z 50.
Definition HIGH_MULTIPLIER : number := Num.of_Z 2.
Definition LOW_MULTIPLIER : number := Num.of_Z 1.
End REWARDS.
End CONSTANTS.

Import CONSTANTS.REWARDS.

Definition zero : number := Num.of_Z 0.

(** ** [RewardCalculator]

    Calls to the logger are left out: they print, and the strings built
    for them are made of numbers and strings, which always convert.  The
    one exception is the message of an invalid amount, built from the
    amount itself: its conversion is kept. *)

(** The guard both [calculatePointsForTransaction] and [getPointsBreakdown]
    open with: [typeof amount !== 'number' || isNaN(amount) || amount < 0]. *)
Definition invalid_amount (amount : value) : bool :=
  match amount with
  | VNum a => Num.isNaN a || Num.ltb a zero
  | _ => true
  end.

(** The number behind a value that passed the guard. *)
Definition num_of (amount : value) : number :=
  match amount with VNum a => a | _ => Num.NaN end.

Definition calculatePointsForTransaction (amount : value) : result number :=
  if invalid_amount amount then
    let* _ := ToString amount in
    Throw (InvalidAmount amount)
  else
    let amount := num_of amount in
    let points := zero in
    let points :=
      if Num.ltb HIGH_THRESHOLD amount then
        let amountOverHundred := Num.sub amount HIGH_THRESHOLD in
        Num.add points (Num.Math_floor (Num.mul amountOverHundred HIGH_MULTIPLIER))
      else points in
    let amountForLowTier :=
      Num.sub (Num.Math_min amount HIGH_THRESHOLD) LOW_THRESHOLD in
    let points :=
      if Num.ltb zero amountForLowTier then
        Num.add points (Num.Math_floor (Num.mul amountForLowTier LOW_MULTIPLIER))
      else points in
    Return points.

Record PointsBreakdown : Type := {
  highTier : number;
  lowTier : number
}.

Definition getPointsBreakdown (amount : value) : PointsBreakdown :=
  if invalid_amount amount then {| highTier := zero; lowTier := zero |}
  else
    let amount := num_of amount in
    let highTierPoints :=
      if Num.ltb HIGH_THRESHOLD amount then
        let amountOverHundred := Num.sub amount HIGH_THRESHOLD in
        Num.Math_floor (Num.mul amountOverHundred HIGH_MULTIPLIER)
      else zero in
    let amountForLowTier :=
      Num.sub (Num.Math_min amount HIGH_THRESHOLD) LOW_THRESHOLD in
    let lowTierPoints :=
      if Num.ltb zero amountForLowTier then
        Num.Math_floor (Num.mul amountForLowTier LOW_MULTIPLIER)
      else zero in
    {| highTier := highTierPoints; lowTier := lowTierPoints |}.

(** [typeof amount === 'number' && !isNaN(amount) && amount >= 0] *)
Definition isValidAmount (amount : value) : bool :=
  match amount with
  | VNum a => negb (Num.isNaN a) && Num.leb zero a
  | _ => false
  end.

(** *** [calculateTotalPoints] *)

(** One turn of the [for ... of] loop, with its [try]/[catch]: the running
    total after [transaction]. *)
Definition total_body (totalPoints : number) (transaction : value)
  : result number :=
  if negb (truthy transaction) then Return totalPoints
  else
    let* amount := get transaction "amount" in
    if negb (typeof_number amount) then Return totalPoints
    else
      let* points := calculatePointsForTransaction amount in
      Return (Num.add totalPoints points).

Definition total_step (totalPoints : number) (transaction : value) : number :=
  try_catch (total_body totalPoints transaction) (fun _ => totalPoints).

Definition calculateTotalPoints (transactions : value) : result number :=
  match transactions with
  | VArr items =>
      match items with
      | [] => Return zero
      | _ => Return (fold_left total_step items zero)
      end
  | _ => Throw InvalidInput
  end.

(** ** Strings

    A string is a sequence of code units; the model has the code units
    0..255. *)

Definition code (c : ascii) : Z := Z.of_N (N_of_ascii c).

Definition hyphen : ascii := "-"%char.

(** [s.includes('-')] *)
Fixpoint includes (c : ascii) (s : string) : bool :=
  match s with
  | EmptyString => false
  | String c' s' => Ascii.eqb c' c || includes c s'
  end.

(** [s.split('-')]: the pieces between the separators, at least one. *)
Fixpoint split (c : ascii) (s : string) : list string :=
  match s with
  | EmptyString => [EmptyString]
  | String c' s' =>
      if Ascii.eqb c' c then EmptyString :: split c s'
      else match split c s' with
           | piece :: pieces => String c' piece :: pieces
           | [] => [String c' EmptyString]
           end
  end.

(** [String(n)] for an integer [n]. *)
Definition string_of_Z (n : Z) : string :=
  DecimalString.NilEmpty.string_of_int (Z.to_int n).

(** [s.padStart(2, '0')] *)
Definition padStart2 (s : string) : string :=
  match String.length s with
  | O => "00"
  | S O => String "0"%char s
  | _ => s
  end.

Definition digit_value (c : ascii) : option Z :=
  let n := code c in
  if (48 <=? n) && (n <=? 57) then Some (n - 48) else None.

(** The white space and line terminators [parseInt] skips, among the code
    units of the model: TAB, LF, VT, FF, CR, SP and NBSP. *)
Definition is_white_space (c : ascii) : bool :=
  let n := code c in
  ((9 <=? n) && (n <=? 13)) || (n =? 32) || (n =? 160).

Fixpoint skip_white_space (s : string) : string :=
  match s with
  | String c s' => if is_white_space c then skip_white_space s' else s
  | EmptyString => s
  end.

(** The value of the longest prefix of decimal digits, [None] when the
    prefix is empty. *)
Fixpoint leading_digits (acc : option Z) (s : string) : option Z :=
  match s with
  | String c s' =>
      match digit_value c with
      | Some d =>
          leading_digits
            (Some (10 * match acc with Some n => n | None => 0 end + d)) s'
      | None => acc
      end
  | EmptyString => acc
  end.

(** [parseInt(s, 10)]: leading white space is skipped, a sign is read, then
    the digits up to the first character that is not one; [None] is NaN.
    The result is kept as the integer the digits denote.  Its only use is
    as an index into a 12-element array after subtracting one, and the
    binary64 result is one of 1..12 exactly when the integer is. *)
Definition parseInt (s : string) : option Z :=
  match skip_white_space s with
  | String "-"%char s' => option_map Z.opp (leading_digits None s')
  | String "+"%char s' => leading_digits None s'
  | s' => leading_digits None s'
  end.

(** ** Dates

    A [Date] object is its time value: milliseconds since the epoch in UTC,
    or [None] for an invalid date (time value NaN).  The day and year
    arithmetic is that of the language specification. *)

Module Date.

Definition msPerDay : Z := 86400000.

Definition Day (t : Z) : Z := t / msPerDay.

Definition isLeap (y : Z) : bool :=
  ((y mod 4 =? 0) && negb (y mod 100 =? 0)) || (y mod 400 =? 0).

Definition DaysInYear (y : Z) : Z := if isLeap y then 366 else 365.

Definition DayFromYear (y : Z) : Z :=
  365 * (y - 1970) + (y - 1969) / 4 - (y - 1901) / 100 + (y - 1601) / 400.

(** The largest [y] with [DayFromYear y <= d]: the estimate from the
    mean length of a year is off by at most one. *)
Definition YearFromDay (d : Z) : Z :=
  let y := 1970 + (400 * d) / 146097 in
  if DayFromYear (y + 1) <=? d then y + 1
  else if DayFromYear y <=? d then y
  else y - 1.

Definition YearFromTime (t : Z) : Z := YearFromDay (Day t).

Definition DayWithinYear (t : Z) : Z :=
  Day t - DayFromYear (YearFromTime t).

(** The day of the year on which each month starts. *)
Definition month_start (leap : Z) (m : Z) : Z :=
  match m with
  | 0 => 0
  | 1 => 31
  | 2 => 59 + leap
  | 3 => 90 + leap
  | 4 => 120 + leap
  | 5 => 151 + leap
  | 6 => 181 + leap
  | 7 => 212 + leap
  | 8 => 243 + leap
  | 9 => 273 + leap
  | 10 => 304 + leap
  | 11 => 334 + leap
  | _ => 365 + leap
  end.

Definition leap_days (y : Z) : Z := if isLeap y then 1 else 0.

(** Months are numbered from 0. *)
Definition MonthFromTime (t : Z) : Z :=
  let d := DayWithinYear t in
  let leap := leap_days (YearFromTime t) in
  let fix search (fuel : nat) (m : Z) : Z :=
    match fuel with
    | O => m
    | S fuel' => if d <? month_start leap (m + 1) then m else search fuel' (m + 1)
    end in
  search 11%nat 0.

Definition DaysInMonth (y m : Z) : Z :=
  month_start (leap_days y) (m + 1) - month_start (leap_days y) m.

(** The time value of midnight UTC on a calendar day; [month] from 0,
    [date] from 1. *)
Definition MakeDate (year month date : Z) : Z :=
  (DayFromYear year + month_start (leap_days year) month + (date - 1)) * msPerDay.

Fixpoint all_digits (acc : Z) (s : string) : option Z :=
  match s with
  | EmptyString => Some acc
  | String c s' =>
      match digit_value c with
      | Some d => all_digits (10 * acc + d) s'
      | None => None
      end
  end.

(** The date-only form [YYYY-MM-DD] of the date-time string format, with
    every element in range: midnight UTC of that day. *)
Definition parse_date_only (s : string) : option Z :=
  if (String.length s =? 10)%nat
     && String.eqb (substring 4 1 s) "-"
     && String.eqb (substring 7 1 s) "-"
  then
    match all_digits 0 (substring 0 4 s),
          all_digits 0 (substring 5 2 s),
          all_digits 0 (substring 8 2 s) with
    | Some y, Some m, Some d =>
        if (1 <=? m) && (m <=? 12) && (1 <=? d) && (d <=? DaysInMonth y (m - 1))
        then Some (MakeDate y (m - 1) d)
        else None
    | _, _, _ => None
    end
  else None.

End Date.

(** ** The methods that depend on the host

    Two things are the host's and not the program's: what [new Date(v)]
    makes of an argument that is not a date-only string (other formats are
    parsed by implementation-defined rules), and the offset of local time
    from UTC.  Both are variables of the section. *)

Section Host.

(** The time value of [new Date(v)] when [v] is not a well-formed
    [YYYY-MM-DD] string; [None] is an invalid date. *)
Variable hostDate : value -> option Z.

(** The offset of local time, in milliseconds, at the UTC time [t]. *)
Variable LocalTZA : Z -> Z.

(** [new Date(v)], as a time value. *)
Definition newDate (v : value) : option Z :=
  match v with
  | VStr s =>
      match Date.parse_date_only s with
      | Some t => Some t
      | None => hostDate v
      end
  | _ => hostDate v
  end.

Definition LocalTime (t : Z) : Z := t + LocalTZA t.

Definition getFullYear (t : Z) : Z := Date.YearFromTime (LocalTime t).
Definition getMonth (t : Z) : Z := Date.MonthFromTime (LocalTime t).

(** *** [getMonthYearKey]

    The argument is a [Date]; the [instanceof] test of the source holds by
    typing, the validity test remains. *)
Definition getMonthYearKey (date : option Z) : result string :=
  match date with
  | None => Throw InvalidDate
  | Some t =>
      let year := getFullYear t in
      let month := padStart2 (string_of_Z (getMonth t + 1)) in
      Return (string_of_Z year ++ "-" ++ month)%string
  end.

(** *** [calculateMonthlyBreakdown] *)

Record MonthlyBucket : Type := {
  points : number;
  transactionCount : number;
  totalAmount : number
}.

(** The result object: month keys in the order of their first occurrence.
    A month key contains a hyphen, so it is never the name of a property
    an empty object inherits, and [monthlyBreakdown[monthYear]] is a
    lookup among the keys added so far. *)
Definition MonthlyBreakdown : Type := list (string * MonthlyBucket).

Definition empty_bucket : MonthlyBucket :=
  {| points := zero; transactionCount := zero; totalAmount := zero |}.

(** The three updates of a bucket for one transaction. *)
Definition accumulate (b : MonthlyBucket) (pts amount : number) : MonthlyBucket :=
  {| points := Num.add (points b) pts;
     transactionCount := Num.add (transactionCount b) (Num.of_Z 1);
     totalAmount := Num.add (totalAmount b) amount |}.

Definition monthly_body (monthlyBreakdown : MonthlyBreakdown) (transaction : value)
  : result MonthlyBreakdown :=
  if negb (truthy transaction) then Return monthlyBreakdown
  else
    let* amount := get transaction "amount" in
    if negb (typeof_number amount) then Return monthlyBreakdown
    else
      let* date := get transaction "date" in
      if negb (truthy date) then Return monthlyBreakdown
      else
        let transactionDate := newDate date in
        match transactionDate with
        | None => Return monthlyBreakdown
        | Some _ =>
            let* monthYear := getMonthYearKey transactionDate in
            let* pts := calculatePointsForTransaction amount in
            let monthlyBreakdown :=
              match lookup monthYear monthlyBreakdown with
              | None => assign monthYear empty_bucket monthlyBreakdown
              | Some _ => monthlyBreakdown
              end in
            match lookup monthYear monthlyBreakdown with
            | Some b =>
                Return (assign monthYear (accumulate b pts (num_of amount))
                               monthlyBreakdown)
            | None => Throw TypeError
            end
        end.

Definition monthly_step (monthlyBreakdown : MonthlyBreakdown) (transaction : value)
  : MonthlyBreakdown :=
  try_catch (monthly_body monthlyBreakdown transaction)
            (fun _ => monthlyBreakdown).

Definition calculateMonthlyBreakdown (transactions : value)
  : result MonthlyBreakdown :=
  match transactions with
  | VArr items => Return (fold_left monthly_step items [])
  | _ => Throw InvalidInput
  end.

End Host.

(** *** [calculatePointsWithDetails] *)

(** The own enumerable properties an object spread [{...v}] copies: those
    of an object, the elements of an array and the characters of a string
    under their indices, nothing for the other primitives. *)
Fixpoint indexed {A : Type} (f : A -> value) (i : Z) (l : list A)
  : list (string * value) :=
  match l with
  | [] => []
  | a :: l' => (string_of_Z i, f a) :: indexed f (i + 1) l'
  end.

Definition spread (v : value) : list (string * value) :=
  match v with
  | VObj props => props
  | VArr items => indexed (fun w => w) 0 items
  | VStr s => indexed (fun c => VStr (String c EmptyString)) 0 (list_ascii_of_string s)
  | _ => []
  end.

Definition breakdown_value (b : PointsBreakdown) : value :=
  VObj [("highTier"%string, VNum (highTier b)); ("lowTier"%string, VNum (lowTier b))].

(** [{...transaction, points: pts, pointsBreakdown: b}] *)
Definition annotated (transaction : value) (pts : number) (b : PointsBreakdown)
  : value :=
  VObj (assign "pointsBreakdown" (breakdown_value b)
          (assign "points" (VNum pts) (spread transaction))).

(** One turn of the loop: [transactionsWithPoints] after [transaction].
    The [continue] of the guard leaves the array as it is; the handler of
    the [catch] pushes the zero-filled copy. *)
Definition details_body (transactionsWithPoints : list value) (transaction : value)
  : result (list value) :=
  if negb (truthy transaction) then Return transactionsWithPoints
  else
    let* amount := get transaction "amount" in
    if negb (typeof_number amount) then Return transactionsWithPoints
    else
      let* pts := calculatePointsForTransaction amount in
      Return (transactionsWithPoints
                ++ [annotated transaction pts (getPointsBreakdown amount)]).

Definition details_step (transactionsWithPoints : list value) (transaction : value)
  : list value :=
  try_catch (details_body transactionsWithPoints transaction)
    (fun _ =>
       transactionsWithPoints
         ++ [annotated transaction zero {| highTier := zero; lowTier := zero |}]).

Definition calculatePointsWithDetails (transactions : value) : result (list value) :=
  match transactions with
  | VArr items => Return (fold_left details_step items [])
  | _ => Throw InvalidInput
  end.

(** *** [getMonthYearDisplay] *)

Definition monthNames : list string :=
  ["January"; "February"; "March"; "April"; "May"; "June";
   "July"; "August"; "September"; "October"; "November"; "December"]%string.

(** [monthNames[parseInt(month, 10) - 1] || 'Unknown'] *)
Definition monthName (month : string) : string :=
  match parseInt month with
  | Some n =>
      let monthIndex := n - 1 in
      if (0 <=? monthIndex) && (monthIndex <? 12)
      then nth (Z.to_nat monthIndex) monthNames "Unknown"%string
      else "Unknown"%string
  | None => "Unknown"%string
  end.

(** The function returns a string on every argument. *)
Definition getMonthYearDisplay (monthYearKey : value) : string :=
  match monthYearKey with
  | VStr key =>
      if negb (includes hyphen key) then "Invalid Date"%string
      else
        match split hyphen key with
        | year :: month :: _ => (monthName month ++ " " ++ year)%string
        | [year] => ("Unknown " ++ year)%string
        | [] => "Unknown undefined"%string
        end
  | _ => "Invalid Date"%string
  end.

(** ** [PaginationManager]

    The class keeps a page of a data array current.  Its fields hold
    whole numbers (page numbers, sizes, counts), on which the arithmetic
    of numbers is exact below 2^53; they are integers here.  Two things
    are not whole numbers and are kept apart: [parseInt], through which
    the page of [goToPage] and the size of [setItemsPerPage] come,
    returns NaN on a text without a numeral and an infinity on a numeral
    beyond the range of numbers (above 1.8e308), and [itemsPerPage]
    keeps the [Infinity] it is given, from which the arithmetic of the
    pages makes infinities and NaN.

    The calls to the UI manager and to the page-change callback do not
    touch the fields and are left out; an instance is the record of its
    fields, and a method is a function from the fields before to the
    fields after. *)

Module Pagination.

(** [CONSTANTS.PAGINATION] *)
Definition DEFAULT_PAGE : Z := 1.
Definition TRANSACTIONS_PER_PAGE : Z := 10.

(** A whole number, an infinity, or NaN. *)
Inductive num : Type :=
| NaN
| Infinity
| NegInfinity
| Int (n : Z).

(** What [itemsPerPage] holds: the constant, or what [setItemsPerPage]
    lets through, a whole number or [Infinity]. *)
Inductive size : Type :=
| Whole (k : Z)
| Infinite.

Definition to_num (k : size) : num :=
  match k with
  | Whole k => Int k
  | Infinite => Infinity
  end.

Definition isNaN (x : num) : bool :=
  match x with NaN => true | _ => false end.

(** [x < y]; false when an operand is NaN. *)
Definition ltb (x y : num) : bool :=
  match x, y with
  | NaN, _ | _, NaN => false
  | Int a, Int b => a <? b
  | NegInfinity, NegInfinity => false
  | NegInfinity, _ => true
  | _, NegInfinity => false
  | Infinity, _ => false
  | Int _, Infinity => true
  end.

(** [x + y]: the two infinities add up to NaN. *)
Definition add (x y : num) : num :=
  match x, y with
  | NaN, _ | _, NaN => NaN
  | Int a, Int b => Int (a + b)
  | Infinity, NegInfinity | NegInfinity, Infinity => NaN
  | Infinity, _ | _, Infinity => Infinity
  | NegInfinity, _ | _, NegInfinity => NegInfinity
  end.

Definition sign (x : num) : Z :=
  match x with
  | NaN => 0
  | Infinity => 1
  | NegInfinity => -1
  | Int n => Z.sgn n
  end.

(** [x * y]: zero times an infinity is NaN. *)
Definition mul (x y : num) : num :=
  match x, y with
  | NaN, _ | _, NaN => NaN
  | Int a, Int b => Int (a * b)
  | _, _ =>
      match sign x * sign y with
      | 0 => NaN
      | Zpos _ => Infinity
      | Zneg _ => NegInfinity
      end
  end.

(** [Math.min(x, y)]: NaN if either is. *)
Definition Math_min (x y : num) : num :=
  if isNaN x || isNaN y then NaN
  else if ltb y x then y else x.

Record state : Type := {
  currentPage : Z;
  itemsPerPage : size;
  totalItems : Z;
  totalPages : Z;
  data : list value
}.

(** The constructor. *)
Definition new : state :=
  {| currentPage := DEFAULT_PAGE;
     itemsPerPage := Whole TRANSACTIONS_PER_PAGE;
     totalItems := 0;
     totalPages := 0;
     data := [] |}.

(** [Math.ceil(n / k)] for integers [n >= 0] and [k >= 1]. *)
Definition ceil_div (n k : Z) : Z :=
  if n mod k =? 0 then n / k else n / k + 1.

(** [Math.ceil(totalItems / itemsPerPage)]: a count divided by
    [Infinity] is 0. *)
Definition pages_of (n : Z) (k : size) : Z :=
  match k with
  | Whole k => ceil_div n k
  | Infinite => 0
  end.

Definition len {A : Type} (l : list A) : Z := Z.of_nat (List.length l).

(** [array.slice(start, end)]: an index is made an integer, NaN counting
    as 0; an index below zero counts from the end, and both indices are
    clamped to the array. *)
Definition relative_index (length : Z) (i : num) : Z :=
  match i with
  | NaN => 0
  | NegInfinity => 0
  | Infinity => length
  | Int i => if i <? 0 then Z.max (length + i) 0 else Z.min i length
  end.

Definition slice {A : Type} (l : list A) (start finish : num) : list A :=
  let k := relative_index (len l) start in
  let final := relative_index (len l) finish in
  firstn (Z.to_nat (final - k)) (skipn (Z.to_nat k) l).

(** [initialize(data)]: anything but an array is refused and changes
    nothing. *)
Definition initialize (s : state) (d : value) : state :=
  match d with
  | VArr items =>
      {| currentPage := DEFAULT_PAGE;
         itemsPerPage := itemsPerPage s;
         totalItems := len items;
         totalPages := pages_of (len items) (itemsPerPage s);
         data := items |}
  | _ => s
  end.

Definition getCurrentPageData (s : state) : list value :=
  match data s with
  | [] => []
  | _ =>
      let startIndex := mul (Int (currentPage s - 1)) (to_num (itemsPerPage s)) in
      let endIndex :=
        Math_min (add startIndex (to_num (itemsPerPage s))) (Int (totalItems s)) in
      slice (data s) startIndex endIndex
  end.

Definition set_page (s : state) (page : Z) : state :=
  {| currentPage := page;
     itemsPerPage := itemsPerPage s;
     totalItems := totalItems s;
     totalPages := totalPages s;
     data := data s |}.

(** [goToPage(pageNumber)], from [page = parseInt(pageNumber, 10)] on.
    A page that passes the guard is a whole number. *)
Definition goToPage (s : state) (page : num) : state :=
  if isNaN page || ltb page (Int 1) || ltb (Int (totalPages s)) page then s
  else
    match page with
    | Int page => if page =? currentPage s then s else set_page s page
    | _ => s
    end.

Definition hasNextPage (s : state) : bool := currentPage s <? totalPages s.

Definition hasPreviousPage (s : state) : bool := 1 <? currentPage s.

Definition goToNextPage (s : state) : state :=
  if hasNextPage s then goToPage s (Int (currentPage s + 1)) else s.

Definition goToPreviousPage (s : state) : state :=
  if hasPreviousPage s then goToPage s (Int (currentPage s - 1)) else s.

Definition goToFirstPage (s : state) : state := goToPage s (Int 1).

Definition goToLastPage (s : state) : state := goToPage s (Int (totalPages s)).

Record info : Type := {
  info_currentPage : Z;
  info_totalPages : Z;
  info_totalItems : Z;
  info_itemsPerPage : size;
  startItem : num;
  endItem : num;
  info_hasNextPage : bool;
  info_hasPreviousPage : bool
}.

Definition getPaginationInfo (s : state) : info :=
  let start :=
    add (mul (Int (currentPage s - 1)) (to_num (itemsPerPage s))) (Int 1) in
  let finish :=
    Math_min (mul (Int (currentPage s)) (to_num (itemsPerPage s)))
             (Int (totalItems s)) in
  {| info_currentPage := currentPage s;
     info_totalPages := totalPages s;
     info_totalItems := totalItems s;
     info_itemsPerPage := itemsPerPage s;
     startItem := if 0 <? totalItems s then start else Int 0;
     endItem := if 0 <? totalItems s then finish else Int 0;
     info_hasNextPage := hasNextPage s;
     info_hasPreviousPage := hasPreviousPage s |}.

(** [setItemsPerPage(itemsPerPage)], from [items = parseInt(...)] on.
    What passes the guard is a whole number or [Infinity]. *)
Definition setItemsPerPage (s : state) (items : num) : state :=
  if isNaN items || ltb items (Int 1) then s
  else
    let items := match items with Int k => Whole k | _ => Infinite end in
    let pages := pages_of (totalItems s) items in
    {| currentPage :=
         if pages <? currentPage s then Z.max 1 pages else currentPage s;
       itemsPerPage := items;
       totalItems := totalItems s;
       totalPages := pages;
       data := data s |}.

Definition reset (s : state) : state := set_page s DEFAULT_PAGE.

Definition updateData (s : state) (newData : value) : state :=
  match newData with
  | VArr items =>
      let pages := pages_of (len items) (itemsPerPage s) in
      {| currentPage :=
           if (pages <? currentPage s) && (0 <? pages) then 1
           else if pages =? 0 then 1
           else currentPage s;
         itemsPerPage := itemsPerPage s;
         totalItems := len items;
         totalPages := pages;
         data := items |}
  | _ => s
  end.

(** [Array.from({ length: n }, (_, i) => first + i)] *)
Definition numbers_from (first n : Z) : list Z :=
  map (fun i => first + Z.of_nat i) (seq 0 (Z.to_nat n)).

Definition getVisiblePageNumbers (s : state) (maxVisible : Z) : list Z :=
  if totalPages s <=? maxVisible then numbers_from 1 (totalPages s)
  else
    let half := maxVisible / 2 in
    let start := Z.max 1 (currentPage s - half) in
    let finish := Z.min (totalPages s) (start + maxVisible - 1) in
    let start :=
      if finish - start <? maxVisible - 1
      then Z.max 1 (finish - maxVisible + 1) else start in
    numbers_from start (finish - start + 1).

Definition isPaginationNeeded (s : state) : bool := 1 <? totalPages s.

End Pagination.

(** ** Rounding, seen from the value

    The arithmetic of [SpecFloat] rounds by shifting a mantissa and looking
    at the bits that fall off.  The definitions below say the same on
    integers; the lemmas further down prove it and derive what the claims
    need: results are well formed, rounding is monotone, and small integers
    are exact. *)

Module Round.

Definition dig (z : Z) : Z := Zdigits2 z.

Definition rne (M k : Z) : Z :=
let q := M / 2 ^ k in
let r := M mod 2 ^ k in
let h := 2 ^ (k - 1) in
if (h <? r) || ((r =? h) && Z.odd q) then q + 1 else q.

(** What a record holds after the mantissa [M] has lost its [j] low bits. *)
Definition shr_inv (M j : Z) (mrs : shr_record) : Prop :=
shr_m mrs = M / 2 ^ j /\
(shr_r mrs = true <-> 2 ^ (j - 1) <= M mod 2 ^ j) /\
(shr_s mrs = true <-> M mod 2 ^ j <> 0 /\ M mod 2 ^ j <> 2 ^ (j - 1)).

(** The two shifts of [binary_round_aux] and its last match, as functions on
  integers. *)
Definition fexp64 (e : Z) : Z := fexp Num.prec Num.emax e.

Definition stage1 (M e : Z) : Z * Z :=
let E := fexp64 (dig M + e) in
if 0 <? E - e then (rne M (E - e), E) else (M, e).

Definition stage2 (q e : Z) : Z * Z :=
let E := fexp64 (dig q + e) in
if 0 <? E - e then (q / 2 ^ (E - e), E) else (q, e).

Definition build (s : bool) (qe : Z * Z) : spec_float :=
match fst qe with
| Z0 => S754_zero s
| Zpos m => if snd qe <=? Num.emax - Num.prec then S754_finite s m (snd qe) else S754_infinity s
| Zneg _ => S754_nan
end.

Definition B : Z := 1200.
Definition emin64 : Z := -1074.

Definition RNq (V : Z) : Z * Z :=
let E := fexp64 (dig V - B) in (rne V (E + B), E).

Definition decode (s : bool) (V : Z) : spec_float :=
build s (let '(q, E) := RNq V in stage2 q E).

Definition R (V : Z) : Z :=
(snd (RNq V) - emin64) * 2 ^ 52 + fst (RNq V).

Definition ORDINF : Z := 2047 * 2 ^ 52.

(** The rank of a non-negative number among the binary64 values. *)
Definition ord (x : spec_float) : Z :=
match x with
| S754_finite _ m e => (e - emin64) * 2 ^ 52 + Zpos m
| S754_infinity _ => ORDINF
| _ => 0
end.

(** Well-formed and not negative ([-0] counts as zero). *)
Definition nn (x : spec_float) : bool :=
match x with
| S754_zero _ => true
| S754_infinity false => true
| S754_finite false m e => bounded Num.prec Num.emax m e
| _ => false
end.

Definition VINF : Z := 2 ^ (1025 + B).

(** The magnitude of a number in units of [2^-B]; an infinity stands above
  every finite value. *)
Definition fval (x : spec_float) : Z :=
match x with
| S754_finite _ m e => Zpos m * 2 ^ (e + B)
| S754_infinity _ => VINF
| _ => 0
end.

Definition fl (V : Z) : Z := V / 2 ^ B * 2 ^ B.

End Round.

(** ** Notions the properties are stated with *)

(** A number that is not NaN and not below zero; [+Infinity] is one. *)
Definition nonneg_number (v : value) : bool :=
  match v with
  | VNum (S754_zero _) | VNum (S754_finite false _ _) | VNum (S754_infinity false) => true
  | _ => false
  end.

(** A finite number that is not below zero. *)
Definition finite_nonneg_number (v : value) : bool :=
  match v with
  | VNum (S754_zero _) | VNum (S754_finite false _ _) => true
  | _ => false
  end.

(** The values that have no string: an object with an own property
    [toString] (plain data, so not a method), and an array with such a
    value among its elements, at any depth of arrays. *)
Inductive no_string : value -> Prop :=
| no_string_object (props : list (string * value)) (w : value) :
    lookup "toString" props = Some w -> no_string (VObj props)
| no_string_array (items : list value) (w : value) :
    In w items -> no_string w -> no_string (VArr items).

(** Induction on a value through the elements of arrays. *)
Section ValueInduction.

Variable P : value -> Prop.
Hypothesis not_array : forall v, Array_isArray v = false -> P v.
Hypothesis array : forall items, Forall P items -> P (VArr items).

Fixpoint value_array_ind (v : value) : P v :=
  match v with
  | VArr items =>
      array items
        ((fix elements (l : list value) : Forall P l :=
            match l with
            | [] => Forall_nil P
            | w :: l' => Forall_cons w (value_array_ind w) (elements l')
            end) items)
  | VUndefined => not_array VUndefined eq_refl
  | VNull => not_array VNull eq_refl
  | VBool b => not_array (VBool b) eq_refl
  | VNum x => not_array (VNum x) eq_refl
  | VStr s => not_array (VStr s) eq_refl
  | VObj props => not_array (VObj props) eq_refl
  end.

End ValueInduction.

(** The points of the two tiers, as the code computes them once a tier
    applies. *)
Definition highPoints (a : number) : number :=
  Num.Math_floor
    (Num.mul (Num.sub a CONSTANTS.REWARDS.HIGH_THRESHOLD)
             CONSTANTS.REWARDS.HIGH_MULTIPLIER).

(** The two thresholds in the units of [Round.fval]. *)
Definition V50 : Z := Round.fval (Num.of_Z 50).
Definition V100 : Z := Round.fval (Num.of_Z 100).

(** The [amount] and the [date] of an element, [undefined] when it has
    none. *)
Definition amount_of (transaction : value) : value :=
  try_catch (get transaction "amount") (fun _ => VUndefined).

Definition date_of (transaction : value) : value :=
  try_catch (get transaction "date") (fun _ => VUndefined).

(** The elements an aggregate leaves out: [null] (or [undefined]), those
    whose amount is not a number, those whose amount is NaN or negative. *)
Definition skipped (transaction : value) : bool :=
  match transaction with
  | VNull | VUndefined => true
  | _ =>
      match amount_of transaction with
      | VNum a => Num.isNaN a || Num.ltb a zero
      | _ => true
      end
  end.

(** The points of an element that is not left out. *)
Definition points_of (transaction : value) : number :=
  try_catch (calculatePointsForTransaction (amount_of transaction)) (fun _ => zero).

(** The sum of the points of the elements that are not left out, added up
    from the left. *)
Definition sum_valid_points (items : list value) : number :=
  fold_left Num.add (map points_of (filter (fun t => negb (skipped t)) items)) zero.

Section HostSpec.

Variable hostDate : value -> option Z.
Variable LocalTZA : Z -> Z.

(** The elements the monthly grouping keeps: not left out by the rule
    above, with a date that is present and parses. *)
Definition retained (transaction : value) : bool :=
  negb (skipped transaction)
  && truthy (date_of transaction)
  && match newDate hostDate (date_of transaction) with
     | Some _ => true
     | None => false
     end.

(** The month key of a kept element. *)
Definition month_key (transaction : value) : string :=
  try_catch
    (getMonthYearKey LocalTZA (newDate hostDate (date_of transaction)))
    (fun _ => EmptyString).

(** The bucket of a month after one more of its elements. *)
Definition bucket_after (before : option MonthlyBucket) (transaction : value)
  : MonthlyBucket :=
  accumulate
    match before with Some b => b | None => empty_bucket end
    (points_of transaction) (num_of (amount_of transaction)).

(** The bucket of month [k] after the elements [items], in order. *)
Definition grouped (k : string) (items : list value) (before : option MonthlyBucket)
  : option MonthlyBucket :=
  fold_left
    (fun b t =>
       if retained t && String.eqb (month_key t) k
       then Some (bucket_after b t) else b)
    items before.

End HostSpec.

(** A key of the form [YYYY-MM]: a year of four digits and a month of two. *)
Definition digits_only (s : string) : bool :=
  forallb (fun c => match digit_value c with Some _ => true | None => false end)
          (list_ascii_of_string s).

Definition two_digits (n : Z) : string := padStart2 (string_of_Z n).

Definition well_formed_key (s : string) : bool :=
  (String.length s =? 7)%nat
  && digits_only (substring 0 4 s)
  && String.eqb (substring 4 1 s) "-"
  && digits_only (substring 5 2 s).

(** The transactions of the scenarios of the specification. *)
Definition with_amount (a : value) : value := VObj [("amount"%string, a)].

Definition dated (a : Z) (d : string) : value :=
  VObj [("amount"%string, VNum (Num.of_Z a)); ("date"%string, VStr d)].

Definition scenario_total : value :=
  VArr [with_amount (VNum (Num.of_Z 120)); with_amount (VStr "invalid");
        with_amount (VNum (Num.of_Z 75)); with_amount (VNum (Num.of_Z (-10)));
        VNull; with_amount (VNum (Num.of_Z 80))].

Definition scenario_monthly : value :=
  VArr [dated 120 "2025-01-15"; dated 75 "2025-01-20"; dated 150 "2025-02-10"].

Definition scenario_details : value :=
  VArr [VObj [("transactionId"%string, VStr "T1"); ("amount"%string, VStr "invalid")];
        VObj [("transactionId"%string, VStr "T2"); ("amount"%string, VNum (Num.of_Z 75))]].

(** The literal [999999.99]. *)
Definition amount_999999_99 : number := Num.decimal 99999999 2.


(** The month key of the local calendar day [d] (days since the epoch). *)
Definition key_of_day (d : Z) : string :=
  try_catch (getMonthYearKey (fun _ => 0) (Some (d * Date.msPerDay)))
            (fun _ => EmptyString).

(** What holds of every bucket of a result. *)
Definition counts_at_least_one (b : MonthlyBucket) : Prop :=
  Round.nn (transactionCount b) = true /\
  Num.leb (Num.of_Z 1) (transactionCount b) = true.

(** ** Further notions *)

(** The elements [calculatePointsWithDetails] keeps: those with an amount
    that is a number. *)
Definition has_numeric_amount (transaction : value) : bool :=
  truthy transaction && typeof_number (amount_of transaction).

(** The record it emits for one of them. *)
Definition annotate (transaction : value) : value :=
  annotated transaction (points_of transaction)
            (getPointsBreakdown (amount_of transaction)).

(** [record.points] of an emitted record. *)
Definition points_field (record : value) : number :=
  match try_catch (get record "points") (fun _ => VUndefined) with
  | VNum p => p
  | _ => Num.NaN
  end.

(** Every amount that is a number is a well-formed binary64 datum. *)
Definition amounts_well_formed (items : list value) : Prop :=
  Forall (fun t => match amount_of t with
                   | VNum a => Num.wf a = true
                   | _ => True
                   end) items.

(** The distinct members of a list, each where it first occurs. *)
Definition first_occurrences (keys : list string) : list string :=
  fold_left
    (fun seen k => if existsb (String.eqb k) seen then seen else seen ++ [k])
    keys [].

Module PaginationSpec.

Import Pagination.

(** What the methods keep true of the fields, as long as the page size is
    a whole number. *)
Definition consistent (s : state) : Prop :=
  exists k,
    itemsPerPage s = Whole k /\
    1 <= k < 2 ^ 53 /\
    totalItems s = len (data s) /\
    totalItems s < 2 ^ 32 /\
    totalPages s = ceil_div (totalItems s) k /\
    1 <= currentPage s <= Z.max 1 (totalPages s).

(** The data of page [p]. *)
Definition page (s : state) (p : Z) : list value :=
  getCurrentPageData (set_page s p).

(** The pages [1 .. totalPages]. *)
Definition pages (s : state) : list Z := numbers_from 1 (totalPages s).

End PaginationSpec.

(** The years with four digits and the numbers of the months. *)
Definition four_digit_years : list Z := Pagination.numbers_from 1000 9000.

Definition month_numbers : list Z := Pagination.numbers_from 1 12.

(** The points of a whole number of currency units, by the rule: nothing up
    to 50, one point per unit above 50 up to 100, two per unit above 100. *)
Definition rule_points (n : Z) : Z :=
  if n <=? 50 then 0 else if n <=? 100 then n - 50 else 2 * (n - 100) + 50.

(** * Facts about binary64 rounding *)

Module RoundFacts.

Import Round.

Lemma digits2_pos_log2 (m : positive) :
Zpos (digits2_pos m) = Z.log2 (Zpos m) + 1.
Proof.
induction m as [m IH | m IH |]; simpl digits2_pos.
- rewrite Pos2Z.inj_succ, IH.
  change (Zpos m~1) with (2 * Zpos m + 1).
  rewrite Z.log2_succ_double by lia. lia.
- rewrite Pos2Z.inj_succ, IH.
  change (Zpos m~0) with (2 * Zpos m).
  rewrite Z.log2_double by lia. lia.
- reflexivity.
Qed.

Lemma dig_log2 (M : Z) : 0 < M -> dig M = Z.log2 M + 1.
Proof.
destruct M as [| m | m]; try lia. intros _. apply digits2_pos_log2.
Qed.

Lemma dig_bounds (M : Z) : 0 < M -> 2 ^ (dig M - 1) <= M < 2 ^ dig M.
Proof.
intros H. rewrite dig_log2 by assumption.
replace (Z.log2 M + 1 - 1) with (Z.log2 M) by lia.
replace (Z.log2 M + 1) with (Z.succ (Z.log2 M)) by lia.
apply Z.log2_spec; assumption.
Qed.

Lemma dig_pos (M : Z) : 0 < M -> 1 <= dig M.
Proof.
intros H. rewrite dig_log2 by assumption.
pose proof (Z.log2_nonneg M). lia.
Qed.

Lemma dig_unique (M d : Z) : 2 ^ (d - 1) <= M < 2 ^ d -> 1 <= d -> dig M = d.
Proof.
intros H Hd.
assert (0 < M) by (pose proof (Z.pow_pos_nonneg 2 (d - 1)); lia).
rewrite dig_log2 by assumption.
assert (Z.log2 M = d - 1); [| lia].
apply Z.log2_unique; [lia |].
replace (Z.succ (d - 1)) with d by lia. assumption.
Qed.

Lemma dig_shift (M j : Z) : 0 < M -> 0 <= j -> dig (M * 2 ^ j) = dig M + j.
Proof.
intros HM Hj.
assert (0 < M * 2 ^ j) by (apply Z.mul_pos_pos; [assumption | apply Z.pow_pos_nonneg; lia]).
rewrite !dig_log2 by assumption.
rewrite Z.log2_mul_pow2 by lia. lia.
Qed.

Lemma dig_mono (M1 M2 : Z) : 0 < M1 -> M1 <= M2 -> dig M1 <= dig M2.
Proof.
intros H1 H2. rewrite !dig_log2 by lia.
pose proof (Z.log2_le_mono M1 M2 H2). lia.
Qed.

Lemma dig_0 : dig 0 = 0.
Proof. reflexivity. Qed.

(** iter_pos is iteration *)
Lemma iter_pos_nat {A : Type} (f : A -> A) (p : positive) (x : A) :
iter_pos f p x = Nat.iter (Pos.to_nat p) f x.
Proof.
revert x. induction p as [p IH | p IH |]; intros x; simpl iter_pos.
- rewrite !IH, Pos2Nat.inj_xI.
  replace (S (2 * Pos.to_nat p)) with (Pos.to_nat p + (Pos.to_nat p + 1))%nat by lia.
  rewrite !Nat.iter_add. reflexivity.
- rewrite !IH, Pos2Nat.inj_xO.
  replace (2 * Pos.to_nat p)%nat with (Pos.to_nat p + Pos.to_nat p)%nat by lia.
  rewrite Nat.iter_add. reflexivity.
- reflexivity.
Qed.

Lemma shr_1_nonneg (m : Z) (r s : bool) :
0 <= m ->
shr_1 (Build_shr_record m r s) = Build_shr_record (m / 2) (Z.odd m) (r || s).
Proof.
intros H. destruct m as [| p | p]; try lia.
- reflexivity.
- destruct p as [p | p |]; simpl shr_1; f_equal.
  + change (Zpos p~1) with (2 * Zpos p + 1).
    rewrite Z.mul_comm, Z.div_add_l by lia. reflexivity.
  + change (Zpos p~0) with (2 * Zpos p).
    rewrite Z.mul_comm, Z.div_mul by lia. reflexivity.
Qed.

Lemma shr_inv_first (M : Z) :
0 <= M -> shr_inv M 1 (shr_1 (Build_shr_record M false false)).
Proof.
intros H. rewrite shr_1_nonneg by assumption. unfold shr_inv; cbn [shr_m shr_r shr_s].
change (2 ^ 1) with 2. change (2 ^ (1 - 1)) with 1.
pose proof (Z.mod_pos_bound M 2 ltac:(lia)).
rewrite Zodd_mod.
split; [reflexivity |].
destruct (Z.eqb_spec (M mod 2) 1); (split; split; intros; try reflexivity; try discriminate; try lia).
Qed.

Lemma shr_inv_step (M j : Z) (mrs : shr_record) :
0 <= M -> 1 <= j -> shr_inv M j mrs -> shr_inv M (j + 1) (shr_1 mrs).
Proof.
intros HM Hj (Hm & Hr & Hs). destruct mrs as [m r s]. cbn [shr_m shr_r shr_s] in *.
assert (Hp : 0 < 2 ^ j) by (apply Z.pow_pos_nonneg; lia).
assert (Hh : 0 < 2 ^ (j - 1)) by (apply Z.pow_pos_nonneg; lia).
assert (H2 : 2 ^ j = 2 * 2 ^ (j - 1)).
{ rewrite <- Z.pow_succ_r by lia. f_equal. lia. }
assert (Hm0 : 0 <= m) by (subst m; apply Z.div_pos; lia).
rewrite shr_1_nonneg by assumption. unfold shr_inv; cbn [shr_m shr_r shr_s].
replace (j + 1 - 1) with j by lia.
rewrite Z.pow_add_r by lia. change (2 ^ 1) with 2.
rewrite Z.rem_mul_r by lia.
rewrite <- Hm.
pose proof (Z.mod_pos_bound M (2 ^ j) Hp) as Hb.
pose proof (Z.mod_pos_bound m 2 ltac:(lia)) as Hb2.
rewrite Zodd_mod.
assert (Hrs : r || s = true <-> M mod 2 ^ j <> 0).
{ rewrite orb_true_iff, Hr, Hs. lia. }
set (rem := M mod 2 ^ j) in *. set (b := m mod 2) in *. set (p := 2 ^ j) in *.
split; [| split].
- rewrite Hm. unfold p. rewrite Z.div_div by lia. reflexivity.
- assert (Hb01 : b = 0 \/ b = 1) by lia.
  destruct Hb01 as [E | E]; rewrite E; simpl Z.eqb; split; intros; try reflexivity; try discriminate; lia.
- rewrite Hrs.
  assert (Hb01 : b = 0 \/ b = 1) by lia.
  destruct Hb01 as [E | E]; rewrite E; lia.
Qed.

Lemma shr_inv_iter (M : Z) (n : nat) :
0 <= M ->
shr_inv M (Z.of_nat (S n)) (Nat.iter (S n) shr_1 (Build_shr_record M false false)).
Proof.
intros HM. induction n as [| n IH].
- apply shr_inv_first; assumption.
- replace (Z.of_nat (S (S n))) with (Z.of_nat (S n) + 1) by lia.
  change (Nat.iter (S (S n)) shr_1 ?x) with (shr_1 (Nat.iter (S n) shr_1 x)).
  apply shr_inv_step; [assumption | lia | assumption].
Qed.

Lemma shr_inv_pos (M : Z) (p : positive) :
0 <= M ->
shr_inv M (Zpos p) (iter_pos shr_1 p (Build_shr_record M false false)).
Proof.
intros HM. rewrite iter_pos_nat.
destruct (Pos2Nat.is_succ p) as [n Hn]. rewrite Hn.
replace (Zpos p) with (Z.of_nat (S n)) by (rewrite <- Hn; apply positive_nat_Z).
apply shr_inv_iter; assumption.
Qed.

Lemma round_of_shr_inv (M k : Z) (mrs : shr_record) :
0 <= M -> 1 <= k -> shr_inv M k mrs ->
round_nearest_even (shr_m mrs) (loc_of_shr_record mrs) = rne M k.
Proof.
intros HM Hk (Hm & Hr & Hs). destruct mrs as [m r s]. cbn [shr_m shr_r shr_s] in *.
assert (Hh : 0 < 2 ^ (k - 1)) by (apply Z.pow_pos_nonneg; lia).
unfold rne. rewrite <- Hm.
set (rem := M mod 2 ^ k) in *. set (h := 2 ^ (k - 1)) in *.
rewrite <- Z.negb_even.
destruct r, s; cbn [loc_of_shr_record round_nearest_even].
- assert (h < rem) by (assert (h <= rem) by (apply Hr; reflexivity);
                       assert (rem <> 0 /\ rem <> h) by (apply Hs; reflexivity); lia).
  destruct (Z.ltb_spec h rem); [reflexivity | lia].
- assert (h <= rem) by (apply Hr; reflexivity).
  assert (rem = h).
  { destruct (Z.eq_dec rem h) as [E | E]; [assumption |].
    assert (false = true) by (apply Hs; lia). discriminate. }
  destruct (Z.ltb_spec h rem); [lia |].
  destruct (Z.eqb_spec rem h); [| lia].
  simpl. destruct (Z.even m); reflexivity.
- assert (~ h <= rem) by (intros C; apply Hr in C; discriminate).
  destruct (Z.ltb_spec h rem); [lia |].
  destruct (Z.eqb_spec rem h); [lia |]. reflexivity.
- assert (~ h <= rem) by (intros C; apply Hr in C; discriminate).
  destruct (Z.ltb_spec h rem); [lia |].
  destruct (Z.eqb_spec rem h); [lia |]. reflexivity.
Qed.

Lemma rne_bounds (M k : Z) :
0 <= M -> 0 <= k -> M / 2 ^ k <= rne M k <= M / 2 ^ k + 1.
Proof.
intros HM Hk. unfold rne.
destruct ((2 ^ (k - 1) <? M mod 2 ^ k) || ((M mod 2 ^ k =? 2 ^ (k - 1)) && Z.odd (M / 2 ^ k))); lia.
Qed.

Lemma rne_nonneg (M k : Z) : 0 <= M -> 0 <= k -> 0 <= rne M k.
Proof.
intros HM Hk. pose proof (rne_bounds M k HM Hk).
assert (0 <= M / 2 ^ k) by (apply Z.div_pos; [assumption | apply Z.pow_pos_nonneg; lia]).
lia.
Qed.

Lemma stage1_nonneg (M e : Z) : 0 <= M -> 0 <= fst (stage1 M e).
Proof.
intros HM. unfold stage1.
destruct (Z.ltb_spec 0 (fexp64 (dig M + e) - e)); cbn [fst]; [| assumption].
apply rne_nonneg; lia.
Qed.

Lemma shr_fexp_stage1 (M e : Z) :
0 <= M ->
let '(mrs, e') := shr_fexp Num.prec Num.emax M e loc_Exact in
(round_nearest_even (shr_m mrs) (loc_of_shr_record mrs), e') = stage1 M e.
Proof.
intros HM. unfold shr_fexp, stage1, fexp64, dig. cbn [shr_record_of_loc].
set (n := fexp Num.prec Num.emax (Zdigits2 M + e) - e).
destruct n as [| p | p] eqn:En; cbn [shr].
- reflexivity.
- change (0 <? Zpos p) with true. cbv iota.
  rewrite (round_of_shr_inv M (Zpos p)); [| assumption | lia | apply shr_inv_pos; assumption].
  f_equal. lia.
- reflexivity.
Qed.

Lemma shr_fexp_stage2 (q e : Z) :
0 <= q ->
let '(mrs, e') := shr_fexp Num.prec Num.emax q e loc_Exact in
(shr_m mrs, e') = stage2 q e.
Proof.
intros Hq. unfold shr_fexp, stage2, fexp64, dig. cbn [shr_record_of_loc].
set (n := fexp Num.prec Num.emax (Zdigits2 q + e) - e).
destruct n as [| p | p] eqn:En; cbn [shr].
- reflexivity.
- change (0 <? Zpos p) with true. cbv iota.
  destruct (shr_inv_pos q p Hq) as (Hm & _). rewrite Hm.
  f_equal. lia.
- reflexivity.
Qed.

Lemma binary_round_aux_eq (s : bool) (M e : Z) :
0 <= M ->
binary_round_aux Num.prec Num.emax s M e loc_Exact
= build s (let '(q, e1) := stage1 M e in stage2 q e1).
Proof.
intros HM. unfold binary_round_aux.
pose proof (shr_fexp_stage1 M e HM) as H1.
destruct (shr_fexp Num.prec Num.emax M e loc_Exact) as [mrs e1].
rewrite <- H1.
set (q := round_nearest_even (shr_m mrs) (loc_of_shr_record mrs)).
assert (Hq : 0 <= q).
{ replace q with (fst (stage1 M e)) by (rewrite <- H1; reflexivity).
  apply stage1_nonneg; assumption. }
pose proof (shr_fexp_stage2 q e1 Hq) as H2.
destruct (shr_fexp Num.prec Num.emax q e1 loc_Exact) as [mrs2 e2].
rewrite <- H2. unfold build. cbn [fst snd]. reflexivity.
Qed.

(** ** Rounding as a function of the value
  Every value met here is a multiple of [2^-B]; [V] stands for the value
  [V * 2^-B]. *)

Lemma fexp64_eq (e : Z) : fexp64 e = Z.max (e - 53) (-1074).
Proof. reflexivity. Qed.

Lemma pow2_pos (k : Z) : 0 <= k -> 0 < 2 ^ k.
Proof. intros; apply Z.pow_pos_nonneg; lia. Qed.

Lemma rne_exact (M j k : Z) :
0 <= M -> 1 <= k -> k <= j -> rne (M * 2 ^ j) k = M * 2 ^ (j - k).
Proof.
intros HM Hk Hj. unfold rne.
assert (E : M * 2 ^ j = (M * 2 ^ (j - k)) * 2 ^ k).
{ rewrite <- Z.mul_assoc, <- Z.pow_add_r by lia. do 2 f_equal. lia. }
rewrite E, Z.div_mul, Z.mod_mul by (pose proof (pow2_pos k); lia).
pose proof (pow2_pos (k - 1)).
destruct (Z.ltb_spec (2 ^ (k - 1)) 0); [lia |].
destruct (Z.eqb_spec 0 (2 ^ (k - 1))); [lia |]. reflexivity.
Qed.

Lemma rne_shift (M j k : Z) :
0 <= M -> 1 <= k -> 0 <= j -> rne (M * 2 ^ j) (k + j) = rne M k.
Proof.
intros HM Hk Hj. unfold rne.
pose proof (pow2_pos j Hj) as Pj. pose proof (pow2_pos k ltac:(lia)) as Pk.
pose proof (pow2_pos (k - 1) ltac:(lia)) as Ph.
rewrite Z.pow_add_r by lia.
rewrite Z.div_mul_cancel_r by lia.
rewrite Z.mul_mod_distr_r by lia.
replace (k + j - 1) with ((k - 1) + j) by lia.
rewrite Z.pow_add_r by lia.
set (r := M mod 2 ^ k). set (h := 2 ^ (k - 1)). set (p := 2 ^ j) in *.
replace (h * p <? r * p) with (h <? r).
2:{ destruct (Z.ltb_spec h r), (Z.ltb_spec (h * p) (r * p)); try reflexivity; nia. }
replace (r * p =? h * p) with (r =? h).
2:{ destruct (Z.eqb_spec r h), (Z.eqb_spec (r * p) (h * p)); try reflexivity; nia. }
reflexivity.
Qed.

Lemma rne_mono (M1 M2 k : Z) :
0 <= M1 -> M1 <= M2 -> 1 <= k -> rne M1 k <= rne M2 k.
Proof.
intros H1 H2 Hk.
pose proof (pow2_pos k ltac:(lia)) as Pk.
pose proof (Z.div_le_mono M1 M2 (2 ^ k) Pk H2) as Hq.
pose proof (rne_bounds M1 k ltac:(lia) ltac:(lia)).
pose proof (rne_bounds M2 k ltac:(lia) ltac:(lia)).
destruct (Z.eq_dec (M1 / 2 ^ k) (M2 / 2 ^ k)) as [E | E]; [| lia].
assert (Hr : M1 mod 2 ^ k <= M2 mod 2 ^ k).
{ pose proof (Z.div_mod M1 (2 ^ k) ltac:(lia)).
  pose proof (Z.div_mod M2 (2 ^ k) ltac:(lia)). rewrite E in *. lia. }
unfold rne. rewrite E.
set (q := M2 / 2 ^ k). set (r1 := M1 mod 2 ^ k) in *. set (r2 := M2 mod 2 ^ k) in *.
set (h := 2 ^ (k - 1)).
destruct (Z.ltb_spec h r1), (Z.ltb_spec h r2), (Z.eqb_spec r1 h), (Z.eqb_spec r2 h),
  (Z.odd q); simpl; lia.
Qed.

Lemma iter_xO_pow (m d : positive) :
Zpos (Pos.iter xO m d) = Zpos m * 2 ^ Zpos d.
Proof.
induction d as [| d IH] using Pos.peano_ind.
- simpl. lia.
- rewrite Pos.iter_succ, Pos2Z.inj_succ, Z.pow_succ_r by lia.
  change (Zpos (Pos.iter xO m d)~0) with (2 * Zpos (Pos.iter xO m d)).
  rewrite IH. lia.
Qed.

Lemma shl_align_spec (m : positive) (e e' : Z) :
snd (shl_align m e e') = Z.min e e' /\
Zpos (fst (shl_align m e e')) = Zpos m * 2 ^ (e - Z.min e e').
Proof.
unfold shl_align. destruct (e' - e) as [| d | d] eqn:Ed; cbn [fst snd].
- replace (Z.min e e') with e by lia. rewrite Z.sub_diag. lia.
- replace (Z.min e e') with e by lia. rewrite Z.sub_diag. lia.
- replace (Z.min e e') with e' by lia. split; [reflexivity |].
  rewrite iter_xO_pow. do 2 f_equal. lia.
Qed.

Lemma stage1_aligned (M e : Z) :
0 < M -> - B <= e -> e <= fexp64 (dig M + e) ->
stage1 M e = RNq (M * 2 ^ (e + B)).
Proof.
intros HM He Ha. unfold stage1, RNq.
rewrite dig_shift by (unfold B in *; lia).
replace (dig M + (e + B) - B) with (dig M + e) by lia.
set (E := fexp64 (dig M + e)) in *.
assert (HE : -1074 <= E) by (unfold E; rewrite fexp64_eq; lia).
destruct (Z.ltb_spec 0 (E - e)).
- f_equal. replace (E + B) with ((E - e) + (e + B)) by lia.
  symmetry. apply rne_shift; unfold B in *; lia.
- assert (E = e) by lia. f_equal; [| lia].
  rewrite rne_exact by (unfold B in *; lia).
  replace (e + B - (E + B)) with 0 by lia. lia.
Qed.

Lemma binary_round_aux_decode (s : bool) (M e : Z) :
0 < M -> - B <= e -> e <= fexp64 (dig M + e) ->
binary_round_aux Num.prec Num.emax s M e loc_Exact = decode s (M * 2 ^ (e + B)).
Proof.
intros HM He Ha. rewrite binary_round_aux_eq by lia.
unfold decode. rewrite stage1_aligned by assumption. reflexivity.
Qed.

Lemma binary_round_decode (s : bool) (m : positive) (e : Z) :
- B <= e ->
binary_round Num.prec Num.emax s m e = decode s (Zpos m * 2 ^ (e + B)).
Proof.
intros He. unfold binary_round.
pose proof (shl_align_spec m e (fexp Num.prec Num.emax (Zpos (digits2_pos m) + e))) as [Hs Hf].
destruct (shl_align m e (fexp Num.prec Num.emax (Zpos (digits2_pos m) + e))) as [mz ez].
cbn [fst snd] in *.
change (fexp Num.prec Num.emax (Zpos (digits2_pos m) + e)) with (fexp64 (dig (Zpos m) + e)) in *.
set (E := fexp64 (dig (Zpos m) + e)) in *.
assert (HE : -1074 <= E) by (unfold E; rewrite fexp64_eq; lia).
assert (Hd : dig (Zpos mz) + ez = dig (Zpos m) + e).
{ rewrite Hf, dig_shift by lia. lia. }
rewrite binary_round_aux_decode.
- f_equal. rewrite Hf, <- Z.mul_assoc, <- Z.pow_add_r by (unfold B in *; lia).
  do 2 f_equal. lia.
- lia.
- unfold B in *; lia.
- rewrite Hd. fold E. lia.
Qed.

Lemma dig_le (q n : Z) : 0 < q -> q < 2 ^ n -> 0 <= n -> dig q <= n.
Proof.
intros Hq Hlt Hn. pose proof (dig_bounds q Hq) as [Hlo _].
pose proof (dig_pos q Hq).
destruct (Z_lt_le_dec n (dig q)); [| assumption].
assert (2 ^ n <= 2 ^ (dig q - 1)) by (apply Z.pow_le_mono_r; lia). lia.
Qed.

Lemma dig_ge (q n : Z) : 2 ^ n <= q -> 0 <= n -> n + 1 <= dig q.
Proof.
intros Hq Hn. assert (0 < q) by (pose proof (pow2_pos n Hn); lia).
pose proof (dig_bounds q H) as [_ Hhi]. pose proof (dig_pos q H).
destruct (Z_lt_le_dec (dig q) (n + 1)); [| assumption].
assert (2 ^ dig q <= 2 ^ n) by (apply Z.pow_le_mono_r; lia). lia.
Qed.

Lemma RNq_bounds (V : Z) :
0 <= V ->
-1074 <= snd (RNq V) /\ 0 <= fst (RNq V) <= 2 ^ 53 /\
(-1074 < snd (RNq V) -> 2 ^ 52 <= fst (RNq V)) /\
(0 < V -> V mod 2 ^ (emin64 + B) = 0 -> 0 < fst (RNq V)).
Proof.
intros HV. unfold RNq. cbn [fst snd].
set (E := fexp64 (dig V - B)).
assert (HE : E = Z.max (dig V - B - 53) (-1074)) by reflexivity.
assert (Hk : 126 <= E + B) by (unfold B; lia).
pose proof (pow2_pos (E + B) ltac:(lia)) as Pk.
pose proof (rne_bounds V (E + B) HV ltac:(lia)) as Hb.
assert (Hq0 : 0 <= V / 2 ^ (E + B)) by (apply Z.div_pos; lia).
split; [lia |].
destruct (Z.eq_dec V 0) as [-> | Hne].
{ rewrite dig_0 in HE. rewrite Z.div_0_l in * by lia.
  change (2 ^ 53) with 9007199254740992. change (2 ^ 52) with 4503599627370496.
  repeat split; try lia. }
assert (HV' : 0 < V) by lia.
pose proof (dig_bounds V HV') as [Hlo Hhi]. pose proof (dig_pos V HV').
assert (Hup : V / 2 ^ (E + B) < 2 ^ 53).
{ apply Z.div_lt_upper_bound; [lia |].
  rewrite <- Z.pow_add_r by lia.
  apply Z.lt_le_trans with (1 := Hhi). apply Z.pow_le_mono_r; lia. }
split; [lia |]. split.
- intros Hn. assert (E = dig V - B - 53) by lia.
  assert (2 ^ 52 <= V / 2 ^ (E + B)); [| lia].
  apply Z.div_le_lower_bound; [lia |].
  rewrite <- Z.pow_add_r by lia.
  apply Z.le_trans with (2 := Hlo). apply Z.pow_le_mono_r; lia.
- intros _ Hmod.
  assert (0 < V / 2 ^ (E + B)); [| lia].
  destruct (Z_lt_le_dec (-1074) E) as [Hn | Hn].
  + assert (E = dig V - B - 53) by lia.
    assert (2 ^ 52 <= V / 2 ^ (E + B)); [| pose proof (pow2_pos 52); lia].
    apply Z.div_le_lower_bound; [lia |].
    rewrite <- Z.pow_add_r by lia.
    apply Z.le_trans with (2 := Hlo). apply Z.pow_le_mono_r; lia.
  + assert (E = -1074) by lia.
    replace (E + B) with (emin64 + B) by (unfold emin64; lia).
    apply Z.div_str_pos. split; [apply pow2_pos; unfold emin64, B; lia |].
    apply Z.divide_pos_le; [assumption |].
    apply Z.mod_divide; [| assumption].
    pose proof (pow2_pos (emin64 + B) ltac:(unfold emin64, B; lia)). lia.
Qed.

Lemma stage2_RNq (q E : Z) :
0 < q -> q <= 2 ^ 53 -> -1074 <= E -> (-1074 < E -> 2 ^ 52 <= q) ->
stage2 q E = (if q =? 2 ^ 53 then (2 ^ 52, E + 1) else (q, E)) /\
(q < 2 ^ 53 -> fexp64 (dig q + E) = E).
Proof.
intros Hq Hle HE Hn. unfold stage2.
destruct (Z.eqb_spec q (2 ^ 53)) as [-> | Hne].
- change (dig (2 ^ 53)) with 54. rewrite fexp64_eq.
  replace (Z.max (54 + E - 53) (-1074) - E) with 1 by lia.
  split; [| intros; lia].
  change (0 <? 1) with true. cbv iota. f_equal. lia.
- assert (Hlt : q < 2 ^ 53) by lia.
  pose proof (dig_le q 53 Hq Hlt ltac:(lia)) as Hd.
  assert (HfE : fexp64 (dig q + E) = E).
  { rewrite fexp64_eq. destruct (Z_lt_le_dec (-1074) E) as [Hgt | Hgt].
    - pose proof (dig_ge q 52 (Hn Hgt) ltac:(lia)). lia.
    - lia. }
  split; [| intros; assumption].
  rewrite HfE, Z.sub_diag. reflexivity.
Qed.

Lemma decode_nn_ord (V : Z) :
0 <= V -> nn (decode false V) = true /\ ord (decode false V) = Z.min ORDINF (R V).
Proof.
intros HV. unfold decode, R.
pose proof (RNq_bounds V HV) as (HE & Hq & Hn & _).
destruct (RNq V) as [q E]. cbn [fst snd] in *.
unfold ORDINF, emin64.
change (2 ^ 53) with 9007199254740992 in *. change (2 ^ 52) with 4503599627370496 in *.
destruct (Z.eq_dec q 0) as [-> | Hq0].
{ assert (E = -1074) by lia. subst E. split; reflexivity. }
pose proof (stage2_RNq q E ltac:(lia) ltac:(change (2 ^ 53) with 9007199254740992; lia) HE
              ltac:(change (2 ^ 52) with 4503599627370496; assumption)) as [Hs2 Hcan].
change (2 ^ 53) with 9007199254740992 in *. change (2 ^ 52) with 4503599627370496 in *.
rewrite Hs2. destruct (Z.eqb_spec q 9007199254740992) as [-> | Hne]; unfold build; cbn [fst snd].
- change (Num.emax - Num.prec) with 971.
  destruct (Z.leb_spec (E + 1) 971); cbn [nn ord].
  + split.
    * unfold bounded, canonical_mantissa.
      change (Zpos (digits2_pos 4503599627370496)) with 53.
      change (fexp Num.prec Num.emax) with fexp64. rewrite fexp64_eq.
      change (Num.emax - Num.prec) with 971.
      apply andb_true_intro; split; [apply Z.eqb_eq; lia | apply Z.leb_le; lia].
    * unfold emin64. change (2 ^ 52) with 4503599627370496. unfold ORDINF.
      change (2 ^ 52) with 4503599627370496. lia.
  + split; [reflexivity |]. unfold ORDINF. change (2 ^ 52) with 4503599627370496. lia.
- destruct q as [| m | m]; try lia.
  change (Num.emax - Num.prec) with 971.
  destruct (Z.leb_spec E 971); cbn [nn ord].
  + split.
    * unfold bounded, canonical_mantissa.
      change (fexp Num.prec Num.emax (Zpos (digits2_pos m) + E)) with (fexp64 (dig (Zpos m) + E)).
      rewrite Hcan by lia. change (Num.emax - Num.prec) with 971.
      apply andb_true_intro; split; [apply Z.eqb_eq; lia | apply Z.leb_le; lia].
    * unfold emin64, ORDINF. change (2 ^ 52) with 4503599627370496. lia.
  + split; [reflexivity |]. unfold ORDINF. change (2 ^ 52) with 4503599627370496. lia.
Qed.

Lemma fexp64_mono (a b : Z) : a <= b -> fexp64 a <= fexp64 b.
Proof. intros H. rewrite !fexp64_eq. lia. Qed.

Lemma R_mono (V1 V2 : Z) : 0 <= V1 -> V1 <= V2 -> R V1 <= R V2.
Proof.
intros H1 H2.
pose proof (RNq_bounds V1 H1) as (HE1 & Hq1 & Hn1 & _).
pose proof (RNq_bounds V2 ltac:(lia)) as (HE2 & Hq2 & Hn2 & _).
unfold R, emin64.
destruct (Z.eq_dec V1 0) as [-> | Hne].
{ assert (fst (RNq 0) = 0 /\ snd (RNq 0) = -1074) as [-> ->] by (split; reflexivity).
  pose proof (pow2_pos 52). nia. }
assert (Hd : dig V1 <= dig V2) by (apply dig_mono; lia).
assert (HEE : snd (RNq V1) <= snd (RNq V2)).
{ unfold RNq; cbn [snd]. apply fexp64_mono. lia. }
destruct (Z.eq_dec (snd (RNq V1)) (snd (RNq V2))) as [E | E].
- rewrite E. assert (fst (RNq V1) <= fst (RNq V2)); [| lia].
  unfold RNq in *; cbn [fst snd] in *. rewrite E.
  apply rne_mono; [lia | assumption | unfold B in *; lia].
- assert (Hlt : snd (RNq V1) < snd (RNq V2)) by lia.
  specialize (Hn2 ltac:(lia)).
  change (2 ^ 53) with 9007199254740992 in *. change (2 ^ 52) with 4503599627370496 in *.
  lia.
Qed.

Lemma canonical_bounds (m : positive) (e : Z) :
canonical_mantissa Num.prec Num.emax m e = true ->
-1074 <= e /\ Zpos m < 2 ^ 53 /\ (-1074 < e -> 2 ^ 52 <= Zpos m).
Proof.
unfold canonical_mantissa. intros H. apply Z.eqb_eq in H.
change (fexp Num.prec Num.emax (Zpos (digits2_pos m) + e)) with (fexp64 (dig (Zpos m) + e)) in H.
rewrite fexp64_eq in H.
pose proof (dig_bounds (Zpos m) ltac:(lia)) as [Hlo Hhi].
pose proof (dig_pos (Zpos m) ltac:(lia)).
split; [lia |]. split.
- apply Z.lt_le_trans with (1 := Hhi). apply Z.pow_le_mono_r; lia.
- intros Hn. assert (dig (Zpos m) = 53) by lia.
  rewrite H1 in Hlo. exact Hlo.
Qed.

Lemma nn_finite_bounds (m : positive) (e : Z) :
nn (S754_finite false m e) = true ->
-1074 <= e <= 971 /\ Zpos m < 2 ^ 53 /\ (-1074 < e -> 2 ^ 52 <= Zpos m)
/\ fexp64 (dig (Zpos m) + e) = e.
Proof.
cbn [nn]. unfold bounded. intros H. apply andb_prop in H as [Hc Hb].
pose proof (canonical_bounds m e Hc) as (H1 & H2 & H3).
apply Z.leb_le in Hb. change (Num.emax - Num.prec) with 971 in Hb.
unfold canonical_mantissa in Hc. apply Z.eqb_eq in Hc.
repeat split; try lia; assumption.
Qed.

Lemma compare_ord (x y : spec_float) :
nn x = true -> nn y = true -> SFcompare x y = Some (ord x ?= ord y).
Proof.
intros Hx Hy.
destruct x as [sx | sx | | sx mx ex]; try discriminate;
  destruct y as [sy | sy | | sy my ey]; try discriminate;
  try (destruct sx; try discriminate); try (destruct sy; try discriminate);
  try reflexivity.
- (* zero, finite *)
  pose proof (nn_finite_bounds my ey Hy) as (He & Hm & Hn & _).
  cbn [SFcompare ord]. unfold emin64. f_equal. symmetry. apply Z.compare_lt_iff.
  change (2 ^ 52) with 4503599627370496 in *. lia.
- pose proof (nn_finite_bounds my ey Hy) as (He & Hm & Hn & _).
  cbn [SFcompare ord]. unfold emin64. f_equal. symmetry. apply Z.compare_lt_iff.
  change (2 ^ 52) with 4503599627370496 in *. lia.
- (* inf, finite *)
  pose proof (nn_finite_bounds my ey Hy) as (He & Hm & Hn & _).
  cbn [SFcompare ord]. unfold emin64, ORDINF. f_equal. symmetry. apply Z.compare_gt_iff.
  change (2 ^ 53) with 9007199254740992 in *. change (2 ^ 52) with 4503599627370496 in *. lia.
- (* finite, zero *)
  pose proof (nn_finite_bounds mx ex Hx) as (He & Hm & Hn & _).
  cbn [SFcompare ord]. unfold emin64. f_equal. symmetry. apply Z.compare_gt_iff.
  change (2 ^ 52) with 4503599627370496 in *. lia.
- pose proof (nn_finite_bounds mx ex Hx) as (He & Hm & Hn & _).
  cbn [SFcompare ord]. unfold emin64. f_equal. symmetry. apply Z.compare_gt_iff.
  change (2 ^ 52) with 4503599627370496 in *. lia.
- (* finite, inf *)
  pose proof (nn_finite_bounds mx ex Hx) as (He & Hm & Hn & _).
  cbn [SFcompare ord]. unfold emin64, ORDINF. f_equal. symmetry. apply Z.compare_lt_iff.
  change (2 ^ 53) with 9007199254740992 in *. change (2 ^ 52) with 4503599627370496 in *. lia.
- (* finite, finite *)
  pose proof (nn_finite_bounds mx ex Hx) as (Hex & Hmx & Hnx & _).
  pose proof (nn_finite_bounds my ey Hy) as (Hey & Hmy & Hny & _).
  cbn [SFcompare ord]. unfold emin64. f_equal.
  change (2 ^ 53) with 9007199254740992 in *. change (2 ^ 52) with 4503599627370496 in *.
  destruct (Z.compare_spec ex ey) as [E | E | E].
  + subst ey. rewrite Pos.compare_cont_spec. simpl Pos.switch_Eq.
    change (mx ?= my)%positive with (Zpos mx ?= Zpos my).
    symmetry. destruct (Z.compare_spec (Zpos mx) (Zpos my));
      [apply Z.compare_eq_iff | apply Z.compare_lt_iff | apply Z.compare_gt_iff]; lia.
  + symmetry. apply Z.compare_lt_iff. lia.
  + symmetry. apply Z.compare_gt_iff. lia.
Qed.

Lemma fval_finite_bounds (s : bool) (m : positive) (e : Z) :
nn (S754_finite false m e) = true ->
0 < fval (S754_finite s m e) < 2 ^ (1024 + B) /\
fval (S754_finite s m e) mod 2 ^ (emin64 + B) = 0.
Proof.
intros H. pose proof (nn_finite_bounds m e H) as (He & Hm & _).
cbn [fval]. pose proof (pow2_pos (e + B) ltac:(unfold B; lia)) as P.
split; [split |].
- nia.
- replace (1024 + B) with (53 + (971 + B)) by lia.
  rewrite (Z.pow_add_r 2 53 (971 + B)) by (unfold B; lia).
  assert (2 ^ (e + B) <= 2 ^ (971 + B)) by (apply Z.pow_le_mono_r; lia).
  pose proof (pow2_pos 53 ltac:(lia)). nia.
- replace (e + B) with ((e - emin64) + (emin64 + B)) by lia.
  rewrite (Z.pow_add_r 2 (e - emin64) (emin64 + B)) by (unfold emin64, B; lia).
  rewrite Z.mul_assoc. apply Z.mod_mul.
  pose proof (pow2_pos (emin64 + B) ltac:(unfold emin64, B; lia)). lia.
Qed.

Lemma fval_nonneg (x : spec_float) : 0 <= fval x.
Proof.
destruct x as [s | s | | s m e]; cbn [fval]; try lia;
  try (unfold VINF; apply Z.pow_nonneg; lia).
Qed.

Lemma VINF_eq : VINF = 2 * 2 ^ (1024 + B).
Proof. reflexivity. Qed.

Lemma ord_fval_compare (x y : spec_float) :
nn x = true -> nn y = true -> (ord x ?= ord y) = (fval x ?= fval y).
Proof.
intros Hx Hy.
assert (P1024 : 0 < 2 ^ (1024 + B)) by (apply pow2_pos; unfold B; lia).
destruct x as [sx | sx | | sx mx ex]; try discriminate;
  destruct y as [sy | sy | | sy my ey]; try discriminate;
  try (destruct sx; try discriminate); try (destruct sy; try discriminate);
  try reflexivity;
  try (pose proof (nn_finite_bounds mx ex Hx) as (Hex & Hmx & Hnx & _);
       pose proof (fval_finite_bounds false mx ex Hx) as (Hvx & _));
  try (pose proof (nn_finite_bounds my ey Hy) as (Hey & Hmy & Hny & _);
       pose proof (fval_finite_bounds false my ey Hy) as (Hvy & _));
  change (2 ^ 53) with 9007199254740992 in *; change (2 ^ 52) with 4503599627370496 in *;
  cbn [ord fval] in *; unfold emin64, ORDINF; rewrite ?VINF_eq;
  change (2 ^ 52) with 4503599627370496;
  try (transitivity Lt; [apply Z.compare_lt_iff | symmetry; apply Z.compare_lt_iff]; lia);
  try (transitivity Gt; [apply Z.compare_gt_iff | symmetry; apply Z.compare_gt_iff]; lia).
pose proof (pow2_pos (ex + B) ltac:(unfold B; lia)) as Px.
pose proof (pow2_pos (ey + B) ltac:(unfold B; lia)) as Py.
destruct (Z.compare_spec ex ey) as [E | E | E].
- subst ey.
  destruct (Z.compare_spec (Zpos mx) (Zpos my)) as [Em | Em | Em].
  + rewrite Em. rewrite !Z.compare_refl. reflexivity.
  + transitivity Lt; [apply Z.compare_lt_iff | symmetry; apply Z.compare_lt_iff]; nia.
  + transitivity Gt; [apply Z.compare_gt_iff | symmetry; apply Z.compare_gt_iff]; nia.
- assert (2 * 2 ^ (ex + B) <= 2 ^ (ey + B)).
  { rewrite <- Z.pow_succ_r by (unfold B; lia). apply Z.pow_le_mono_r; lia. }
  transitivity Lt; [apply Z.compare_lt_iff | symmetry; apply Z.compare_lt_iff]; nia.
- assert (2 * 2 ^ (ey + B) <= 2 ^ (ex + B)).
  { rewrite <- Z.pow_succ_r by (unfold B; lia). apply Z.pow_le_mono_r; lia. }
  transitivity Gt; [apply Z.compare_gt_iff | symmetry; apply Z.compare_gt_iff]; nia.
Qed.

Lemma compare_fval (x y : spec_float) :
nn x = true -> nn y = true -> SFcompare x y = Some (fval x ?= fval y).
Proof.
intros Hx Hy. rewrite compare_ord, ord_fval_compare by assumption. reflexivity.
Qed.

Lemma leb_fval (x y : spec_float) :
nn x = true -> nn y = true -> (SFleb x y = true <-> fval x <= fval y).
Proof.
intros Hx Hy. unfold SFleb. rewrite compare_fval by assumption.
destruct (Z.compare_spec (fval x) (fval y)); split; intros; try reflexivity; try lia; discriminate.
Qed.

Lemma ltb_fval (x y : spec_float) :
nn x = true -> nn y = true -> (SFltb x y = true <-> fval x < fval y).
Proof.
intros Hx Hy. unfold SFltb. rewrite compare_fval by assumption.
destruct (Z.compare_spec (fval x) (fval y)); split; intros; try reflexivity; try lia; discriminate.
Qed.

Lemma leb_ord (x y : spec_float) :
nn x = true -> nn y = true -> (SFleb x y = true <-> ord x <= ord y).
Proof.
intros Hx Hy. unfold SFleb. rewrite compare_ord by assumption.
destruct (Z.compare_spec (ord x) (ord y)); split; intros; try reflexivity; try lia; discriminate.
Qed.

Lemma decode_bounded (s : bool) (m : positive) (e : Z) :
bounded Num.prec Num.emax m e = true ->
decode s (Zpos m * 2 ^ (e + B)) = S754_finite s m e.
Proof.
intros Hb. pose proof (nn_finite_bounds m e Hb) as (He & Hm & Hn & Hc).
unfold decode, RNq.
rewrite dig_shift by (unfold B; lia).
replace (dig (Zpos m) + (e + B) - B) with (dig (Zpos m) + e) by lia.
rewrite Hc.
rewrite rne_exact by (unfold B; lia).
rewrite Z.sub_diag, Z.mul_1_r.
unfold stage2. rewrite Hc, Z.sub_diag. cbn [Z.ltb Z.compare].
unfold build. cbn [fst snd]. change (Num.emax - Num.prec) with 971.
destruct (Z.leb_spec e 971); [reflexivity | lia].
Qed.

Lemma R_0 : R 0 = 0.
Proof. reflexivity. Qed.

Lemma R_big (V : Z) : 2 ^ (1024 + B) <= V -> ORDINF <= R V.
Proof.
intros H. apply Z.le_trans with (R (2 ^ (1024 + B))).
- vm_compute. discriminate.
- apply R_mono; [apply Z.pow_nonneg; lia | assumption].
Qed.

Lemma ord_R (x : spec_float) : nn x = true -> ord x = Z.min ORDINF (R (fval x)).
Proof.
intros Hx. destruct x as [s | s | | s m e]; try discriminate.
- reflexivity.
- destruct s; try discriminate. cbn [ord fval].
  pose proof (R_big VINF ltac:(rewrite VINF_eq; pose proof (pow2_pos (1024 + B) ltac:(unfold B; lia)); lia)).
  lia.
- destruct s; try discriminate.
  pose proof (decode_nn_ord (fval (S754_finite false m e)) (fval_nonneg _)) as [_ Ho].
  cbn [fval] in Ho. rewrite decode_bounded in Ho by exact Hx. exact Ho.
Qed.

(** Two numbers whose ranks are the roundings of [V1 <= V2] are ordered. *)
Lemma leb_of_R (x y : spec_float) (V1 V2 : Z) :
nn x = true -> nn y = true ->
ord x = Z.min ORDINF (R V1) -> ord y = Z.min ORDINF (R V2) ->
0 <= V1 -> V1 <= V2 -> SFleb x y = true.
Proof.
intros Hx Hy Ox Oy H1 H2. apply leb_ord; try assumption.
pose proof (R_mono V1 V2 H1 H2). lia.
Qed.

Lemma binary_normalize_pos (z e : Z) :
0 < z -> - B <= e ->
binary_normalize Num.prec Num.emax z e false = decode false (z * 2 ^ (e + B)).
Proof.
intros Hz He. destruct z as [| p | p]; try lia.
cbn [binary_normalize]. apply binary_round_decode; assumption.
Qed.

Lemma binary_normalize_neg (z e : Z) :
z < 0 -> - B <= e ->
binary_normalize Num.prec Num.emax z e false = decode true (- z * 2 ^ (e + B)).
Proof.
intros Hz He. destruct z as [| p | p]; try lia.
cbn [binary_normalize]. apply binary_round_decode; assumption.
Qed.

Lemma aligned_value (m : positive) (e e' : Z) :
- B <= Z.min e e' ->
Zpos (fst (shl_align m e (Z.min e e'))) * 2 ^ (Z.min e e' + B) = Zpos m * 2 ^ (e + B).
Proof.
intros H. destruct (shl_align_spec m e (Z.min e e')) as [_ Hf].
rewrite Hf. replace (Z.min e (Z.min e e')) with (Z.min e e') by lia.
rewrite <- Z.mul_assoc, <- Z.pow_add_r by lia. do 2 f_equal. lia.
Qed.

Lemma aligned_value' (m : positive) (e e' : Z) :
- B <= Z.min e' e ->
Zpos (fst (shl_align m e (Z.min e' e))) * 2 ^ (Z.min e' e + B) = Zpos m * 2 ^ (e + B).
Proof.
intros H. rewrite Z.min_comm in *. apply aligned_value; assumption.
Qed.

Lemma decode_sign (s : bool) (V : Z) :
match decode s V with
| S754_zero s' | S754_infinity s' | S754_finite s' _ _ => s' = s
| S754_nan => True
end.
Proof.
unfold decode, build. destruct (fst _); try reflexivity.
destruct (_ <=? _); reflexivity.
Qed.

Lemma SFadd_finite (mx my : positive) (ex ey : Z) :
nn (S754_finite false mx ex) = true -> nn (S754_finite false my ey) = true ->
SFadd Num.prec Num.emax (S754_finite false mx ex) (S754_finite false my ey)
= decode false (fval (S754_finite false mx ex) + fval (S754_finite false my ey)).
Proof.
intros Hx Hy.
pose proof (nn_finite_bounds mx ex Hx) as (Hex & _).
pose proof (nn_finite_bounds my ey Hy) as (Hey & _).
cbn [SFadd cond_Zopp fval].
rewrite binary_normalize_pos by (unfold B; lia).
f_equal. rewrite Z.mul_add_distr_r.
rewrite aligned_value, aligned_value' by (unfold B; lia). reflexivity.
Qed.

Lemma SFsub_finite (mx my : positive) (ex ey : Z) :
nn (S754_finite false mx ex) = true -> nn (S754_finite false my ey) = true ->
let d := fval (S754_finite false mx ex) - fval (S754_finite false my ey) in
SFsub Num.prec Num.emax (S754_finite false mx ex) (S754_finite false my ey)
= if 0 <? d then decode false d
  else if d <? 0 then decode true (- d)
  else S754_zero false.
Proof.
intros Hx Hy d.
pose proof (nn_finite_bounds mx ex Hx) as (Hex & _).
pose proof (nn_finite_bounds my ey Hy) as (Hey & _).
cbn [SFsub cond_Zopp].
set (z := Zpos (fst (shl_align mx ex (Z.min ex ey))) - Zpos (fst (shl_align my ey (Z.min ex ey)))).
assert (Hz : z * 2 ^ (Z.min ex ey + B) = d).
{ unfold z, d. cbn [fval]. rewrite Z.mul_sub_distr_r.
  rewrite aligned_value, aligned_value' by (unfold B; lia). reflexivity. }
pose proof (pow2_pos (Z.min ex ey + B) ltac:(unfold B; lia)) as P.
destruct (Z.ltb_spec 0 d) as [Hd | Hd].
- rewrite binary_normalize_pos by (unfold B; nia || lia). rewrite Hz. reflexivity.
- destruct (Z.ltb_spec d 0) as [Hd' | Hd'].
  + rewrite binary_normalize_neg by (unfold B; nia || lia).
    rewrite Z.mul_opp_l, Hz. reflexivity.
  + assert (z = 0) by nia. rewrite H. reflexivity.
Qed.

Lemma SFmul_pow2 (s : bool) (mx : positive) (ex ey : Z) :
bounded Num.prec Num.emax mx ex = true -> -52 <= ey ->
SFmul Num.prec Num.emax (S754_finite s mx ex) (S754_finite false 4503599627370496 ey)
= decode s (Zpos mx * 2 ^ (ex + ey + 52 + B)).
Proof.
intros Hb Hey. pose proof (nn_finite_bounds mx ex Hb) as (Hex & _).
cbn [SFmul]. rewrite xorb_false_r.
rewrite Pos2Z.inj_mul. change (Zpos 4503599627370496) with (2 ^ 52).
pose proof (dig_pos (Zpos mx) ltac:(lia)) as Hd.
rewrite binary_round_aux_decode.
- f_equal. rewrite <- Z.mul_assoc, <- Z.pow_add_r by (unfold B; lia).
  do 2 f_equal. lia.
- apply Z.mul_pos_pos; [lia | apply pow2_pos; lia].
- unfold B; lia.
- rewrite dig_shift by lia. rewrite fexp64_eq. lia.
Qed.

Lemma fl_mono (V1 V2 : Z) : V1 <= V2 -> fl V1 <= fl V2.
Proof.
intros H. unfold fl. pose proof (pow2_pos B ltac:(unfold B; lia)) as P.
apply Z.mul_le_mono_nonneg_r; [lia |]. apply Z.div_le_mono; lia.
Qed.

Lemma fl_nonneg (V : Z) : 0 <= V -> 0 <= fl V.
Proof.
intros H. unfold fl. pose proof (pow2_pos B ltac:(unfold B; lia)) as P.
apply Z.mul_nonneg_nonneg; [apply Z.div_pos |]; lia.
Qed.

Lemma fl_le (V : Z) : 0 <= V -> fl V <= V.
Proof.
intros H. unfold fl. pose proof (pow2_pos B ltac:(unfold B; lia)) as P.
pose proof (Z.mul_div_le V (2 ^ B) P). lia.
Qed.

Lemma fl_fval_neg_exp (m : positive) (e : Z) :
- B <= e -> e < 0 -> fl (Zpos m * 2 ^ (e + B)) = Zpos m / 2 ^ (- e) * 2 ^ B.
Proof.
intros H1 H2. unfold fl. f_equal.
replace (2 ^ B) with (2 ^ (- e) * 2 ^ (e + B)).
2:{ rewrite <- Z.pow_add_r by lia. f_equal. lia. }
apply Z.div_mul_cancel_r.
- pose proof (pow2_pos (- e) ltac:(lia)). lia.
- pose proof (pow2_pos (e + B) ltac:(lia)). lia.
Qed.

Lemma fl_fval_nonneg_exp (m : positive) (e : Z) :
0 <= e -> fl (Zpos m * 2 ^ (e + B)) = Zpos m * 2 ^ (e + B).
Proof.
intros H. unfold fl.
rewrite (Z.pow_add_r 2 e B) by (unfold B; lia).
rewrite Z.mul_assoc.
rewrite Z.div_mul by (pose proof (pow2_pos B ltac:(unfold B; lia)); lia).
reflexivity.
Qed.

End RoundFacts.

(** * Facts about the arithmetic of the calculator *)

Module NumFacts.

Import Round RoundFacts.

Lemma zero_eq : zero = S754_zero false.
Proof. reflexivity. Qed.

Lemma one_eq : Num.of_Z 1 = S754_finite false 4503599627370496 (-52).
Proof. reflexivity. Qed.

Lemma two_eq : Num.of_Z 2 = S754_finite false 4503599627370496 (-51).
Proof. reflexivity. Qed.

Lemma fifty_eq : Num.of_Z 50 = S754_finite false 7036874417766400 (-47).
Proof. reflexivity. Qed.

Lemma hundred_eq : Num.of_Z 100 = S754_finite false 7036874417766400 (-46).
Proof. reflexivity. Qed.

Lemma decode_0 (s : bool) : decode s 0 = S754_zero s.
Proof. reflexivity. Qed.

Lemma min_ORDINF_big (V : Z) : 2 ^ (1024 + B) <= V -> Z.min ORDINF (R V) = ORDINF.
Proof. intros H. pose proof (R_big V H). lia. Qed.

Lemma pow1024_pos : 0 < 2 ^ (1024 + B).
Proof. apply pow2_pos. unfold B. lia. Qed.

(** Addition of non-negative numbers rounds the sum of the values. *)
Lemma add_nn (x y : number) :
nn x = true -> nn y = true ->
nn (Num.add x y) = true /\
ord (Num.add x y) = Z.min ORDINF (R (fval x + fval y)).
Proof.
intros Hx Hy. pose proof pow1024_pos as P.
pose proof (fval_nonneg x) as Fx. pose proof (fval_nonneg y) as Fy.
destruct x as [sx | sx | | sx mx ex]; try discriminate;
  destruct y as [sy | sy | | sy my ey]; try discriminate;
  try (destruct sx; try discriminate); try (destruct sy; try discriminate);
  unfold Num.add;
  try (split; [reflexivity | cbn [SFadd ord]; symmetry; apply min_ORDINF_big;
                              change (fval (S754_infinity false)) with VINF;
                              rewrite VINF_eq; lia]);
  try (split; reflexivity).
- cbn [SFadd]. split; [assumption |]. rewrite ord_R by assumption. reflexivity.
- cbn [SFadd]. split; [assumption |]. rewrite ord_R by assumption. reflexivity.
- cbn [SFadd]. split; [assumption |]. rewrite ord_R by assumption.
  change (fval (S754_zero false)) with 0. rewrite Z.add_0_r. reflexivity.
- cbn [SFadd]. split; [assumption |]. rewrite ord_R by assumption.
  change (fval (S754_zero true)) with 0. rewrite Z.add_0_r. reflexivity.
- rewrite SFadd_finite by assumption. apply decode_nn_ord. lia.
Qed.

(** Subtraction of a smaller finite number rounds the difference. *)
Lemma sub_nn (x y : number) :
nn x = true -> nn y = true -> Num.isFinite y = true -> fval y <= fval x ->
nn (Num.sub x y) = true /\
ord (Num.sub x y) = Z.min ORDINF (R (fval x - fval y)).
Proof.
intros Hx Hy Hf Hle. pose proof pow1024_pos as P.
destruct y as [sy | sy | | sy my ey]; try discriminate;
  destruct x as [sx | sx | | sx mx ex]; try discriminate;
  try (destruct sx; try discriminate); try (destruct sy; try discriminate);
  unfold Num.sub;
  try (pose proof (fval_finite_bounds false my ey Hy) as (Hvy & _));
  try (pose proof (fval_finite_bounds false mx ex Hx) as (Hvx & _));
  try (split; reflexivity);
  try (exfalso; cbn [fval] in *; lia);
  try (split; [reflexivity | cbn [SFsub ord]; symmetry; apply min_ORDINF_big;
                              change (fval (S754_infinity false)) with VINF;
                              rewrite VINF_eq; cbn [fval] in *; lia]).
- cbn [SFsub]. split; [assumption |]. rewrite ord_R by assumption.
  change (fval (S754_zero true)) with 0. rewrite Z.sub_0_r. reflexivity.
- cbn [SFsub]. split; [assumption |]. rewrite ord_R by assumption.
  change (fval (S754_zero false)) with 0. rewrite Z.sub_0_r. reflexivity.
- rewrite SFsub_finite by assumption. cbv zeta.
  destruct (Z.ltb_spec 0 (fval (S754_finite false mx ex) - fval (S754_finite false my ey))).
  + apply decode_nn_ord. lia.
  + destruct (Z.ltb_spec (fval (S754_finite false mx ex) - fval (S754_finite false my ey)) 0);
      [lia |].
    replace (fval (S754_finite false mx ex) - fval (S754_finite false my ey)) with 0 by lia.
    split; reflexivity.
Qed.

(** Doubling. *)
Lemma mul2_nn (x : number) :
nn x = true ->
nn (Num.mul x (Num.of_Z 2)) = true /\
ord (Num.mul x (Num.of_Z 2)) = Z.min ORDINF (R (2 * fval x)).
Proof.
intros Hx. pose proof pow1024_pos as P. rewrite two_eq. unfold Num.mul.
destruct x as [sx | sx | | sx mx ex]; try discriminate.
- split; reflexivity.
- destruct sx; try discriminate.
  split; [reflexivity |]. cbn [SFmul ord xorb]. symmetry. apply min_ORDINF_big.
  change (fval (S754_infinity false)) with VINF. rewrite VINF_eq. lia.
- destruct sx; try discriminate.
  pose proof (nn_finite_bounds mx ex Hx) as (Hex & _).
  rewrite SFmul_pow2 by (assumption || lia).
  replace (Zpos mx * 2 ^ (ex + -51 + 52 + B)) with (2 * fval (S754_finite false mx ex)).
  + apply decode_nn_ord. pose proof (fval_nonneg (S754_finite false mx ex)). lia.
  + cbn [fval]. replace (ex + -51 + 52 + B) with (Z.succ (ex + B)) by lia.
    rewrite Z.pow_succ_r by (unfold B; lia). lia.
Qed.

(** Multiplying a well-formed finite number by one changes nothing. *)
Lemma mul1_id (s : bool) (m : positive) (e : Z) :
bounded Num.prec Num.emax m e = true ->
Num.mul (S754_finite s m e) (Num.of_Z 1) = S754_finite s m e.
Proof.
intros Hb. rewrite one_eq. unfold Num.mul.
rewrite SFmul_pow2 by (assumption || lia).
replace (e + -52 + 52 + B) with (e + B) by lia.
apply decode_bounded; assumption.
Qed.

Lemma mul1_nn (x : number) : nn x = true -> Num.mul x (Num.of_Z 1) = x.
Proof.
intros Hx. destruct x as [sx | sx | | sx mx ex]; try discriminate.
- destruct sx; reflexivity.
- destruct sx; try discriminate; reflexivity.
- destruct sx; try discriminate. apply mul1_id; assumption.
Qed.

(** [Math.floor] of a non-negative number rounds down to a multiple of one. *)
Lemma floor_nn (x : number) :
nn x = true ->
nn (Num.Math_floor x) = true /\
ord (Num.Math_floor x) = Z.min ORDINF (R (fl (fval x))).
Proof.
intros Hx. pose proof pow1024_pos as P.
destruct x as [sx | sx | | sx mx ex]; try discriminate.
- split; reflexivity.
- destruct sx; try discriminate. split; [reflexivity |].
  cbn [Num.Math_floor ord]. symmetry. apply min_ORDINF_big.
  change (fval (S754_infinity false)) with VINF. vm_compute. discriminate.
- destruct sx; try discriminate.
  pose proof (nn_finite_bounds mx ex Hx) as (Hex & _).
  cbn [Num.Math_floor fval]. destruct (Z.leb_spec 0 ex) as [He | He].
  + split; [assumption |]. rewrite fl_fval_nonneg_exp by assumption.
    rewrite ord_R by assumption. reflexivity.
  + rewrite fl_fval_neg_exp by (unfold B; lia).
    cbn [cond_Zopp]. unfold Num.of_Z.
    assert (Hn : 0 <= Zpos mx / 2 ^ (- ex))
      by (apply Z.div_pos; [lia | apply pow2_pos; lia]).
    destruct (Z.eq_dec (Zpos mx / 2 ^ (- ex)) 0) as [E | E].
    * rewrite E. split; reflexivity.
    * rewrite binary_normalize_pos by (unfold B; lia).
      change (0 + B) with B. apply decode_nn_ord.
      apply Z.mul_nonneg_nonneg; [lia | apply Z.pow_nonneg; lia].
Qed.

End NumFacts.

(** * Facts about the calculator *)

Lemma isValidAmount_nonneg (v : value) : isValidAmount v = nonneg_number v.
Proof.
  destruct v as [ | | b | x | s | l | p]; try reflexivity.
  destruct x as [s | s | | s m e]; try destruct s; reflexivity.
Qed.

Lemma invalid_amount_isValidAmount (v : value) :
  invalid_amount v = negb (isValidAmount v).
Proof.
  destruct v as [ | | b | x | s | l | p]; try reflexivity.
  destruct x as [s | s | | s m e]; try destruct s; reflexivity.
Qed.

Lemma calculatePoints_throws (v : value) :
  isValidAmount v = false -> ToString_throws v = false ->
  calculatePointsForTransaction v = Throw (InvalidAmount v).
Proof.
  intros H Hs. unfold calculatePointsForTransaction, ToString.
  rewrite invalid_amount_isValidAmount, H, Hs. reflexivity.
Qed.

Lemma calculatePoints_type_error (v : value) :
  isValidAmount v = false -> ToString_throws v = true ->
  calculatePointsForTransaction v = Throw TypeError.
Proof.
  intros H Hs. unfold calculatePointsForTransaction, ToString.
  rewrite invalid_amount_isValidAmount, H, Hs. reflexivity.
Qed.

Lemma ToString_throws_no_string (v : value) :
  ToString_throws v = true <-> no_string v.
Proof.
  induction v as [v Hv | items IH] using value_array_ind.
  - destruct v as [ | | b | x | s | l | p]; try discriminate Hv;
      cbn [ToString_throws];
      try (split; [intros H; discriminate H | intros H; inversion H]).
    destruct (lookup "toString" p) as [w |] eqn:E.
    + split; [intros _; exact (no_string_object p w E) | reflexivity].
    + split; [intros H; discriminate H |].
      intros H. inversion H as [props w Hl Hp |]. congruence.
  - cbn [ToString_throws]. rewrite existsb_exists. rewrite Forall_forall in IH.
    split.
    + intros (w & Hin & Hw). apply (no_string_array items w Hin).
      apply IH; assumption.
    + intros H. inversion H as [| items' w Hin Hw Heq]. subst items'.
      exists w. split; [exact Hin |]. apply IH; assumption.
Qed.

Lemma calculatePoints_raises (v : value) :
  isValidAmount v = false -> exists e, calculatePointsForTransaction v = Throw e.
Proof.
  intros H. destruct (ToString_throws v) eqn:Hs.
  - exists TypeError. apply calculatePoints_type_error; assumption.
  - exists (InvalidAmount v). apply calculatePoints_throws; assumption.
Qed.

Lemma calculatePoints_returns (v : value) :
  isValidAmount v = true -> exists p, calculatePointsForTransaction v = Return p.
Proof.
  intros H. unfold calculatePointsForTransaction.
  rewrite invalid_amount_isValidAmount, H. simpl. eexists. reflexivity.
Qed.

Module CalcFacts.

Import Round RoundFacts NumFacts.
Import CONSTANTS.REWARDS.

Lemma nn_50 : nn (Num.of_Z 50) = true.
Proof. reflexivity. Qed.

Lemma nn_100 : nn (Num.of_Z 100) = true.
Proof. reflexivity. Qed.

Lemma V100_eq : V100 = 2 * V50.
Proof. reflexivity. Qed.

Lemma V50_pos : 0 < V50.
Proof. reflexivity. Qed.

Lemma nn_not_nan (x : number) : nn x = true -> Num.isNaN x = false.
Proof. destruct x as [s | s | | s m e]; try discriminate; reflexivity. Qed.

Lemma nn_leb_zero (x : number) : nn x = true -> Num.leb zero x = true.
Proof.
intros H. apply leb_ord; [reflexivity | assumption |].
rewrite (ord_R x H). change (ord zero) with 0.
pose proof (R_mono 0 (fval x) ltac:(lia) (fval_nonneg x)). rewrite R_0 in H0.
unfold ORDINF. change (2 ^ 52) with 4503599627370496. lia.
Qed.

Lemma nn_not_invalid (x : number) : nn x = true -> invalid_amount (VNum x) = false.
Proof.
intros H. rewrite invalid_amount_isValidAmount. cbn [isValidAmount].
rewrite nn_not_nan, nn_leb_zero by assumption. reflexivity.
Qed.

(** A valid amount, as a datum: well formed, and accepted by the guard. *)
Lemma valid_nn (a : number) :
Num.wf a = true -> isValidAmount (VNum a) = true -> nn a = true.
Proof.
intros Hw Hv. destruct a as [s | s | | s m e]; try discriminate; try reflexivity.
- destruct s; [discriminate | reflexivity].
- destruct s; [discriminate | exact Hw].
Qed.

Lemma Math_min_100 (a : number) :
Num.isNaN a = false ->
Num.Math_min a HIGH_THRESHOLD = if Num.ltb HIGH_THRESHOLD a then HIGH_THRESHOLD else a.
Proof.
intros H. unfold Num.Math_min. rewrite H.
destruct a as [s | s | | s m e]; try discriminate; try destruct s; reflexivity.
Qed.

Lemma ltb_100 (a : number) :
nn a = true -> (Num.ltb HIGH_THRESHOLD a = true <-> V100 < fval a).
Proof. intros H. apply ltb_fval; [reflexivity | assumption]. Qed.

Lemma ltb_100_false (a : number) :
nn a = true -> fval a <= V100 -> Num.ltb HIGH_THRESHOLD a = false.
Proof.
intros H Hle. destruct (Num.ltb HIGH_THRESHOLD a) eqn:E; [| reflexivity].
apply ltb_100 in E; [lia | assumption].
Qed.

Lemma ltb_zero_neg (x : number) :
match x with
| S754_zero _ | S754_nan => True
| S754_infinity s | S754_finite s _ _ => s = true
end -> Num.ltb zero x = false.
Proof.
destruct x as [s | s | | s m e]; intros H; try subst s; reflexivity.
Qed.

(** Below the low threshold the difference [a - 50] is not positive. *)
Lemma low_tier_off (a : number) :
nn a = true -> fval a <= V50 -> Num.ltb zero (Num.sub a LOW_THRESHOLD) = false.
Proof.
intros Ha Hle. change LOW_THRESHOLD with (Num.of_Z 50). rewrite fifty_eq.
destruct a as [s | s | | s m e]; try discriminate Ha.
- reflexivity.
- destruct s; try discriminate Ha. exfalso.
  change (fval (S754_infinity false)) with VINF in Hle. revert Hle.
  vm_compute. intros H; apply H; reflexivity.
- destruct s; try discriminate Ha. unfold Num.sub.
  rewrite SFsub_finite by (assumption || reflexivity). cbv zeta.
  fold (Num.of_Z 50) in *. rewrite <- fifty_eq. fold V50.
  destruct (Z.ltb_spec 0 (fval (S754_finite false m e) - V50)); [lia |].
  destruct (Z.ltb_spec (fval (S754_finite false m e) - V50) 0); [| reflexivity].
  apply ltb_zero_neg.
  pose proof (decode_sign true (- (fval (S754_finite false m e) - V50))) as Hs.
  destruct (decode true _); auto.
Qed.

(** Above it the difference is positive, and well formed. *)
Lemma low_tier_on (a : number) :
nn a = true -> V50 < fval a -> Num.isFinite a = true ->
nn (Num.sub a LOW_THRESHOLD) = true /\
Num.ltb zero (Num.sub a LOW_THRESHOLD) = true /\
ord (Num.sub a LOW_THRESHOLD) = Z.min ORDINF (R (fval a - V50)).
Proof.
intros Ha Hlt Hf.
destruct (sub_nn a LOW_THRESHOLD Ha nn_50 eq_refl ltac:(change (V50 <= fval a); lia)) as [Hn Ho].
change (fval LOW_THRESHOLD) with V50 in Ho. split; [assumption |]. split; [| assumption].
unfold Num.ltb, SFltb. rewrite compare_ord by (reflexivity || assumption).
change (ord zero) with 0. rewrite Ho.
assert (0 < R (fval a - V50)).
{ clear Hn Ho. destruct a as [s | s | | s m e]; try discriminate Ha; try discriminate Hf.
  - change (fval (S754_zero s)) with 0 in Hlt. pose proof V50_pos. lia.
  - destruct s; try discriminate Ha.
    pose proof (fval_finite_bounds false m e Ha) as (Hb & Hm).
    pose proof (RNq_bounds (fval (S754_finite false m e) - V50) ltac:(lia)) as (HE & Hq & _ & Hpos).
    assert (0 < fst (RNq (fval (S754_finite false m e) - V50))).
    { apply Hpos; [lia |].
      rewrite Zminus_mod, Hm. reflexivity. }
    unfold R, emin64. pose proof (pow2_pos 52 ltac:(lia)). nia. }
assert (0 < Z.min ORDINF (R (fval a - V50))).
{ unfold ORDINF. change (2 ^ 52) with 4503599627370496. lia. }
destruct (Z.compare_spec 0 (Z.min ORDINF (R (fval a - V50)))); try lia; reflexivity.
Qed.

Lemma add_zero_floor (x : number) :
nn x = true -> Num.ltb zero x = true ->
Num.add zero (Num.Math_floor x) = Num.Math_floor x.
Proof.
intros Hx Hp. destruct x as [s | s | | s m e]; try discriminate Hx; try discriminate Hp.
- destruct s; try discriminate Hx. reflexivity.
- destruct s; try discriminate Hx. cbn [Num.Math_floor].
  destruct (Z.leb_spec 0 e); [reflexivity |].
  cbn [cond_Zopp]. unfold Num.of_Z.
  assert (Hn : 0 <= Zpos m / 2 ^ (- e)) by (apply Z.div_pos; [lia | apply pow2_pos; lia]).
  destruct (Zpos m / 2 ^ (- e)) as [| p | p]; try lia; [reflexivity |].
  cbn [binary_normalize]. rewrite binary_round_decode by (unfold B; lia).
  pose proof (decode_sign false (Zpos p * 2 ^ (0 + B))) as Hs.
  destruct (decode false _); try subst; reflexivity.
Qed.

Lemma add_zero_add (y : number) :
Num.add (Num.add zero y) (Num.of_Z 50) = Num.add y (Num.of_Z 50).
Proof.
destruct y as [s | s | | s m e]; try destruct s; reflexivity.
Qed.

Lemma mul_comm (x y : number) : Num.mul x y = Num.mul y x.
Proof.
unfold Num.mul.
destruct x as [sx | sx | | sx mx ex], y as [sy | sy | | sy my ey]; cbn [SFmul];
  try rewrite (xorb_comm sx sy); try reflexivity.
rewrite (Pos.mul_comm mx my), (Z.add_comm ex ey). reflexivity.
Qed.

(** *** The three tiers of [calculatePointsForTransaction] *)

Lemma points_low (a : number) :
nn a = true -> fval a <= V50 ->
calculatePointsForTransaction (VNum a) = Return zero.
Proof.
intros Ha Hle. unfold calculatePointsForTransaction.
rewrite nn_not_invalid by assumption. cbn [num_of].
pose proof V50_pos.
rewrite (ltb_100_false a Ha) by (rewrite V100_eq; lia).
rewrite Math_min_100 by (apply nn_not_nan; assumption).
rewrite (ltb_100_false a Ha) by (rewrite V100_eq; lia).
rewrite low_tier_off by assumption. reflexivity.
Qed.

Lemma points_mid (a : number) :
nn a = true -> V50 < fval a -> fval a <= V100 ->
calculatePointsForTransaction (VNum a)
= Return (Num.Math_floor (Num.sub a LOW_THRESHOLD)).
Proof.
intros Ha Hlo Hhi. unfold calculatePointsForTransaction.
rewrite nn_not_invalid by assumption. cbn [num_of].
rewrite (ltb_100_false a Ha) by assumption.
rewrite Math_min_100 by (apply nn_not_nan; assumption).
rewrite (ltb_100_false a Ha) by assumption.
assert (Hf : Num.isFinite a = true).
{ destruct a as [s | s | | s m e]; try discriminate Ha; try reflexivity.
  destruct s; try discriminate Ha. exfalso.
  change (fval (S754_infinity false)) with VINF in Hhi. revert Hhi.
  vm_compute. intros H; apply H; reflexivity. }
destruct (low_tier_on a Ha Hlo Hf) as (Hn & Hp & _).
rewrite Hp. change LOW_MULTIPLIER with (Num.of_Z 1).
rewrite mul1_nn by assumption.
rewrite add_zero_floor by assumption. reflexivity.
Qed.

Lemma points_high (a : number) :
Num.isNaN a = false -> Num.ltb HIGH_THRESHOLD a = true ->
invalid_amount (VNum a) = false ->
calculatePointsForTransaction (VNum a)
= Return (Num.add (highPoints a) (Num.of_Z 50)).
Proof.
intros Hn Hlt Hv. unfold calculatePointsForTransaction.
rewrite Hv. cbn [num_of]. rewrite Hlt.
rewrite Math_min_100 by assumption. rewrite Hlt.
change (Num.sub HIGH_THRESHOLD LOW_THRESHOLD) with (Num.of_Z 50).
change (Num.ltb zero (Num.of_Z 50)) with true. cbv iota.
change (Num.Math_floor (Num.mul (Num.of_Z 50) LOW_MULTIPLIER)) with (Num.of_Z 50).
fold (highPoints a). rewrite add_zero_add. reflexivity.
Qed.


(** *** Monotonicity of the operations *)

Lemma leb_trans (x y z : number) :
nn x = true -> nn y = true -> nn z = true ->
Num.leb x y = true -> Num.leb y z = true -> Num.leb x z = true.
Proof.
intros Hx Hy Hz H1 H2. apply leb_fval; try assumption.
apply leb_fval in H1; try assumption. apply leb_fval in H2; try assumption. lia.
Qed.

Lemma sub_mono (x y c : number) :
nn x = true -> nn y = true -> nn c = true -> Num.isFinite c = true ->
fval c <= fval x -> fval x <= fval y ->
nn (Num.sub x c) = true /\ nn (Num.sub y c) = true /\
Num.leb (Num.sub x c) (Num.sub y c) = true.
Proof.
intros Hx Hy Hc Hf H1 H2.
destruct (sub_nn x c Hx Hc Hf H1) as [Nx Ox].
destruct (sub_nn y c Hy Hc Hf ltac:(lia)) as [Ny Oy].
repeat split; try assumption.
apply (leb_of_R _ _ _ _ Nx Ny Ox Oy); lia.
Qed.

Lemma mul2_mono (x y : number) :
nn x = true -> nn y = true -> Num.leb x y = true ->
nn (Num.mul x (Num.of_Z 2)) = true /\ nn (Num.mul y (Num.of_Z 2)) = true /\
Num.leb (Num.mul x (Num.of_Z 2)) (Num.mul y (Num.of_Z 2)) = true.
Proof.
intros Hx Hy H. apply leb_fval in H; try assumption.
destruct (mul2_nn x Hx) as [Nx Ox]. destruct (mul2_nn y Hy) as [Ny Oy].
repeat split; try assumption.
pose proof (fval_nonneg x).
apply (leb_of_R _ _ _ _ Nx Ny Ox Oy); lia.
Qed.

Lemma floor_mono (x y : number) :
nn x = true -> nn y = true -> Num.leb x y = true ->
nn (Num.Math_floor x) = true /\ nn (Num.Math_floor y) = true /\
Num.leb (Num.Math_floor x) (Num.Math_floor y) = true.
Proof.
intros Hx Hy H. apply leb_fval in H; try assumption.
destruct (floor_nn x Hx) as [Nx Ox]. destruct (floor_nn y Hy) as [Ny Oy].
repeat split; try assumption.
apply (leb_of_R _ _ _ _ Nx Ny Ox Oy).
- apply fl_nonneg, fval_nonneg.
- apply fl_mono; assumption.
Qed.

Lemma add_mono (x y c : number) :
nn x = true -> nn y = true -> nn c = true -> Num.leb x y = true ->
nn (Num.add x c) = true /\ nn (Num.add y c) = true /\
Num.leb (Num.add x c) (Num.add y c) = true.
Proof.
intros Hx Hy Hc H. apply leb_fval in H; try assumption.
destruct (add_nn x c Hx Hc) as [Nx Ox]. destruct (add_nn y c Hy Hc) as [Ny Oy].
repeat split; try assumption.
pose proof (fval_nonneg x). pose proof (fval_nonneg c).
apply (leb_of_R _ _ _ _ Nx Ny Ox Oy); lia.
Qed.

(** Adding to a non-negative number does not go below the addend. *)
Lemma add_ge_r (x c : number) :
nn x = true -> nn c = true ->
nn (Num.add x c) = true /\ Num.leb c (Num.add x c) = true.
Proof.
intros Hx Hc. destruct (add_nn x c Hx Hc) as [Nx Ox].
split; [assumption |].
pose proof (fval_nonneg x). pose proof (fval_nonneg c).
apply (leb_of_R _ _ _ _ Hc Nx (ord_R c Hc) Ox); lia.
Qed.

Lemma highPoints_nn (a : number) :
nn a = true -> V100 <= fval a -> nn (highPoints a) = true.
Proof.
intros Ha H. unfold highPoints.
destruct (sub_nn a HIGH_THRESHOLD Ha nn_100 eq_refl H) as [N1 _].
destruct (mul2_nn _ N1) as [N2 _].
destruct (floor_nn _ N2) as [N3 _]. exact N3.
Qed.

Lemma highPoints_mono (a b : number) :
nn a = true -> nn b = true -> V100 <= fval a -> fval a <= fval b ->
Num.leb (highPoints a) (highPoints b) = true.
Proof.
intros Ha Hb H1 H2. unfold highPoints.
destruct (sub_mono a b HIGH_THRESHOLD Ha Hb nn_100 eq_refl H1 H2) as (N1 & N1' & L1).
destruct (mul2_mono _ _ N1 N1' L1) as (N2 & N2' & L2).
destruct (floor_mono _ _ N2 N2' L2) as (N3 & N3' & L3). exact L3.
Qed.


(** *** Integers *)

Lemma of_Z_small (n : Z) :
0 <= n -> n < 2 ^ 53 -> Num.to_Z (Num.of_Z n) = Some n.
Proof.
intros H0 Hlt. destruct (Z.eq_dec n 0) as [-> | Hne]; [reflexivity |].
assert (Hn : 0 < n) by lia.
unfold Num.of_Z. rewrite binary_normalize_pos by (unfold B; lia).
pose proof (dig_bounds n Hn) as [Hlo Hhi]. pose proof (dig_pos n Hn) as Hd1.
pose proof (dig_le n 53 Hn Hlt ltac:(lia)) as Hd.
unfold decode, RNq.
rewrite dig_shift by (unfold B; lia).
replace (dig n + (0 + B) - B) with (dig n) by lia.
rewrite fexp64_eq. replace (Z.max (dig n - 53) (-1074)) with (dig n - 53) by lia.
rewrite rne_exact by (unfold B; lia).
replace (0 + B - (dig n - 53 + B)) with (53 - dig n) by lia.
set (q := n * 2 ^ (53 - dig n)).
pose proof (pow2_pos (53 - dig n) ltac:(lia)) as Pp.
assert (Hq52 : 2 ^ 52 <= q).
{ unfold q. replace 52 with ((dig n - 1) + (53 - dig n)) by lia.
  rewrite Z.pow_add_r by lia. nia. }
assert (Hq53 : q < 2 ^ 53).
{ unfold q. replace 53 with (dig n + (53 - dig n)) at 2 by lia.
  rewrite Z.pow_add_r by lia. nia. }
assert (Hq0 : 0 < q) by (pose proof (pow2_pos 52); lia).
destruct (stage2_RNq q (dig n - 53) Hq0 ltac:(lia) ltac:(lia) ltac:(intros; assumption))
  as [Hs2 _].
rewrite Hs2. destruct (Z.eqb_spec q (2 ^ 53)) as [E | _]; [lia |].
unfold build. cbn [fst snd].
destruct q as [| p | p] eqn:Eq; try lia.
change (Num.emax - Num.prec) with 971.
destruct (Z.leb_spec (dig n - 53) 971); [| lia].
cbn [Num.to_Z cond_Zopp].
destruct (Z.leb_spec 0 (dig n - 53)).
- assert (Hd53 : dig n = 53) by lia. f_equal. rewrite <- Eq. unfold q.
  rewrite Hd53. change (2 ^ (53 - 53)) with 1. lia.
- rewrite <- Eq. unfold q. replace (- (dig n - 53)) with (53 - dig n) by lia.
  rewrite Z.mod_mul by lia. cbn [Z.eqb].
  rewrite Z.div_mul by lia. reflexivity.
Qed.




End CalcFacts.

(** * The properties *)

Import Round RoundFacts NumFacts CalcFacts.
Import CONSTANTS.REWARDS.

(** ** Validity of an amount *)

(** C2, as amended.  [isValidAmount] accepts exactly the numbers that are
    neither NaN nor negative, which includes [+Infinity];
    [calculatePointsForTransaction] returns on exactly those values and
    throws on every other one: the invalid-amount error, carrying the
    value, when the value has a string for the message, and the TypeError
    of the conversion when it has none. *)
Theorem isValidAmount_characterised (v : value) :
  (isValidAmount v = true <-> nonneg_number v = true) /\
  (nonneg_number v = true ->
   exists p, calculatePointsForTransaction v = Return p) /\
  (nonneg_number v = false -> ~ no_string v ->
   calculatePointsForTransaction v = Throw (InvalidAmount v)) /\
  (nonneg_number v = false -> no_string v ->
   calculatePointsForTransaction v = Throw TypeError).
Proof.
  rewrite <- isValidAmount_nonneg. split; [tauto |]. split; [| split].
  - apply calculatePoints_returns.
  - intros Hv Hs. apply calculatePoints_throws; [exact Hv |].
    destruct (ToString_throws v) eqn:E; [| reflexivity].
    exfalso. apply Hs. apply ToString_throws_no_string. exact E.
  - intros Hv Hs. apply calculatePoints_type_error; [exact Hv |].
    apply ToString_throws_no_string. exact Hs.
Qed.

Lemma isValidAmount_characterised_witness :
  nonneg_number (VNum (Num.of_Z 120)) = true /\
  (exists p, calculatePointsForTransaction (VNum (Num.of_Z 120)) = Return p) /\
  nonneg_number (VStr "x") = false /\ ~ no_string (VStr "x") /\
  calculatePointsForTransaction (VStr "x") = Throw (InvalidAmount (VStr "x")) /\
  nonneg_number (VObj [("toString"%string, VNum (Num.of_Z 1))]) = false /\
  no_string (VObj [("toString"%string, VNum (Num.of_Z 1))]) /\
  calculatePointsForTransaction (VObj [("toString"%string, VNum (Num.of_Z 1))])
  = Throw TypeError.
Proof.
  assert (Hx : ~ no_string (VStr "x")) by (intros H; inversion H).
  assert (Ho : no_string (VObj [("toString"%string, VNum (Num.of_Z 1))]))
    by (apply (no_string_object _ (VNum (Num.of_Z 1))); reflexivity).
  split; [reflexivity |]. split.
  - apply (proj1 (proj2 (isValidAmount_characterised (VNum (Num.of_Z 120))))).
    reflexivity.
  - split; [reflexivity |]. split; [exact Hx |]. split.
    + apply (proj1 (proj2 (proj2 (isValidAmount_characterised (VStr "x")))));
        [reflexivity | exact Hx].
    + split; [reflexivity |]. split; [exact Ho |].
      apply (proj2 (proj2 (proj2 (isValidAmount_characterised
                                    (VObj [("toString"%string, VNum (Num.of_Z 1))])))));
        [reflexivity | exact Ho].
Defined.

(** The values without a string are few: an array of plain numbers and
    strings has one, an array holding an object with its own [toString]
    has none. *)
Example points_of_array_without_string :
  calculatePointsForTransaction
    (VArr [VNum (Num.of_Z 1); VArr [VObj [("toString"%string, VNull)]]])
  = Throw TypeError.
Proof. reflexivity. Qed.

(** C2 as stated fails at [+Infinity]: it is not a finite number, yet
    [isValidAmount] accepts it and [calculatePointsForTransaction] returns
    on it. *)
Lemma infinity_is_accepted :
  finite_nonneg_number (VNum Num.Infinity) = false /\
  isValidAmount (VNum Num.Infinity) = true /\
  calculatePointsForTransaction (VNum Num.Infinity) = Return Num.Infinity.
Proof. repeat split. Qed.

(** ** The literal scenarios of a single transaction *)

(** The number the literal [999999.99] denotes is the binary64 value
    nearest to the decimal: it is [m * 2^-33] and differs from
    99999999/100 by less than half a unit in the last place. *)
Lemma amount_999999_99_nearest :
  amount_999999_99 = S754_finite false 8589934506100654 (-33) /\
  2 * Z.abs (100 * 8589934506100654 - 99999999 * 2 ^ 33) <= 100.
Proof. split; [reflexivity | vm_compute; discriminate]. Qed.

(** C3, as amended: the points for 999999.99 are 1999849, that is
    [floor(2 * 999899.99) + 50]. *)
Theorem points_of_999999_99 :
  calculatePointsForTransaction (VNum amount_999999_99) = Return (Num.of_Z 1999849).
Proof. reflexivity. Qed.

(** C3 as stated fails: the result is not 1999899. *)
Lemma points_of_999999_99_not_1999899 :
  calculatePointsForTransaction (VNum amount_999999_99) <> Return (Num.of_Z 1999899).
Proof. intros H. vm_compute in H. discriminate H. Qed.

Example points_120 :
  calculatePointsForTransaction (VNum (Num.of_Z 120)) = Return (Num.of_Z 90).
Proof. reflexivity. Qed.

Example points_75 :
  calculatePointsForTransaction (VNum (Num.of_Z 75)) = Return (Num.of_Z 25).
Proof. reflexivity. Qed.

Example points_125_75 :
  calculatePointsForTransaction (VNum (Num.decimal 12575 2)) = Return (Num.of_Z 101).
Proof. reflexivity. Qed.

(** ** The tiers *)

Lemma valid_amount_nn (a : number) :
  Num.wf a = true -> Num.leb zero a = true -> nn a = true.
Proof.
  intros Hw Hv. apply valid_nn; [assumption |].
  cbn [isValidAmount]. rewrite Hv.
  destruct a; try discriminate; reflexivity.
Qed.

(** C4.  For a well-formed amount [a >= 0], with all operations those of
    JavaScript numbers: no points up to 50; [floor(a - 50)] above 50 and up
    to 100; [floor(2 * (a - 100)) + 50] above 100, where the floor of the
    high tier is taken before the 50 points of the low tier are added. *)
Theorem points_by_tier (a : number) :
  Num.wf a = true -> Num.isFinite a = true -> Num.leb zero a = true ->
  (Num.leb a (Num.of_Z 50) = true ->
   calculatePointsForTransaction (VNum a) = Return zero) /\
  (Num.ltb (Num.of_Z 50) a = true -> Num.leb a (Num.of_Z 100) = true ->
   calculatePointsForTransaction (VNum a)
   = Return (Num.Math_floor (Num.sub a (Num.of_Z 50)))) /\
  (Num.ltb (Num.of_Z 100) a = true ->
   calculatePointsForTransaction (VNum a)
   = Return (Num.add
               (Num.Math_floor (Num.mul (Num.of_Z 2) (Num.sub a (Num.of_Z 100))))
               (Num.of_Z 50))).
Proof.
  intros Hw Hf Hv. pose proof (valid_amount_nn a Hw Hv) as Ha.
  split; [| split].
  - intros H. apply points_low; [assumption |].
    apply (leb_fval a (Num.of_Z 50) Ha nn_50). exact H.
  - intros H1 H2. apply points_mid; [assumption | |].
    + apply (ltb_fval (Num.of_Z 50) a nn_50 Ha). exact H1.
    + apply (leb_fval a (Num.of_Z 100) Ha nn_100). exact H2.
  - intros H. rewrite mul_comm. apply points_high.
    + apply nn_not_nan; assumption.
    + exact H.
    + apply nn_not_invalid; assumption.
Qed.

Lemma points_by_tier_witness :
  calculatePointsForTransaction (VNum (Num.of_Z 30)) = Return zero /\
  calculatePointsForTransaction (VNum (Num.of_Z 75))
  = Return (Num.Math_floor (Num.sub (Num.of_Z 75) (Num.of_Z 50))) /\
  calculatePointsForTransaction (VNum (Num.decimal 12575 2))
  = Return (Num.add
              (Num.Math_floor
                 (Num.mul (Num.of_Z 2) (Num.sub (Num.decimal 12575 2) (Num.of_Z 100))))
              (Num.of_Z 50)).
Proof.
  split; [| split].
  - apply (proj1 (points_by_tier (Num.of_Z 30) eq_refl eq_refl eq_refl)). reflexivity.
  - apply (proj1 (proj2 (points_by_tier (Num.of_Z 75) eq_refl eq_refl eq_refl)));
      reflexivity.
  - apply (proj2 (proj2 (points_by_tier (Num.decimal 12575 2) eq_refl eq_refl eq_refl))).
    reflexivity.
Defined.

(** ** The breakdown *)

Lemma breakdown_low (a : number) :
  nn a = true -> fval a <= V50 ->
  getPointsBreakdown (VNum a) = {| highTier := zero; lowTier := zero |}.
Proof.
  intros Ha Hle. unfold getPointsBreakdown.
  rewrite nn_not_invalid by assumption. cbn [num_of].
  pose proof V50_pos.
  rewrite (ltb_100_false a Ha) by (rewrite V100_eq; lia).
  rewrite Math_min_100 by (apply nn_not_nan; assumption).
  rewrite (ltb_100_false a Ha) by (rewrite V100_eq; lia).
  rewrite low_tier_off by assumption. reflexivity.
Qed.

Lemma breakdown_mid (a : number) :
  nn a = true -> V50 < fval a -> fval a <= V100 ->
  getPointsBreakdown (VNum a)
  = {| highTier := zero; lowTier := Num.Math_floor (Num.sub a LOW_THRESHOLD) |} /\
  nn (Num.sub a LOW_THRESHOLD) = true /\
  Num.ltb zero (Num.sub a LOW_THRESHOLD) = true /\
  Num.leb (Num.sub a LOW_THRESHOLD) (Num.of_Z 50) = true.
Proof.
  intros Ha Hlo Hhi.
  assert (Hf : Num.isFinite a = true).
  { destruct a as [s | s | | s m e]; try discriminate Ha; try reflexivity.
    destruct s; try discriminate Ha. exfalso.
    change (fval (S754_infinity false)) with VINF in Hhi. revert Hhi.
    vm_compute. intros H; apply H; reflexivity. }
  destruct (low_tier_on a Ha Hlo Hf) as (Hn & Hp & Ho).
  split; [| split; [assumption | split; [assumption |]]].
  - unfold getPointsBreakdown.
    rewrite nn_not_invalid by assumption. cbn [num_of].
    rewrite (ltb_100_false a Ha) by assumption.
    rewrite Math_min_100 by (apply nn_not_nan; assumption).
    rewrite (ltb_100_false a Ha) by assumption.
    rewrite Hp. change LOW_MULTIPLIER with (Num.of_Z 1).
    rewrite mul1_nn by assumption. reflexivity.
  - apply (leb_of_R _ _ _ _ Hn nn_50 Ho (ord_R _ nn_50)).
    + lia.
    + change (fval (Num.of_Z 50)) with V50. rewrite V100_eq in Hhi. lia.
Qed.

Lemma breakdown_high (a : number) :
  Num.isNaN a = false -> Num.ltb HIGH_THRESHOLD a = true ->
  invalid_amount (VNum a) = false ->
  getPointsBreakdown (VNum a)
  = {| highTier := highPoints a; lowTier := Num.of_Z 50 |}.
Proof.
  intros Hn Hlt Hv. unfold getPointsBreakdown.
  rewrite Hv. cbn [num_of]. rewrite Hlt.
  rewrite Math_min_100 by assumption. rewrite Hlt.
  change (Num.sub HIGH_THRESHOLD LOW_THRESHOLD) with (Num.of_Z 50).
  change (Num.ltb zero (Num.of_Z 50)) with true. cbv iota.
  change (Num.Math_floor (Num.mul (Num.of_Z 50) LOW_MULTIPLIER)) with (Num.of_Z 50).
  reflexivity.
Qed.




(** ** Monotonicity *)

Lemma points_nn (a : number) :
  nn a = true ->
  exists p, calculatePointsForTransaction (VNum a) = Return p /\ nn p = true.
Proof.
  intros Ha.
  destruct (Z_le_gt_dec (fval a) V50) as [H1 | H1].
  - exists zero. split; [apply points_low; assumption | reflexivity].
  - destruct (Z_le_gt_dec (fval a) V100) as [H2 | H2].
    + destruct (breakdown_mid a Ha ltac:(lia) H2) as (_ & Hn & _).
      eexists. split; [apply points_mid; assumption || lia |].
      apply floor_nn; assumption.
    + eexists. split.
      * apply points_high; [apply nn_not_nan; assumption | | apply nn_not_invalid; assumption].
        apply ltb_100; [assumption | lia].
      * apply add_nn; [apply highPoints_nn; [assumption | lia] | reflexivity].
Qed.

(** C8.  For well-formed amounts [a <= b] that [isValidAmount] accepts (the
    finite ones among them in particular), the points of [a] are at least
    zero and at most the points of [b]. *)
Theorem points_monotone (a b : number) :
  Num.wf a = true -> Num.wf b = true ->
  isValidAmount (VNum a) = true -> isValidAmount (VNum b) = true ->
  Num.leb a b = true ->
  exists pa pb,
    calculatePointsForTransaction (VNum a) = Return pa /\
    calculatePointsForTransaction (VNum b) = Return pb /\
    Num.leb zero pa = true /\ Num.leb pa pb = true.
Proof.
  intros Hwa Hwb Hva Hvb Hle.
  pose proof (valid_nn a Hwa Hva) as Ha. pose proof (valid_nn b Hwb Hvb) as Hb.
  apply (leb_fval a b Ha Hb) in Hle.
  destruct (Z_le_gt_dec (fval a) V50) as [A1 | A1].
  { destruct (points_nn b Hb) as (pb & Epb & Npb).
    exists zero, pb. rewrite points_low by assumption.
    repeat split; try assumption; apply nn_leb_zero; assumption || reflexivity. }
  destruct (Z_le_gt_dec (fval a) V100) as [A2 | A2].
  - destruct (breakdown_mid a Ha ltac:(lia) A2) as (_ & Na & _ & La).
    destruct (floor_nn _ Na) as [Nfa _].
    destruct (Z_le_gt_dec (fval b) V100) as [B2 | B2].
    + exists (Num.Math_floor (Num.sub a LOW_THRESHOLD)),
             (Num.Math_floor (Num.sub b LOW_THRESHOLD)).
      rewrite !points_mid by (assumption || lia).
      split; [reflexivity |]. split; [reflexivity |].
      split; [apply nn_leb_zero; assumption |].
      destruct (sub_mono a b LOW_THRESHOLD Ha Hb nn_50 eq_refl
                  ltac:(change (V50 <= fval a); lia) Hle) as (N1 & N1' & L1).
      apply (floor_mono _ _ N1 N1' L1).
    + exists (Num.Math_floor (Num.sub a LOW_THRESHOLD)),
             (Num.add (highPoints b) (Num.of_Z 50)).
      rewrite points_mid by (assumption || lia).
      rewrite points_high
        by ((apply nn_not_nan; assumption) || (apply nn_not_invalid; assumption)
            || (apply ltb_100; [assumption | lia])).
      split; [reflexivity |]. split; [reflexivity |].
      split; [apply nn_leb_zero; assumption |].
      destruct (floor_mono _ _ Na nn_50 La) as (_ & _ & L1).
      change (Num.Math_floor (Num.of_Z 50)) with (Num.of_Z 50) in L1.
      destruct (add_ge_r (highPoints b) (Num.of_Z 50)
                  (highPoints_nn b Hb ltac:(lia)) nn_50) as [N2 L2].
      apply (leb_trans _ (Num.of_Z 50) _ Nfa nn_50 N2 L1 L2).
  - exists (Num.add (highPoints a) (Num.of_Z 50)),
           (Num.add (highPoints b) (Num.of_Z 50)).
    assert (Hla : Num.ltb HIGH_THRESHOLD a = true) by (apply ltb_100; [assumption | lia]).
    assert (Hlb : Num.ltb HIGH_THRESHOLD b = true) by (apply ltb_100; [assumption | lia]).
    rewrite !points_high
      by (assumption || (apply nn_not_nan; assumption) || (apply nn_not_invalid; assumption)).
    pose proof (highPoints_nn a Ha ltac:(lia)) as Nha.
    pose proof (highPoints_nn b Hb ltac:(lia)) as Nhb.
    pose proof (highPoints_mono a b Ha Hb ltac:(lia) Hle) as Lh.
    destruct (add_mono _ _ (Num.of_Z 50) Nha Nhb nn_50 Lh) as (N1 & N2 & L).
    split; [reflexivity |]. split; [reflexivity |].
    split; [apply nn_leb_zero; assumption | assumption].
Qed.

Lemma points_monotone_witness :
  exists pa pb,
    calculatePointsForTransaction (VNum (Num.of_Z 75)) = Return pa /\
    calculatePointsForTransaction (VNum (Num.decimal 12575 2)) = Return pb /\
    Num.leb zero pa = true /\ Num.leb pa pb = true.
Proof.
  exact (points_monotone (Num.of_Z 75) (Num.decimal 12575 2)
           eq_refl eq_refl eq_refl eq_refl eq_refl).
Defined.

(** ** Association lists *)

Lemma lookup_assign {A : Type} (k k' : string) (a : A) (l : list (string * A)) :
  lookup k (assign k' a l) = if String.eqb k k' then Some a else lookup k l.
Proof.
  induction l as [| [k0 a0] l IH]; cbn [assign lookup].
  - reflexivity.
  - destruct (String.eqb_spec k' k0) as [E | E]; cbn [lookup].
    + subst k0. destruct (String.eqb k k'); reflexivity.
    + rewrite IH. destruct (String.eqb_spec k k0) as [E0 | E0]; [| reflexivity].
      subst k0. destruct (String.eqb_spec k k') as [E1 | E1]; [| reflexivity].
      subst k'. contradiction.
Qed.

(** ** The batch total *)

Lemma skipped_isValidAmount (t : value) :
  skipped t = negb (isValidAmount (amount_of t)).
Proof.
  destruct t as [ | | b | x | s | l | p]; try reflexivity.
  unfold skipped. destruct (amount_of (VObj p)) as [ | | b | x | s | l | q]; try reflexivity.
  cbn [isValidAmount]. destruct x as [s | s | | s m e]; try destruct s; reflexivity.
Qed.

Lemma total_step_spec (acc : number) (t : value) :
  total_step acc t = if skipped t then acc else Num.add acc (points_of t).
Proof.
  rewrite skipped_isValidAmount. unfold total_step, total_body, points_of.
  destruct t as [ | | b | x | s | l | p]; try reflexivity.
  - destruct b; reflexivity.
  - destruct x as [s | s | | s m e]; reflexivity.
  - destruct s; reflexivity.
  - cbn [truthy negb]. unfold amount_of. cbn [get].
    destruct (lookup "amount" p) as [w |]; cbn [bind try_catch]; [| reflexivity].
    destruct w as [ | | b | x | s | l | q]; try reflexivity.
    cbn [typeof_number negb].
    destruct (isValidAmount (VNum x)) eqn:Hv.
    + destruct (calculatePoints_returns _ Hv) as [pts Hp]. rewrite Hp. reflexivity.
    + rewrite (calculatePoints_throws _ Hv eq_refl). reflexivity.
Qed.

Lemma fold_total_step (items : list value) (acc : number) :
  fold_left total_step items acc
  = fold_left Num.add (map points_of (filter (fun t => negb (skipped t)) items)) acc.
Proof.
  revert acc. induction items as [| t items IH]; intros acc; [reflexivity |].
  cbn [fold_left filter]. rewrite IH, total_step_spec.
  destruct (skipped t); reflexivity.
Qed.

Lemma filter_all_skipped (items : list value) :
  forallb skipped items = true -> filter (fun t => negb (skipped t)) items = [].
Proof.
  induction items as [| t items IH]; [reflexivity |].
  cbn [forallb filter]. intros H. apply andb_prop in H as [H1 H2].
  rewrite H1. cbn [negb]. apply IH; assumption.
Qed.

(** C5.  [calculateTotalPoints] throws exactly when its argument is not an
    array; on an array it returns the sum of the points of the elements
    that are not left out (left out: [null], an amount that is not a
    number, an amount that is NaN or negative); the scenario gives 145; an
    empty array and an array of left-out elements give 0. *)
Theorem total_is_sum_of_valid (transactions : value) :
  (raises (calculateTotalPoints transactions) = true
   <-> Array_isArray transactions = false) /\
  (Array_isArray transactions = false ->
   calculateTotalPoints transactions = Throw InvalidInput) /\
  (forall items, transactions = VArr items ->
     calculateTotalPoints transactions = Return (sum_valid_points items)) /\
  (forall items, transactions = VArr items -> forallb skipped items = true ->
     calculateTotalPoints transactions = Return zero) /\
  calculateTotalPoints (VArr []) = Return zero /\
  calculateTotalPoints scenario_total = Return (Num.of_Z 145).
Proof.
  assert (Hsum : forall items,
             calculateTotalPoints (VArr items) = Return (sum_valid_points items)).
  { intros items. unfold sum_valid_points. rewrite <- fold_total_step.
    destruct items; reflexivity. }
  split; [| split; [| split; [| split; [| split]]]].
  - destruct transactions; cbn; try (split; reflexivity).
    destruct items; cbn; split; discriminate.
  - destruct transactions; try reflexivity. discriminate.
  - intros items ->. apply Hsum.
  - intros items -> Hall. rewrite Hsum. unfold sum_valid_points.
    rewrite filter_all_skipped by assumption. reflexivity.
  - reflexivity.
  - reflexivity.
Qed.

Lemma total_is_sum_of_valid_witness :
  calculateTotalPoints (VStr "not an array") = Throw InvalidInput /\
  calculateTotalPoints scenario_total
  = Return (sum_valid_points
              [with_amount (VNum (Num.of_Z 120)); with_amount (VStr "invalid");
               with_amount (VNum (Num.of_Z 75)); with_amount (VNum (Num.of_Z (-10)));
               VNull; with_amount (VNum (Num.of_Z 80))]) /\
  calculateTotalPoints (VArr [VNull; with_amount (VStr "invalid")]) = Return zero.
Proof.
  split; [| split].
  - apply (proj1 (proj2 (total_is_sum_of_valid (VStr "not an array")))). reflexivity.
  - apply (proj1 (proj2 (proj2 (total_is_sum_of_valid scenario_total)))). reflexivity.
  - apply (proj1 (proj2 (proj2 (proj2
             (total_is_sum_of_valid (VArr [VNull; with_amount (VStr "invalid")])))))
             [VNull; with_amount (VStr "invalid")]); reflexivity.
Defined.

(** ** The monthly grouping *)

Lemma assign_assign {A : Type} (k : string) (a b : A) (l : list (string * A)) :
  assign k a (assign k b l) = assign k a l.
Proof.
  induction l as [| [k0 a0] l IH]; cbn [assign].
  - rewrite String.eqb_refl. reflexivity.
  - destruct (String.eqb_spec k k0) as [E | E]; cbn [assign].
    + rewrite String.eqb_refl. reflexivity.
    + destruct (String.eqb_spec k k0); [contradiction |]. rewrite IH. reflexivity.
Qed.

Lemma MonthFromTime_range (t : Z) : 0 <= Date.MonthFromTime t <= 11.
Proof.
  unfold Date.MonthFromTime. cbv zeta.
  generalize (Date.DayWithinYear t), (Date.leap_days (Date.YearFromTime t)).
  intros d leap.
  repeat match goal with
         | |- context [if ?c then _ else _] => destruct c
         end; lia.
Qed.

Lemma keys_of_four_digit_years :
  forallb
    (fun y => forallb (fun m => well_formed_key (string_of_Z y ++ "-" ++ two_digits m))
                      month_numbers)
    four_digit_years = true.
Proof. vm_compute. reflexivity. Qed.

Lemma In_numbers_from (first n x : Z) :
  first <= x < first + n -> In x (Pagination.numbers_from first n).
Proof.
  intros H. unfold Pagination.numbers_from. apply in_map_iff.
  exists (Z.to_nat (x - first)). split; [lia |].
  apply in_seq. lia.
Qed.

(** The key of a date whose local year has four digits has the form
    [YYYY-MM]. *)
Lemma key_well_formed (LocalTZA : Z -> Z) (t : Z) :
  1000 <= getFullYear LocalTZA t <= 9999 ->
  well_formed_key
    (string_of_Z (getFullYear LocalTZA t) ++ "-"
     ++ two_digits (getMonth LocalTZA t + 1)) = true.
Proof.
  intros Hy.
  pose proof (MonthFromTime_range (LocalTime LocalTZA t)) as Hm.
  fold (getMonth LocalTZA t) in Hm.
  pose proof keys_of_four_digit_years as H.
  rewrite forallb_forall in H.
  specialize (H (getFullYear LocalTZA t)
                (In_numbers_from 1000 9000 (getFullYear LocalTZA t) ltac:(lia))).
  rewrite forallb_forall in H.
  exact (H (getMonth LocalTZA t + 1)
           (In_numbers_from 1 12 (getMonth LocalTZA t + 1) ltac:(lia))).
Qed.

Section HostFacts.

Variable hostDate : value -> option Z.
Variable LocalTZA : Z -> Z.

Lemma MonthFromTime_day (t t' : Z) :
  Date.Day t = Date.Day t' -> Date.MonthFromTime t = Date.MonthFromTime t'.
Proof.
  intros H. unfold Date.MonthFromTime, Date.DayWithinYear, Date.YearFromTime.
  rewrite H. reflexivity.
Qed.

Lemma getMonthYearKey_day (t : Z) :
  getMonthYearKey LocalTZA (Some t)
  = Return (key_of_day (Date.Day (LocalTime LocalTZA t))).
Proof.
  unfold key_of_day, getMonthYearKey, getFullYear, getMonth. cbn [try_catch].
  set (lt := LocalTime LocalTZA t).
  assert (H : Date.Day (LocalTime (fun _ => 0) (Date.Day lt * Date.msPerDay)) = Date.Day lt).
  { unfold LocalTime. rewrite Z.add_0_r. unfold Date.Day at 1.
    apply Z.div_mul. discriminate. }
  rewrite (MonthFromTime_day _ _ H). unfold Date.YearFromTime. rewrite H. reflexivity.
Qed.

(** One turn of the loop of [calculateMonthlyBreakdown]. *)
Lemma monthly_step_spec (mb : MonthlyBreakdown) (t : value) :
  monthly_step hostDate LocalTZA mb t
  = if retained hostDate t
    then assign (month_key hostDate LocalTZA t)
                (bucket_after (lookup (month_key hostDate LocalTZA t) mb) t) mb
    else mb.
Proof.
  unfold retained. rewrite skipped_isValidAmount, negb_involutive.
  unfold monthly_step, monthly_body, month_key, bucket_after, points_of.
  destruct t as [ | | b | x | s | l | p]; try reflexivity.
  - destruct b; reflexivity.
  - destruct x as [s | s | | s m e]; reflexivity.
  - destruct s; reflexivity.
  - cbn [truthy negb]. unfold amount_of, date_of. cbn [get].
    destruct (lookup "amount" p) as [w |]; cbn [bind try_catch]; [| reflexivity].
    destruct w as [ | | b | x | s | l | q]; try reflexivity.
    cbn [typeof_number negb].
    destruct (lookup "date" p) as [d |]; cbn [bind try_catch];
      [| rewrite andb_false_r; reflexivity].
    destruct (truthy d); cbn [negb]; [| rewrite andb_false_r; reflexivity].
    rewrite andb_true_r.
    destruct (newDate hostDate d) as [t0 |]; [| rewrite andb_false_r; reflexivity].
    rewrite andb_true_r. rewrite getMonthYearKey_day. cbn [bind try_catch].
    set (key := key_of_day (Date.Day (LocalTime LocalTZA t0))).
    destruct (isValidAmount (VNum x)) eqn:Hv.
    + destruct (calculatePoints_returns _ Hv) as [pts Hp]. rewrite Hp.
      cbn [bind try_catch num_of].
      destruct (lookup key mb) as [b0 |] eqn:Hl.
      * rewrite Hl. reflexivity.
      * rewrite lookup_assign, String.eqb_refl, assign_assign. reflexivity.
    + rewrite (calculatePoints_throws _ Hv eq_refl). reflexivity.
Qed.

Lemma lookup_monthly_step (k : string) (mb : MonthlyBreakdown) (t : value) :
  lookup k (monthly_step hostDate LocalTZA mb t)
  = if retained hostDate t && String.eqb (month_key hostDate LocalTZA t) k
    then Some (bucket_after (lookup k mb) t)
    else lookup k mb.
Proof.
  rewrite monthly_step_spec. destruct (retained hostDate t); [| reflexivity].
  rewrite lookup_assign, String.eqb_sym. cbn [andb].
  destruct (String.eqb_spec (month_key hostDate LocalTZA t) k) as [-> | _]; reflexivity.
Qed.

Lemma lookup_fold_monthly (k : string) (items : list value) (mb : MonthlyBreakdown) :
  lookup k (fold_left (monthly_step hostDate LocalTZA) items mb)
  = grouped hostDate LocalTZA k items (lookup k mb).
Proof.
  revert mb. induction items as [| t items IH]; intros mb; [reflexivity |].
  cbn [fold_left]. rewrite IH, lookup_monthly_step. reflexivity.
Qed.

(** Local midnight-UTC days: an offset of less than a day moves the local
    day by at most one. *)
Lemma local_day (d t : Z) :
  t = d * Date.msPerDay ->
  - Date.msPerDay < LocalTZA t < Date.msPerDay ->
  Date.Day (LocalTime LocalTZA t) = d - 1 \/ Date.Day (LocalTime LocalTZA t) = d.
Proof.
  intros -> Hb. unfold LocalTime, Date.Day, Date.msPerDay in *.
  rewrite Z.add_comm, Z.div_add by discriminate.
  assert (LocalTZA (d * 86400000) / 86400000 = -1 \/ LocalTZA (d * 86400000) / 86400000 = 0).
  { destruct (Z_lt_le_dec (LocalTZA (d * 86400000)) 0).
    - left. symmetry. apply (Z.div_unique _ _ _ (LocalTZA (d * 86400000) + 86400000)); lia.
    - right. apply Z.div_small. lia. }
  lia.
Qed.

Lemma month_key_dated (a : Z) (s : string) (d : Z) (k : string) :
  Date.parse_date_only s = Some (d * Date.msPerDay) ->
  key_of_day (d - 1) = k -> key_of_day d = k ->
  (forall t, - Date.msPerDay < LocalTZA t < Date.msPerDay) ->
  month_key hostDate LocalTZA (dated a s) = k.
Proof.
  intros Hp K1 K2 Hb. unfold month_key, dated, date_of.
  cbn [get lookup String.eqb Ascii.eqb Bool.eqb try_catch newDate].
  rewrite Hp, getMonthYearKey_day. cbn [try_catch].
  destruct (local_day d _ eq_refl (Hb _)) as [-> | ->]; assumption.
Qed.

(** In a result every bucket has counted at least one transaction. *)
Lemma grouped_counts (k : string) (items : list value) (before : option MonthlyBucket) :
  (forall b, before = Some b -> counts_at_least_one b) ->
  forall b, grouped hostDate LocalTZA k items before = Some b -> counts_at_least_one b.
Proof.
  revert before. induction items as [| t items IH]; intros before Hb b H.
  - apply Hb. exact H.
  - cbn [grouped fold_left] in H. apply (IH _ ) in H; [exact H |].
    destruct (retained hostDate t && String.eqb (month_key hostDate LocalTZA t) k);
      [| exact Hb].
    intros b' Eb. injection Eb as <-. unfold counts_at_least_one, bucket_after.
    cbn [accumulate transactionCount].
    apply add_ge_r; [| reflexivity].
    destruct before as [b0 |]; [apply (Hb b0 eq_refl) | reflexivity].
Qed.

(** A bucket is there only if a kept transaction has its key. *)
Lemma grouped_origin (k : string) (items : list value) (before : option MonthlyBucket) :
  forall b, grouped hostDate LocalTZA k items before = Some b ->
    before <> None \/
    exists t, In t items /\ retained hostDate t = true
              /\ month_key hostDate LocalTZA t = k.
Proof.
  revert before. induction items as [| t items IH]; intros before b H.
  - left. cbn in H. rewrite H. discriminate.
  - cbn [grouped fold_left] in H. apply IH in H.
    destruct H as [H | (t' & Hin & Hr & Hk)].
    + destruct (retained hostDate t) eqn:Hr; cbn [andb] in H.
      * destruct (String.eqb_spec (month_key hostDate LocalTZA t) k) as [Hk | Hk].
        -- right. exists t. repeat split; [left; reflexivity | assumption | assumption].
        -- left. exact H.
      * left. exact H.
    + right. exists t'. repeat split; [right; assumption | assumption | assumption].
Qed.

(** The key of a kept element is made from the local year and month of
    its date. *)
Lemma month_key_retained (t : value) :
  retained hostDate t = true ->
  exists d,
    newDate hostDate (date_of t) = Some d /\
    month_key hostDate LocalTZA t
    = (string_of_Z (getFullYear LocalTZA d) ++ "-"
       ++ two_digits (getMonth LocalTZA d + 1))%string.
Proof.
  unfold retained, month_key. intros H.
  destruct (newDate hostDate (date_of t)) as [d |].
  - exists d. split; reflexivity.
  - rewrite andb_false_r in H. discriminate H.
Qed.

End HostFacts.

(** C6, as amended.  [calculateMonthlyBreakdown] returns, for an array, a
    mapping in which the bucket of each month key is what the kept
    transactions of that month add up to, in order: points by the points
    of the amount, the count by one, the total by the amount; elements that
    are left out, have no date, or a date that does not parse, change
    nothing.  The key of a kept transaction is the local year of its date
    in decimal, as it is, a hyphen, and the month in two digits; it has
    the form [YYYY-MM] when the year has four digits.  With local time
    less than a day from UTC, the scenario yields the two buckets of the
    specification. *)
Theorem monthly_breakdown_groups (hostDate : value -> option Z) (LocalTZA : Z -> Z) :
  (forall t, - Date.msPerDay < LocalTZA t < Date.msPerDay) ->
  (forall items, exists mb,
      calculateMonthlyBreakdown hostDate LocalTZA (VArr items) = Return mb /\
      forall k, lookup k mb = grouped hostDate LocalTZA k items None) /\
  (forall mb t,
      monthly_step hostDate LocalTZA mb t
      = if retained hostDate t
        then assign (month_key hostDate LocalTZA t)
               (bucket_after (lookup (month_key hostDate LocalTZA t) mb) t) mb
        else mb) /\
  (forall t, retained hostDate t = true ->
     exists d,
       newDate hostDate (date_of t) = Some d /\
       month_key hostDate LocalTZA t
       = (string_of_Z (getFullYear LocalTZA d) ++ "-"
          ++ two_digits (getMonth LocalTZA d + 1))%string /\
       (1000 <= getFullYear LocalTZA d <= 9999 ->
        well_formed_key (month_key hostDate LocalTZA t) = true)) /\
  calculateMonthlyBreakdown hostDate LocalTZA scenario_monthly
  = Return
      [("2025-01"%string,
        {| points := Num.of_Z 115; transactionCount := Num.of_Z 2;
           totalAmount := Num.of_Z 195 |});
       ("2025-02"%string,
        {| points := Num.of_Z 150; transactionCount := Num.of_Z 1;
           totalAmount := Num.of_Z 150 |})].
Proof.
  intros Hb. split; [| split; [| split]].
  - intros items. eexists. split; [reflexivity |].
    intros k. apply lookup_fold_monthly.
  - apply monthly_step_spec.
  - intros t Ht.
    destruct (month_key_retained hostDate LocalTZA t Ht) as (d & Hd & Hk).
    exists d. split; [exact Hd |]. split; [exact Hk |].
    intros Hy. rewrite Hk. apply key_well_formed. exact Hy.
  - unfold scenario_monthly, calculateMonthlyBreakdown. cbn [fold_left].
    rewrite !monthly_step_spec.
    rewrite (month_key_dated hostDate LocalTZA 120 "2025-01-15" 20103 "2025-01")
      by (reflexivity || assumption).
    rewrite (month_key_dated hostDate LocalTZA 75 "2025-01-20" 20108 "2025-01")
      by (reflexivity || assumption).
    rewrite (month_key_dated hostDate LocalTZA 150 "2025-02-10" 20129 "2025-02")
      by (reflexivity || assumption).
    reflexivity.
Qed.

Lemma monthly_breakdown_groups_witness :
  calculateMonthlyBreakdown (fun _ => None) (fun _ => -18000000) scenario_monthly
  = Return
      [("2025-01"%string,
        {| points := Num.of_Z 115; transactionCount := Num.of_Z 2;
           totalAmount := Num.of_Z 195 |});
       ("2025-02"%string,
        {| points := Num.of_Z 150; transactionCount := Num.of_Z 1;
           totalAmount := Num.of_Z 150 |})] /\
  retained (fun _ => None) (dated 120 "2025-01-15") = true /\
  well_formed_key
    (month_key (fun _ => None) (fun _ => -18000000) (dated 120 "2025-01-15")) = true.
Proof.
  pose proof (monthly_breakdown_groups (fun _ => None) (fun _ => -18000000)
                (fun _ => conj eq_refl eq_refl)) as (_ & _ & Hkey & Hscenario).
  split; [exact Hscenario |]. split; [reflexivity |].
  destruct (Hkey (dated 120 "2025-01-15") eq_refl) as (d & Hd & _ & Hform).
  apply Hform. injection Hd as <-. vm_compute. split; intros H; discriminate H.
Defined.

(** C6 as stated fails on the form of the key: a kept transaction of the
    year 999 goes to the bucket ["999-05"], which is not of the form
    [YYYY-MM]. *)
Lemma monthly_key_of_year_999 :
  calculateMonthlyBreakdown (fun _ => None) (fun _ => 0)
    (VArr [dated 120 "0999-05-01"])
  = Return
      [("999-05"%string,
        {| points := Num.of_Z 90; transactionCount := Num.of_Z 1;
           totalAmount := Num.of_Z 120 |})] /\
  well_formed_key "999-05" = false.
Proof. split; reflexivity. Qed.

(** C10.  Every bucket of a result of [calculateMonthlyBreakdown] has a
    transaction count of at least one, and is the bucket of a month some
    kept transaction of the input falls in. *)
Theorem buckets_are_not_empty
  (hostDate : value -> option Z) (LocalTZA : Z -> Z)
  (items : list value) (mb : MonthlyBreakdown) (k : string) (b : MonthlyBucket) :
  calculateMonthlyBreakdown hostDate LocalTZA (VArr items) = Return mb ->
  lookup k mb = Some b ->
  Num.leb (Num.of_Z 1) (transactionCount b) = true /\
  exists t, In t items /\ retained hostDate t = true
            /\ month_key hostDate LocalTZA t = k.
Proof.
  intros Hr Hl. injection Hr as <-. rewrite lookup_fold_monthly in Hl.
  cbn [lookup] in Hl. split.
  - apply (grouped_counts hostDate LocalTZA k items None); [discriminate | exact Hl].
  - destruct (grouped_origin hostDate LocalTZA k items None b Hl) as [H | H];
      [contradiction | exact H].
Qed.

Lemma buckets_are_not_empty_witness :
  Num.leb (Num.of_Z 1) (Num.of_Z 2) = true /\
  exists t, In t [dated 120 "2025-01-15"; dated 75 "2025-01-20"; dated 150 "2025-02-10"]
            /\ retained (fun _ => None) t = true
            /\ month_key (fun _ => None) (fun _ => 0) t = "2025-01"%string.
Proof.
  exact (buckets_are_not_empty (fun _ => None) (fun _ => 0)
           [dated 120 "2025-01-15"; dated 75 "2025-01-20"; dated 150 "2025-02-10"]
           _ "2025-01"
           {| points := Num.of_Z 115; transactionCount := Num.of_Z 2;
              totalAmount := Num.of_Z 195 |}
           eq_refl eq_refl).
Defined.

(** ** Annotation *)

(** C1 fails on the code.  On the input of the repository's own test, an
    element whose amount is not a number followed by a valid one, the
    result has one element, the annotated second one: the first is
    dropped, not zero-filled. *)
Theorem details_drops_non_numeric :
  calculatePointsWithDetails scenario_details
  = Return
      [VObj [("transactionId"%string, VStr "T2");
             ("amount"%string, VNum (Num.of_Z 75));
             ("points"%string, VNum (Num.of_Z 25));
             ("pointsBreakdown"%string,
              VObj [("highTier"%string, VNum zero);
                    ("lowTier"%string, VNum (Num.of_Z 25))])]].
Proof. reflexivity. Qed.

(** The same for [null]: it is dropped. *)
Lemma details_drops_null :
  calculatePointsWithDetails (VArr [VNull]) = Return [].
Proof. reflexivity. Qed.

(** The zero-filled copy is what an amount that is a number but NaN or
    negative gets. *)
Lemma details_zero_fills_negative :
  calculatePointsWithDetails (VArr [with_amount (VNum (Num.of_Z (-10)))])
  = Return
      [VObj [("amount"%string, VNum (Num.of_Z (-10)));
             ("points"%string, VNum zero);
             ("pointsBreakdown"%string,
              VObj [("highTier"%string, VNum zero); ("lowTier"%string, VNum zero)])]].
Proof. reflexivity. Qed.

(** ** Display of a month key *)

Lemma digit_not_hyphen (c : ascii) (d : Z) :
  digit_value c = Some d -> Ascii.eqb c hyphen = false.
Proof.
  intros H. destruct (Ascii.eqb_spec c hyphen) as [-> | _]; [| reflexivity].
  discriminate H.
Qed.

Lemma digits_only_no_hyphen (s : string) :
  digits_only s = true -> includes hyphen s = false.
Proof.
  unfold digits_only. induction s as [| c s IH]; [reflexivity |].
  cbn [list_ascii_of_string forallb includes]. intros H.
  apply andb_prop in H as [Hc Hs].
  destruct (digit_value c) as [d |] eqn:Hd; [| discriminate].
  rewrite (digit_not_hyphen c d Hd), IH by assumption. reflexivity.
Qed.

Lemma split_nonempty (c : ascii) (s : string) : split c s <> [].
Proof.
  destruct s as [| c' s]; cbn [split]; [discriminate |].
  destruct (Ascii.eqb c' c); [discriminate |].
  destruct (split c s); discriminate.
Qed.

Lemma split_app (c : ascii) (y rest : string) :
  includes c y = false ->
  split c (y ++ String c rest) = y :: split c rest.
Proof.
  induction y as [| c' y IH]; intros H.
  - cbn [append split]. rewrite Ascii.eqb_refl. reflexivity.
  - cbn [includes] in H. apply orb_false_elim in H as [Hc Hy].
    cbn [append split]. rewrite Hc, IH by assumption. reflexivity.
Qed.

Lemma includes_app (c : ascii) (y rest : string) :
  includes c (y ++ String c rest) = true.
Proof.
  induction y as [| c' y IH]; cbn [append includes].
  - rewrite Ascii.eqb_refl. reflexivity.
  - rewrite IH. apply orb_true_r.
Qed.

(** A string with a hyphen splits into at least two pieces. *)
Lemma split_two (c : ascii) (s : string) :
  includes c s = true -> exists y m rest, split c s = y :: m :: rest.
Proof.
  induction s as [| c' s IH]; [discriminate |].
  cbn [includes split]. destruct (Ascii.eqb c' c).
  - intros _. destruct (split c s) as [| m rest] eqn:E.
    + exfalso. exact (split_nonempty c s E).
    + exists EmptyString, m, rest. reflexivity.
  - cbn [orb]. intros H. destruct (IH H) as (y & m & rest & E). rewrite E.
    exists (String c' y), m, rest. reflexivity.
Qed.

Lemma monthName_cases (month : string) :
  In (monthName month) ("Unknown"%string :: monthNames).
Proof.
  unfold monthName. destruct (parseInt month) as [n |]; [| left; reflexivity].
  destruct (Z.leb_spec 0 (n - 1)); cbn [andb]; [| left; reflexivity].
  destruct (Z.ltb_spec (n - 1) 12); [| left; reflexivity].
  right. apply nth_In.
  change (List.length monthNames) with 12%nat. lia.
Qed.

Lemma display_not_invalid (month year : string) :
  (monthName month ++ " " ++ year)%string <> "Invalid Date"%string.
Proof.
  pose proof (monthName_cases month) as H. cbn [In monthNames] in H.
  repeat (destruct H as [<- | H]; [discriminate |]). contradiction.
Qed.

Lemma monthName_known (month : string) (n : Z) :
  parseInt month = Some n -> 1 <= n <= 12 ->
  monthName month = nth (Z.to_nat (n - 1)) monthNames "Unknown"%string.
Proof.
  intros Hp Hn. unfold monthName. rewrite Hp.
  destruct (Z.leb_spec 0 (n - 1)); [| lia].
  destruct (Z.ltb_spec (n - 1) 12); [| lia]. reflexivity.
Qed.

Lemma monthName_unknown (month : string) :
  (forall n, parseInt month = Some n -> n < 1 \/ 12 < n) ->
  monthName month = "Unknown"%string.
Proof.
  intros H. unfold monthName. destruct (parseInt month) as [n |]; [| reflexivity].
  destruct (H n eq_refl).
  - destruct (Z.leb_spec 0 (n - 1)); [lia | reflexivity].
  - destruct (Z.leb_spec 0 (n - 1)); [| reflexivity].
    destruct (Z.ltb_spec (n - 1) 12); [lia | reflexivity].
Qed.

Lemma two_digits_month (m : Z) :
  1 <= m <= 12 ->
  includes hyphen (two_digits m) = false /\
  split hyphen (two_digits m) = [two_digits m] /\
  parseInt (two_digits m) = Some m.
Proof.
  intros H.
  assert (C : m = 1 \/ m = 2 \/ m = 3 \/ m = 4 \/ m = 5 \/ m = 6 \/ m = 7 \/ m = 8
              \/ m = 9 \/ m = 10 \/ m = 11 \/ m = 12) by lia.
  repeat (destruct C as [-> | C]; [repeat split |]). subst m. repeat split.
Qed.

(** C9, as amended.  A key [YYYY-MM] with a month from 01 to 12 is shown as
    the name of the month and the year.  The answer is ["Invalid Date"]
    exactly when the argument is not a string or has no hyphen.  Every
    string with a hyphen is shown as a name, a space and the text before its
    first hyphen; the name is that of the month when the text between the
    first two hyphens reads, by [parseInt], as a number from 1 to 12, and
    ["Unknown"] otherwise.  The function returns on every argument. *)
Theorem display_of_month_key :
  (forall (year : string) (m : Z),
      String.length year = 4%nat -> digits_only year = true -> 1 <= m <= 12 ->
      getMonthYearDisplay (VStr (year ++ "-" ++ two_digits m)%string)
      = (nth (Z.to_nat (m - 1)) monthNames "Unknown" ++ " " ++ year)%string) /\
  (forall v,
      getMonthYearDisplay v = "Invalid Date"%string
      <-> match v with VStr key => includes hyphen key = false | _ => True end) /\
  (forall key, includes hyphen key = true ->
      exists year month rest,
        split hyphen key = year :: month :: rest /\
        getMonthYearDisplay (VStr key) = (monthName month ++ " " ++ year)%string /\
        (forall n, parseInt month = Some n -> 1 <= n <= 12 ->
           monthName month = nth (Z.to_nat (n - 1)) monthNames "Unknown"%string) /\
        ((forall n, parseInt month = Some n -> n < 1 \/ 12 < n) ->
           monthName month = "Unknown"%string)).
Proof.
  split; [| split].
  - intros year m _ Hd Hm.
    destruct (two_digits_month m Hm) as (Hi & Hs & Hp).
    unfold getMonthYearDisplay.
    change (year ++ "-" ++ two_digits m)%string
      with (year ++ String hyphen (two_digits m))%string.
    rewrite includes_app. cbn [negb].
    rewrite split_app by (apply digits_only_no_hyphen; assumption).
    rewrite Hs. rewrite (monthName_known _ m Hp Hm). reflexivity.
  - intros v. destruct v as [ | | b | x | s | l | p]; try (split; reflexivity).
    unfold getMonthYearDisplay. destruct (includes hyphen s) eqn:Hi; cbn [negb].
    + destruct (split_two hyphen s Hi) as (y & m & rest & E). rewrite E.
      split; [| discriminate]. intros H. exfalso. exact (display_not_invalid m y H).
    + split; reflexivity.
  - intros key Hi. destruct (split_two hyphen key Hi) as (y & m & rest & E).
    exists y, m, rest. split; [exact E |]. split.
    + unfold getMonthYearDisplay. rewrite Hi, E. reflexivity.
    + split; [apply monthName_known | apply monthName_unknown].
Qed.

Lemma display_of_month_key_witness :
  getMonthYearDisplay (VStr ("2025" ++ "-" ++ two_digits 1)%string) = "January 2025"%string /\
  (exists year month rest,
      split hyphen "2025-13"%string = year :: month :: rest /\
      getMonthYearDisplay (VStr "2025-13") = (monthName month ++ " " ++ year)%string /\
      (forall n, parseInt month = Some n -> 1 <= n <= 12 ->
         monthName month = nth (Z.to_nat (n - 1)) monthNames "Unknown"%string) /\
      ((forall n, parseInt month = Some n -> n < 1 \/ 12 < n) ->
         monthName month = "Unknown"%string)).
Proof.
  split.
  - apply (proj1 display_of_month_key "2025"%string 1 eq_refl eq_refl). lia.
  - apply (proj2 (proj2 display_of_month_key) "2025-13"%string). reflexivity.
Defined.

(** C9 as stated fails: a key of the wrong shape that has a hyphen is not
    answered with ["Invalid Date"] but with ["Unknown"] and the text before
    the hyphen. *)
Lemma display_of_malformed_key :
  well_formed_key "abc-def" = false /\
  getMonthYearDisplay (VStr "abc-def") = "Unknown abc"%string /\
  getMonthYearDisplay (VStr "abc-def") <> "Invalid Date"%string.
Proof. repeat split. discriminate. Qed.

Example display_2025_01 : getMonthYearDisplay (VStr "2025-01") = "January 2025"%string.
Proof. reflexivity. Qed.

Example display_invalid : getMonthYearDisplay (VStr "invalid") = "Invalid Date"%string.
Proof. reflexivity. Qed.

(** * Further properties of the calculator *)

(** ** The annotated list *)

Lemma points_of_invalid (t : value) :
  isValidAmount (amount_of t) = false ->
  points_of t = zero /\
  getPointsBreakdown (amount_of t) = {| highTier := zero; lowTier := zero |}.
Proof.
  intros H. unfold points_of, getPointsBreakdown.
  destruct (calculatePoints_raises _ H) as [e ->].
  rewrite invalid_amount_isValidAmount, H.
  split; reflexivity.
Qed.

Lemma details_step_spec (acc : list value) (t : value) :
  details_step acc t = if has_numeric_amount t then acc ++ [annotate t] else acc.
Proof.
  unfold details_step, details_body, has_numeric_amount, annotate.
  destruct t as [ | | b | x | s | l | p]; try reflexivity.
  - destruct b; reflexivity.
  - destruct x as [s | s | | s m e]; reflexivity.
  - destruct s; reflexivity.
  - cbn [truthy negb andb]. unfold points_of, amount_of. cbn [get].
    destruct (lookup "amount" p) as [w |]; cbn [bind try_catch]; [| reflexivity].
    destruct w as [ | | b | x | s | l | q]; try reflexivity.
    cbn [typeof_number negb].
    destruct (isValidAmount (VNum x)) eqn:Hv.
    + destruct (calculatePoints_returns _ Hv) as [pts Hp]. rewrite Hp. reflexivity.
    + rewrite (calculatePoints_throws _ Hv eq_refl). cbn [bind try_catch].
      unfold getPointsBreakdown. rewrite invalid_amount_isValidAmount, Hv. reflexivity.
Qed.

Lemma fold_details_step (items acc : list value) :
  fold_left details_step items acc
  = acc ++ map annotate (filter has_numeric_amount items).
Proof.
  revert acc. induction items as [| t items IH]; intros acc.
  - cbn. rewrite app_nil_r. reflexivity.
  - cbn [fold_left filter]. rewrite IH, details_step_spec.
    destruct (has_numeric_amount t); [| reflexivity].
    cbn [map]. rewrite <- app_assoc. reflexivity.
Qed.

(** X1.  On an array [calculatePointsWithDetails] returns, in input order,
    one annotated record for each element whose amount is a number, and
    nothing for the others; so the result is never longer than the input,
    and as long exactly when every element has an amount that is a number.
    On anything but an array it throws the error of message
    'Transactions must be an array'. *)
Theorem details_keeps_numeric_amounts (transactions : value) :
  (Array_isArray transactions = false ->
   calculatePointsWithDetails transactions = Throw InvalidInput) /\
  (forall items, transactions = VArr items ->
     calculatePointsWithDetails transactions
     = Return (map annotate (filter has_numeric_amount items)) /\
     (List.length (map annotate (filter has_numeric_amount items))
      <= List.length items)%nat /\
     (List.length (map annotate (filter has_numeric_amount items)) = List.length items
      <-> forallb has_numeric_amount items = true)).
Proof.
  split.
  - destruct transactions; try reflexivity. discriminate.
  - intros items ->. split; [| split].
    + unfold calculatePointsWithDetails. rewrite fold_details_step. reflexivity.
    + rewrite length_map. apply filter_length_le.
    + rewrite length_map. clear. induction items as [| t items IH]; [split; reflexivity |].
      cbn [filter forallb]. pose proof (filter_length_le has_numeric_amount items) as Hle.
      destruct (has_numeric_amount t); cbn [andb List.length].
      * rewrite <- IH. split; intros H; lia.
      * split; [intros H; lia | discriminate].
Qed.

Lemma details_keeps_numeric_amounts_witness :
  calculatePointsWithDetails (VNum zero) = Throw InvalidInput /\
  calculatePointsWithDetails scenario_details
  = Return (map annotate
              (filter has_numeric_amount
                 [VObj [("transactionId"%string, VStr "T1"); ("amount"%string, VStr "invalid")];
                  VObj [("transactionId"%string, VStr "T2");
                        ("amount"%string, VNum (Num.of_Z 75))]])).
Proof.
  split.
  - apply (proj1 (details_keeps_numeric_amounts (VNum zero))). reflexivity.
  - apply (proj2 (details_keeps_numeric_amounts scenario_details) _ eq_refl).
Defined.

Lemma annotate_lookup (props : list (string * value)) :
  exists fields,
    annotate (VObj props) = VObj fields /\
    lookup "points" fields = Some (VNum (points_of (VObj props))) /\
    lookup "pointsBreakdown" fields
    = Some (breakdown_value (getPointsBreakdown (amount_of (VObj props)))) /\
    forall k, k <> "points"%string -> k <> "pointsBreakdown"%string ->
              lookup k fields = lookup k props.
Proof.
  eexists. split; [reflexivity |]. cbn [spread].
  split; [| split].
  - rewrite !lookup_assign. reflexivity.
  - rewrite lookup_assign. reflexivity.
  - intros k H1 H2. rewrite !lookup_assign.
    destruct (String.eqb_spec k "pointsBreakdown"); [contradiction |].
    destruct (String.eqb_spec k "points"); [contradiction |]. reflexivity.
Qed.

(** X2.  The record emitted for an object keeps every property of the
    object other than [points] and [pointsBreakdown] with its value, and
    has the points of the amount under [points] and the breakdown under
    [pointsBreakdown], whatever the object had there. *)
Theorem annotate_fields (props : list (string * value)) :
  exists fields,
    annotate (VObj props) = VObj fields /\
    lookup "points" fields = Some (VNum (points_of (VObj props))) /\
    lookup "pointsBreakdown" fields
    = Some (breakdown_value (getPointsBreakdown (amount_of (VObj props)))) /\
    forall k, k <> "points"%string -> k <> "pointsBreakdown"%string ->
              lookup k fields = lookup k props.
Proof.
  exists (assign "pointsBreakdown"
            (breakdown_value (getPointsBreakdown (amount_of (VObj props))))
            (assign "points" (VNum (points_of (VObj props))) props)).
  split; [reflexivity |]. split; [| split].
  - rewrite !lookup_assign. reflexivity.
  - rewrite lookup_assign. reflexivity.
  - intros k H1 H2. rewrite !lookup_assign.
    destruct (String.eqb_spec k "pointsBreakdown"); [contradiction |].
    destruct (String.eqb_spec k "points"); [contradiction |]. reflexivity.
Qed.

Lemma annotate_fields_witness :
  exists fields,
    annotate (VObj [("points"%string, VStr "stale");
                    ("amount"%string, VNum (Num.of_Z 120))]) = VObj fields /\
    lookup "points" fields = Some (VNum (Num.of_Z 90)) /\
    lookup "amount" fields = Some (VNum (Num.of_Z 120)).
Proof.
  destruct (annotate_fields [("points"%string, VStr "stale");
                             ("amount"%string, VNum (Num.of_Z 120))])
    as (fields & Ef & Hp & _ & Hk).
  exists fields. split; [exact Ef |]. split; [exact Hp |].
  apply (Hk "amount"%string); intros H; discriminate H.
Defined.

Lemma assign_same {A : Type} (k : string) (a : A) (l : list (string * A)) :
  lookup k l = Some a -> assign k a l = l.
Proof.
  induction l as [| [k0 a0] l IH]; cbn [lookup assign]; [discriminate |].
  destruct (String.eqb_spec k k0) as [-> | _].
  - intros H. injection H as ->. reflexivity.
  - intros H. rewrite IH by assumption. reflexivity.
Qed.

Lemma has_numeric_amount_object (t : value) :
  has_numeric_amount t = true ->
  exists props x, t = VObj props /\ lookup "amount" props = Some (VNum x).
Proof.
  unfold has_numeric_amount, amount_of.
  destruct t as [ | | b | x | s | l | p]; cbn [truthy get try_catch andb typeof_number];
    try discriminate;
    try (destruct b; discriminate);
    try (destruct x as [s | s | | s m e]; discriminate);
    try (destruct s; discriminate).
  destruct (lookup "amount" p) as [w |] eqn:E; cbn [try_catch]; [| discriminate].
  destruct w; try discriminate. intros _. eexists _, _. split; [reflexivity | exact E].
Qed.

Lemma annotate_annotate (t : value) :
  has_numeric_amount t = true ->
  has_numeric_amount (annotate t) = true /\ annotate (annotate t) = annotate t.
Proof.
  intros H. destruct (has_numeric_amount_object t H) as (props & x & -> & Ha).
  destruct (annotate_lookup props) as (fields & Ef & Hp & Hb & Hk).
  rewrite Ef.
  assert (Hamt : amount_of (VObj fields) = amount_of (VObj props)).
  { unfold amount_of. cbn [get]. rewrite Hk by discriminate. reflexivity. }
  split.
  - unfold has_numeric_amount. rewrite Hamt. exact H.
  - unfold annotate at 1, annotated. cbn [spread].
    unfold points_of. rewrite Hamt. fold (points_of (VObj props)).
    rewrite (assign_same "points" _ fields Hp).
    rewrite (assign_same "pointsBreakdown" _ fields Hb). reflexivity.
Qed.

(** X3.  Annotating is idempotent: [calculatePointsWithDetails] applied to
    its own result returns that result. *)
Theorem details_idempotent (items annotated_items : list value) :
  calculatePointsWithDetails (VArr items) = Return annotated_items ->
  calculatePointsWithDetails (VArr annotated_items) = Return annotated_items.
Proof.
  intros H. unfold calculatePointsWithDetails in *.
  rewrite fold_details_step in *. cbn [app] in *. injection H as <-.
  f_equal. induction items as [| t items IH]; [reflexivity |].
  cbn [filter]. destruct (has_numeric_amount t) eqn:Ht; [| exact IH].
  cbn [map filter]. destruct (annotate_annotate t Ht) as [H1 H2].
  rewrite H1. cbn [map]. rewrite H2, IH. reflexivity.
Qed.

Lemma details_idempotent_witness :
  calculatePointsWithDetails
    (VArr (map annotate (filter has_numeric_amount
       [dated 120 "2025-01-15"; VNull; with_amount (VNum (Num.of_Z (-10)))])))
  = Return (map annotate (filter has_numeric_amount
       [dated 120 "2025-01-15"; VNull; with_amount (VNum (Num.of_Z (-10)))])).
Proof.
  apply (details_idempotent
           [dated 120 "2025-01-15"; VNull; with_amount (VNum (Num.of_Z (-10)))]).
  reflexivity.
Defined.

(** ** The total and the annotated list *)

Lemma points_field_annotate (t : value) :
  has_numeric_amount t = true -> points_field (annotate t) = points_of t.
Proof.
  intros H. destruct (has_numeric_amount_object t H) as (props & x & -> & _).
  destruct (annotate_lookup props) as (fields & Ef & Hp & _).
  rewrite Ef. unfold points_field. cbn [get]. rewrite Hp. reflexivity.
Qed.

(** Not negative and not [-0]. *)
Lemma add_plain (x y : number) :
  nn x = true -> x <> S754_zero true -> nn y = true ->
  nn (Num.add x y) = true /\ Num.add x y <> S754_zero true.
Proof.
  intros Hx Hz Hy. split; [apply add_nn; assumption |].
  destruct x as [sx | sx | | sx mx ex]; try discriminate Hx;
    destruct y as [sy | sy | | sy my ey]; try discriminate Hy;
    try (destruct sx; try discriminate Hx; try contradiction);
    try (destruct sy; try discriminate Hy);
    try (cbn; discriminate).
  unfold Num.add. rewrite SFadd_finite by assumption.
  pose proof (decode_sign false (fval (S754_finite false mx ex) + fval (S754_finite false my ey)))
    as Hs.
  destruct (decode false _); try discriminate. subst. discriminate.
Qed.

Lemma add_zero_r (x : number) : x <> S754_zero true -> Num.add x zero = x.
Proof.
  intros H. destruct x as [s | s | | s m e]; try reflexivity.
  destruct s; [contradiction | reflexivity].
Qed.

Lemma valid_has_numeric_amount (t : value) :
  skipped t = false -> has_numeric_amount t = true.
Proof.
  rewrite skipped_isValidAmount. unfold has_numeric_amount, amount_of.
  destruct t as [ | | b | x | s | l | p]; try discriminate.
  cbn [truthy get andb]. destruct (lookup "amount" p) as [w |]; [| discriminate].
  cbn [try_catch]. destruct w; try discriminate. reflexivity.
Qed.

Lemma points_of_nn (t : value) :
  match amount_of t with VNum a => Num.wf a = true | _ => True end ->
  nn (points_of t) = true.
Proof.
  intros Hw. unfold points_of.
  destruct (isValidAmount (amount_of t)) eqn:Hv.
  - destruct (amount_of t) as [ | | b | a | s | l | p]; try discriminate Hv.
    destruct (points_nn a (valid_nn a Hw Hv)) as (p & Ep & Np).
    rewrite Ep. exact Np.
  - destruct (calculatePoints_raises _ Hv) as [e ->]. reflexivity.
Qed.

Lemma fold_points_of_annotated (items : list value) (acc : number) :
  amounts_well_formed items ->
  nn acc = true -> acc <> S754_zero true ->
  fold_left Num.add (map points_field (map annotate (filter has_numeric_amount items))) acc
  = fold_left Num.add (map points_of (filter (fun t => negb (skipped t)) items)) acc.
Proof.
  intros Hw. revert acc. induction Hw as [| t items Ht Hw IH]; intros acc Hn Hz;
    [reflexivity |].
  cbn [filter]. destruct (skipped t) eqn:Hs; cbn [negb].
  - destruct (has_numeric_amount t) eqn:Hh; [| apply IH; assumption].
    cbn [map fold_left]. rewrite points_field_annotate by assumption.
    rewrite skipped_isValidAmount in Hs. apply negb_true_iff in Hs.
    destruct (points_of_invalid t Hs) as [-> _].
    rewrite add_zero_r by assumption. apply IH; assumption.
  - rewrite (valid_has_numeric_amount t Hs). cbn [map fold_left].
    rewrite points_field_annotate by (apply valid_has_numeric_amount; assumption).
    destruct (add_plain acc (points_of t) Hn Hz (points_of_nn t Ht)) as [N1 N2].
    apply IH; assumption.
Qed.

(** X4.  On an array whose numeric amounts are well-formed numbers, the
    total of [calculateTotalPoints] is the sum, from the left, of the
    [points] of the records [calculatePointsWithDetails] returns. *)
Theorem total_is_sum_of_details (items : list value) :
  amounts_well_formed items ->
  exists annotated_items,
    calculatePointsWithDetails (VArr items) = Return annotated_items /\
    calculateTotalPoints (VArr items)
    = Return (fold_left Num.add (map points_field annotated_items) zero).
Proof.
  intros Hw. exists (map annotate (filter has_numeric_amount items)). split.
  - unfold calculatePointsWithDetails. rewrite fold_details_step. reflexivity.
  - rewrite fold_points_of_annotated by (assumption || reflexivity || discriminate).
    rewrite <- fold_total_step. destruct items; reflexivity.
Qed.

Lemma total_is_sum_of_details_witness :
  exists annotated_items,
    calculatePointsWithDetails scenario_total = Return annotated_items /\
    calculateTotalPoints scenario_total
    = Return (fold_left Num.add (map points_field annotated_items) zero).
Proof.
  apply total_is_sum_of_details. repeat constructor.
Defined.

(** ** The keys of the monthly grouping *)

Lemma map_fst_assign {A : Type} (k : string) (a : A) (l : list (string * A)) :
  map fst (assign k a l)
  = if existsb (String.eqb k) (map fst l) then map fst l else map fst l ++ [k].
Proof.
  induction l as [| [k0 a0] l IH]; cbn [assign map fst existsb]; [reflexivity |].
  destruct (String.eqb_spec k k0) as [-> | _]; cbn [map fst orb]; [reflexivity |].
  rewrite IH. destruct (existsb (String.eqb k) (map fst l)); reflexivity.
Qed.

Lemma existsb_eqb_In (k : string) (l : list string) :
  existsb (String.eqb k) l = true <-> In k l.
Proof.
  rewrite existsb_exists. split.
  - intros (x & Hin & E). apply String.eqb_eq in E. subst. exact Hin.
  - intros H. exists k. split; [exact H | apply String.eqb_refl].
Qed.

Lemma first_occurrences_NoDup_from (keys seen : list string) :
  NoDup seen ->
  NoDup (fold_left
           (fun seen k => if existsb (String.eqb k) seen then seen else seen ++ [k])
           keys seen).
Proof.
  revert seen. induction keys as [| k keys IH]; intros seen H; [exact H |].
  cbn [fold_left]. apply IH.
  destruct (existsb (String.eqb k) seen) eqn:E; [exact H |].
  apply NoDup_app; [exact H | repeat constructor; intros [] |].
  intros x Hx [<- | []]. apply existsb_eqb_In in Hx. congruence.
Qed.

Section KeyOrder.

Variable hostDate : value -> option Z.
Variable LocalTZA : Z -> Z.

Lemma keys_fold_monthly (items : list value) (mb : MonthlyBreakdown) :
  map fst (fold_left (monthly_step hostDate LocalTZA) items mb)
  = fold_left
      (fun seen k => if existsb (String.eqb k) seen then seen else seen ++ [k])
      (map (month_key hostDate LocalTZA) (filter (retained hostDate) items))
      (map fst mb).
Proof.
  revert mb. induction items as [| t items IH]; intros mb; [reflexivity |].
  cbn [fold_left filter]. rewrite IH, monthly_step_spec.
  destruct (retained hostDate t); [| reflexivity].
  cbn [map fold_left]. rewrite map_fst_assign. reflexivity.
Qed.

End KeyOrder.

(** X5.  The month keys of a result of [calculateMonthlyBreakdown] are the
    keys of the kept transactions, each once, in the order in which they
    first occur in the input. *)
Theorem monthly_keys_in_first_occurrence_order
  (hostDate : value -> option Z) (LocalTZA : Z -> Z) (items : list value) :
  exists mb,
    calculateMonthlyBreakdown hostDate LocalTZA (VArr items) = Return mb /\
    map fst mb
    = first_occurrences
        (map (month_key hostDate LocalTZA) (filter (retained hostDate) items)) /\
    NoDup (map fst mb).
Proof.
  eexists. split; [reflexivity |].
  rewrite keys_fold_monthly. split; [reflexivity |].
  apply first_occurrences_NoDup_from. constructor.
Qed.

(** ** Month keys and their display *)

Lemma string_of_uint_no_hyphen (d : Decimal.uint) :
  includes hyphen (NilEmpty.string_of_uint d) = false.
Proof. induction d; cbn [NilEmpty.string_of_uint includes]; try rewrite IHd; reflexivity. Qed.

Lemma string_of_Z_no_hyphen (n : Z) :
  0 <= n -> includes hyphen (string_of_Z n) = false.
Proof.
  intros H. unfold string_of_Z. destruct n as [| p | p]; try lia.
  - reflexivity.
  - apply string_of_uint_no_hyphen.
Qed.

(** X6.  For a date whose local year is not negative, displaying the key
    made from the date gives the name of its month and its year. *)
Theorem display_of_key_of_date (LocalTZA : Z -> Z) (t : Z) :
  0 <= getFullYear LocalTZA t ->
  exists key,
    getMonthYearKey LocalTZA (Some t) = Return key /\
    getMonthYearDisplay (VStr key)
    = (nth (Z.to_nat (getMonth LocalTZA t)) monthNames "Unknown" ++ " "
       ++ string_of_Z (getFullYear LocalTZA t))%string.
Proof.
  intros Hy. eexists. split; [reflexivity |].
  pose proof (MonthFromTime_range (LocalTime LocalTZA t)) as Hm.
  fold (getMonth LocalTZA t) in Hm.
  destruct (two_digits_month (getMonth LocalTZA t + 1) ltac:(lia)) as (Hi & Hs & Hp).
  unfold two_digits in *. unfold getMonthYearDisplay.
  change (string_of_Z (getFullYear LocalTZA t) ++ "-"
          ++ padStart2 (string_of_Z (getMonth LocalTZA t + 1)))%string
    with (string_of_Z (getFullYear LocalTZA t)
          ++ String hyphen (padStart2 (string_of_Z (getMonth LocalTZA t + 1))))%string.
  rewrite includes_app. cbn [negb].
  rewrite split_app by (apply string_of_Z_no_hyphen; assumption).
  rewrite Hs. rewrite (monthName_known _ _ Hp ltac:(lia)).
  replace (getMonth LocalTZA t + 1 - 1) with (getMonth LocalTZA t) by lia.
  reflexivity.
Qed.

Lemma display_of_key_of_date_witness :
  exists key,
    getMonthYearKey (fun _ => 0) (Some 1736899200000) = Return key /\
    getMonthYearDisplay (VStr key)
    = (nth (Z.to_nat (getMonth (fun _ => 0) 1736899200000)) monthNames "Unknown" ++ " "
       ++ string_of_Z (getFullYear (fun _ => 0) 1736899200000))%string.
Proof.
  apply (display_of_key_of_date (fun _ => 0) 1736899200000). vm_compute. discriminate.
Defined.

(** X7.  For a date whose local year has four digits the key has the form
    [YYYY-MM]: seven characters, four digits, a hyphen, two digits. *)
Theorem key_of_date_well_formed (LocalTZA : Z -> Z) (t : Z) :
  1000 <= getFullYear LocalTZA t <= 9999 ->
  exists key,
    getMonthYearKey LocalTZA (Some t) = Return key /\ well_formed_key key = true.
Proof.
  intros Hy. eexists. split; [reflexivity |].
  pose proof (MonthFromTime_range (LocalTime LocalTZA t)) as Hm.
  fold (getMonth LocalTZA t) in Hm.
  pose proof keys_of_four_digit_years as H.
  rewrite forallb_forall in H.
  specialize (H (getFullYear LocalTZA t)
                (In_numbers_from 1000 9000 (getFullYear LocalTZA t) ltac:(lia))).
  rewrite forallb_forall in H.
  exact (H (getMonth LocalTZA t + 1)
           (In_numbers_from 1 12 (getMonth LocalTZA t + 1) ltac:(lia))).
Qed.

Lemma key_of_date_well_formed_witness :
  exists key,
    getMonthYearKey (fun _ => 0) (Some 1736899200000) = Return key /\
    well_formed_key key = true.
Proof.
  apply (key_of_date_well_formed (fun _ => 0) 1736899200000).
  vm_compute. split; discriminate.
Defined.

(** The form is lost outside these years: the year 999 gives a key of six
    characters. *)
Example key_of_year_999 :
  getMonthYearKey (fun _ => 0) (Some (Date.MakeDate 999 4 1)) = Return "999-05"%string.
Proof. reflexivity. Qed.

(** ** The tiers of the breakdown *)

(** X8.  For a well-formed amount that [isValidAmount] accepts: the low
    tier of the breakdown is never above 50; up to 50 both tiers are zero;
    up to 100 the high tier is zero; above 100 the low tier is exactly
    50. *)
Theorem breakdown_tiers (a : number) :
  Num.wf a = true -> isValidAmount (VNum a) = true ->
  Num.leb (lowTier (getPointsBreakdown (VNum a))) (Num.of_Z 50) = true /\
  (Num.leb a (Num.of_Z 50) = true ->
   getPointsBreakdown (VNum a) = {| highTier := zero; lowTier := zero |}) /\
  (Num.leb a (Num.of_Z 100) = true ->
   highTier (getPointsBreakdown (VNum a)) = zero) /\
  (Num.ltb (Num.of_Z 100) a = true ->
   lowTier (getPointsBreakdown (VNum a)) = Num.of_Z 50).
Proof.
  intros Hw Hv. pose proof (valid_nn a Hw Hv) as Ha.
  assert (L50 : Num.leb a (Num.of_Z 50) = true <-> fval a <= V50)
    by (apply leb_fval; [assumption | reflexivity]).
  assert (L100 : Num.leb a (Num.of_Z 100) = true <-> fval a <= V100)
    by (apply leb_fval; [assumption | reflexivity]).
  assert (G100 : Num.ltb (Num.of_Z 100) a = true <-> V100 < fval a)
    by (apply ltb_fval; [reflexivity | assumption]).
  pose proof V50_pos as P. pose proof V100_eq as E.
  destruct (Z_le_gt_dec (fval a) V50) as [H1 | H1].
  - rewrite (breakdown_low a Ha H1). cbn [highTier lowTier].
    repeat split; try reflexivity. intros H. apply G100 in H. lia.
  - destruct (Z_le_gt_dec (fval a) V100) as [H2 | H2].
    + destruct (breakdown_mid a Ha ltac:(lia) H2) as (Hb & Hn & _ & Hle).
      rewrite Hb. cbn [highTier lowTier].
      destruct (floor_mono _ _ Hn nn_50 Hle) as (_ & _ & L).
      change (Num.Math_floor (Num.of_Z 50)) with (Num.of_Z 50) in L.
      split; [exact L |]. split; [intros H; apply L50 in H; lia |].
      split; [reflexivity |]. intros H. apply G100 in H. lia.
    + assert (Hlt : Num.ltb HIGH_THRESHOLD a = true) by (apply ltb_100; [assumption | lia]).
      rewrite breakdown_high
        by (assumption || (apply nn_not_nan; assumption) || (apply nn_not_invalid; assumption)).
      cbn [highTier lowTier].
      split; [reflexivity |]. split; [intros H; apply L50 in H; lia |].
      split; [intros H; apply L100 in H; lia | reflexivity].
Qed.

Lemma breakdown_tiers_witness :
  Num.leb (lowTier (getPointsBreakdown (VNum (Num.of_Z 120)))) (Num.of_Z 50) = true /\
  lowTier (getPointsBreakdown (VNum (Num.of_Z 120))) = Num.of_Z 50 /\
  highTier (getPointsBreakdown (VNum (Num.of_Z 75))) = zero.
Proof.
  split; [| split].
  - exact (proj1 (breakdown_tiers (Num.of_Z 120) eq_refl eq_refl)).
  - apply (proj2 (proj2 (proj2 (breakdown_tiers (Num.of_Z 120) eq_refl eq_refl)))).
    reflexivity.
  - apply (proj1 (proj2 (proj2 (breakdown_tiers (Num.of_Z 75) eq_refl eq_refl)))).
    reflexivity.
Defined.

(** ** Whole amounts *)

Lemma decode_of_Z (k : Z) : 0 < k -> decode false (k * 2 ^ B) = Num.of_Z k.
Proof.
  intros H. unfold Num.of_Z. rewrite binary_normalize_pos by (unfold B; lia).
  reflexivity.
Qed.

(** A whole number below 2^53 is a number, exactly. *)
Lemma of_Z_exact (n : Z) :
  0 < n -> n < 2 ^ 53 ->
  exists m e,
    Num.of_Z n = S754_finite false m e /\
    nn (S754_finite false m e) = true /\
    Zpos m * 2 ^ (e + B) = n * 2 ^ B /\
    (e < 0 -> Zpos m / 2 ^ (- e) = n) /\ (0 <= e -> Zpos m = n /\ e = 0).
Proof.
  intros Hn Hlt.
  destruct (decode_nn_ord (n * 2 ^ B)) as [Hnn _].
  { apply Z.mul_nonneg_nonneg; [lia | apply Z.pow_nonneg; lia]. }
  rewrite decode_of_Z in Hnn by assumption.
  pose proof (of_Z_small n ltac:(lia) Hlt) as Hz.
  destruct (Num.of_Z n) as [s | s | | s m e] eqn:E; try discriminate Hz.
  - unfold Num.to_Z in Hz. assert (0 = n) by congruence. lia.
  - destruct s; [discriminate Hnn |].
    exists m, e. split; [reflexivity |]. split; [exact Hnn |].
    pose proof (nn_finite_bounds m e Hnn) as (He & _).
    unfold Num.to_Z, cond_Zopp in Hz.
    destruct (Z.leb_spec 0 e) as [H0 | H0].
    + assert (Hz' : Zpos m * 2 ^ e = n) by congruence. clear Hz. rename Hz' into Hz.
      pose proof (nn_finite_bounds m e Hnn) as (_ & Hm & _).
      assert (e = 0).
      { destruct (Z.eq_dec e 0) as [-> | Hne]; [reflexivity |].
        exfalso.
        assert (2 ^ 1 <= 2 ^ e) by (apply Z.pow_le_mono_r; lia).
        destruct (nn_finite_bounds m e Hnn) as (_ & _ & H52 & _).
        specialize (H52 ltac:(lia)).
        change (2 ^ 1) with 2 in *. change (2 ^ 52) with 4503599627370496 in *.
        change (2 ^ 53) with 9007199254740992 in *. nia. }
      subst e. change (2 ^ 0) with 1 in Hz. rewrite Z.mul_1_r in Hz.
      split; [rewrite Hz; reflexivity |].
      split; [intros; lia | intros _; split; [exact Hz | reflexivity]].
    + destruct (Z.eqb_spec (Zpos m mod 2 ^ (- e)) 0) as [Hmod | Hmod]; [| discriminate Hz].
      assert (Hz' : Zpos m / 2 ^ (- e) = n) by congruence. clear Hz. rename Hz' into Hz.
      split; [| split; [intros _; exact Hz | intros; lia]].
      pose proof (pow2_pos (- e) ltac:(lia)) as Pe.
      pose proof (Z.div_mod (Zpos m) (2 ^ (- e)) ltac:(lia)) as Hdm.
      rewrite Hmod, Hz, Z.add_0_r in Hdm. rewrite Hdm.
      replace (2 ^ B) with (2 ^ (- e) * 2 ^ (e + B)).
      * ring.
      * rewrite <- Z.pow_add_r by (unfold B; lia). f_equal. lia.
Qed.

Lemma fval_of_Z (n : Z) :
  0 <= n -> n < 2 ^ 53 -> nn (Num.of_Z n) = true /\ fval (Num.of_Z n) = n * 2 ^ B.
Proof.
  intros H0 Hlt. destruct (Z.eq_dec n 0) as [-> | Hne]; [split; reflexivity |].
  destruct (of_Z_exact n ltac:(lia) Hlt) as (m & e & -> & Hnn & Hv & _).
  split; [exact Hnn | exact Hv].
Qed.

Lemma floor_of_Z (n : Z) :
  0 <= n -> n < 2 ^ 53 -> Num.Math_floor (Num.of_Z n) = Num.of_Z n.
Proof.
  intros H0 Hlt. destruct (Z.eq_dec n 0) as [-> | Hne]; [reflexivity |].
  destruct (of_Z_exact n ltac:(lia) Hlt) as (m & e & E & Hnn & Hv & Hneg & Hpos).
  rewrite E. cbn [Num.Math_floor cond_Zopp].
  destruct (Z.leb_spec 0 e) as [H | H]; [reflexivity |].
  rewrite (Hneg H). exact E.
Qed.

Lemma sub_of_Z (n k : Z) :
  0 < k -> k < n -> n < 2 ^ 53 ->
  Num.sub (Num.of_Z n) (Num.of_Z k) = Num.of_Z (n - k).
Proof.
  intros Hk Hkn Hn.
  destruct (of_Z_exact n ltac:(lia) Hn) as (mn & en & En & Nn & Vn & _).
  destruct (of_Z_exact k Hk ltac:(lia)) as (mk & ek & Ek & Nk & Vk & _).
  rewrite En, Ek. unfold Num.sub. rewrite SFsub_finite by assumption. cbv zeta.
  cbn [fval]. rewrite Vn, Vk, <- Z.mul_sub_distr_r.
  pose proof (pow2_pos B ltac:(unfold B; lia)) as P.
  destruct (Z.ltb_spec 0 ((n - k) * 2 ^ B)); [| nia].
  apply decode_of_Z. lia.
Qed.

Lemma add_of_Z (n k : Z) :
  0 < n -> 0 < k -> n < 2 ^ 53 -> k < 2 ^ 53 ->
  Num.add (Num.of_Z n) (Num.of_Z k) = Num.of_Z (n + k).
Proof.
  intros Hn0 Hk0 Hn Hk.
  destruct (of_Z_exact n Hn0 Hn) as (mn & en & En & Nn & Vn & _).
  destruct (of_Z_exact k Hk0 Hk) as (mk & ek & Ek & Nk & Vk & _).
  rewrite En, Ek. unfold Num.add. rewrite SFadd_finite by assumption.
  cbn [fval]. rewrite Vn, Vk, <- Z.mul_add_distr_r.
  apply decode_of_Z. lia.
Qed.

Lemma double_of_Z (n : Z) :
  0 < n -> n < 2 ^ 53 ->
  Num.mul (Num.of_Z n) (Num.of_Z 2) = Num.of_Z (2 * n).
Proof.
  intros Hn0 Hn.
  destruct (of_Z_exact n Hn0 Hn) as (m & e & E & Nn & Vn & _).
  pose proof (nn_finite_bounds m e Nn) as (He & _).
  rewrite E, two_eq. unfold Num.mul.
  rewrite SFmul_pow2 by (exact Nn || lia).
  replace (e + -51 + 52 + B) with (Z.succ (e + B)) by lia.
  rewrite Z.pow_succ_r by (unfold B; lia).
  replace (Zpos m * (2 * 2 ^ (e + B))) with (2 * (Zpos m * 2 ^ (e + B))) by ring.
  rewrite Vn. rewrite Z.mul_assoc. apply decode_of_Z. lia.
Qed.

(** X9.  On a whole amount [n] below 2^52 the points are exactly those of
    the rule: 0 up to 50, [n - 50] up to 100, [2 * (n - 100) + 50] above. *)
Theorem points_of_whole_amount (n : Z) :
  0 <= n -> n < 2 ^ 52 ->
  calculatePointsForTransaction (VNum (Num.of_Z n)) = Return (Num.of_Z (rule_points n)).
Proof.
  intros H0 Hlt.
  assert (H53 : n < 2 ^ 53) by (change (2 ^ 52) with 4503599627370496 in Hlt;
                                 change (2 ^ 53) with 9007199254740992; lia).
  destruct (fval_of_Z n H0 H53) as [Nn Vn].
  assert (E50 : V50 = 50 * 2 ^ B) by reflexivity.
  assert (E100 : V100 = 100 * 2 ^ B) by reflexivity.
  pose proof (pow2_pos B ltac:(unfold B; lia)) as P.
  unfold rule_points.
  destruct (Z.leb_spec n 50) as [L1 | L1].
  - apply points_low; [assumption |]. rewrite Vn, E50. nia.
  - destruct (Z.leb_spec n 100) as [L2 | L2].
    + rewrite points_mid by (assumption || (rewrite Vn; nia)).
      change LOW_THRESHOLD with (Num.of_Z 50).
      rewrite sub_of_Z by lia.
      rewrite floor_of_Z by (change (2 ^ 53) with 9007199254740992; lia). reflexivity.
    + rewrite points_high.
      * unfold highPoints. change HIGH_THRESHOLD with (Num.of_Z 100).
        change HIGH_MULTIPLIER with (Num.of_Z 2).
        change (2 ^ 52) with 4503599627370496 in Hlt.
        rewrite sub_of_Z by lia.
        rewrite double_of_Z by (change (2 ^ 53) with 9007199254740992; lia).
        rewrite floor_of_Z by (change (2 ^ 53) with 9007199254740992; lia).
        rewrite add_of_Z by (change (2 ^ 53) with 9007199254740992; lia).
        reflexivity.
      * apply nn_not_nan; assumption.
      * apply ltb_100; [assumption |]. rewrite Vn, E100. nia.
      * apply nn_not_invalid; assumption.
Qed.

Lemma points_of_whole_amount_witness :
  calculatePointsForTransaction (VNum (Num.of_Z 1000)) = Return (Num.of_Z 1850).
Proof.
  apply (points_of_whole_amount 1000); [lia | reflexivity].
Defined.

(** * Properties of the pagination manager *)

Import Pagination PaginationSpec.

Lemma ceil_div_bounds (n k : Z) :
  0 <= n -> 1 <= k ->
  0 <= ceil_div n k /\ n <= ceil_div n k * k /\
  (0 < n -> (ceil_div n k - 1) * k < n) /\ (n = 0 -> ceil_div n k = 0).
Proof.
  intros Hn Hk. unfold ceil_div.
  pose proof (Z.div_mod n k ltac:(lia)) as Hdm.
  pose proof (Z.mod_pos_bound n k ltac:(lia)) as Hm.
  assert (0 <= n / k) by (apply Z.div_pos; lia).
  destruct (Z.eqb_spec (n mod k) 0) as [E | E].
  - repeat split; try nia; try (intros ->; apply Z.div_0_l; lia).
  - repeat split; try nia;
      try (intros ->; rewrite Z.mod_0_l in E by lia; contradiction).
Qed.

Lemma consistent_new : consistent new.
Proof.
  exists TRANSACTIONS_PER_PAGE. split; [reflexivity |].
  vm_compute. repeat split; intros H; discriminate H.
Qed.

Ltac pages_facts s :=
  match goal with
  | H : consistent s |- _ =>
      let k := fresh "k" in
      let Hs := fresh "Hsize" in
      let Hk := fresh "Hk" in let Hn := fresh "Hn" in let Hb := fresh "Hb" in
      let Hp := fresh "Hp" in let Hc := fresh "Hc" in
      destruct H as (k & Hs & Hk & Hn & Hb & Hp & Hc)
  end.

Lemma Math_min_Int (a b : Z) : Math_min (Int a) (Int b) = Int (Z.min a b).
Proof.
  unfold Math_min. cbn [isNaN orb ltb].
  destruct (Z.ltb_spec b a); f_equal; lia.
Qed.

(** With a whole page size the page is cut out by whole indices. *)
Lemma getCurrentPageData_whole (s : state) (k : Z) :
  itemsPerPage s = Whole k ->
  getCurrentPageData s =
  match data s with
  | [] => []
  | _ =>
      slice (data s) (Int ((currentPage s - 1) * k))
            (Int (Z.min ((currentPage s - 1) * k + k) (totalItems s)))
  end.
Proof.
  intros Hs. unfold getCurrentPageData. rewrite Hs. cbn [to_num mul add].
  rewrite Math_min_Int. reflexivity.
Qed.

Lemma goToPage_Int (s : state) (p : Z) :
  goToPage s (Int p) =
  if (p <? 1) || (totalPages s <? p) then s
  else if p =? currentPage s then s else set_page s p.
Proof. reflexivity. Qed.

Lemma goToPage_consistent (s : state) (page : num) :
  consistent s -> consistent (goToPage s page).
Proof.
  intros Hs. destruct page as [ | | | p]; try exact Hs.
  rewrite goToPage_Int.
  destruct (Z.ltb_spec p 1); cbn [orb]; [exact Hs |].
  destruct (Z.ltb_spec (totalPages s) p); [exact Hs |].
  destruct (p =? currentPage s); [exact Hs |].
  pages_facts s. exists k. unfold set_page; cbn.
  repeat split; try assumption; lia.
Qed.

(** X10.  The fields of a pagination manager stay consistent: the page
    size is a whole number from 1 and below 2^53, the number of items is
    the length of the data and below 2^32, the number of pages is that
    length divided by the page size, rounded up, and the current page lies
    between 1 and the number of pages (1 when there is none).  The
    constructor establishes this.  [initialize] and [updateData] keep it
    on an array of fewer than 2^32 elements and change nothing on
    anything else; the methods that move between pages and [reset] keep
    it on every argument; [setItemsPerPage] keeps it on a whole size below
    2^53 and on a size that is NaN or below 1, which it refuses, changing
    nothing. *)
Theorem pagination_stays_consistent :
  consistent new /\
  forall s, consistent s ->
    (forall items, len items < 2 ^ 32 ->
       consistent (initialize s (VArr items)) /\
       consistent (updateData s (VArr items))) /\
    (forall d, Array_isArray d = false -> initialize s d = s /\ updateData s d = s) /\
    (forall page, consistent (goToPage s page)) /\
    consistent (goToNextPage s) /\ consistent (goToPreviousPage s) /\
    consistent (goToFirstPage s) /\ consistent (goToLastPage s) /\
    consistent (reset s) /\
    (forall k, 1 <= k < 2 ^ 53 -> consistent (setItemsPerPage s (Int k))) /\
    (forall items, isNaN items = true \/ ltb items (Int 1) = true ->
       setItemsPerPage s items = s).
Proof.
  split; [exact consistent_new |]. intros s Hs.
  split; [| split; [| split; [| split; [| split; [| split; [| split;
    [| split; [| split]]]]]]]].
  - intros items Hd. pages_facts s. unfold len in *.
    pose proof (ceil_div_bounds (Z.of_nat (List.length items)) k
                  ltac:(lia) ltac:(lia)) as (C0 & _).
    split; exists k; unfold initialize, updateData, DEFAULT_PAGE, len; cbn;
      rewrite Hsize; cbn [pages_of].
    + repeat split; try assumption; try lia.
    + repeat split; try assumption; try lia;
        destruct (Z.ltb_spec (ceil_div (Z.of_nat (List.length items)) k)
                             (currentPage s)),
                 (Z.ltb_spec 0 (ceil_div (Z.of_nat (List.length items)) k));
        cbn [andb]; try lia;
        destruct (Z.eqb_spec (ceil_div (Z.of_nat (List.length items)) k) 0);
        lia.
  - intros d Hd. destruct d; try discriminate Hd; split; reflexivity.
  - intros page. apply goToPage_consistent. exact Hs.
  - unfold goToNextPage. destruct (hasNextPage s);
      [apply goToPage_consistent |]; exact Hs.
  - unfold goToPreviousPage. destruct (hasPreviousPage s);
      [apply goToPage_consistent |]; exact Hs.
  - apply goToPage_consistent. exact Hs.
  - apply goToPage_consistent. exact Hs.
  - pages_facts s. exists k. unfold reset, set_page, DEFAULT_PAGE; cbn.
    repeat split; try assumption; lia.
  - intros k' Hk'. unfold setItemsPerPage. cbn [isNaN ltb orb].
    destruct (Z.ltb_spec k' 1); [lia |].
    pages_facts s.
    pose proof (ceil_div_bounds (totalItems s) k' ltac:(unfold len in *; lia)
                  ltac:(lia)) as (C0 & _).
    exists k'. cbn. repeat split; try assumption; try lia;
      destruct (Z.ltb_spec (ceil_div (totalItems s) k') (currentPage s)); lia.
  - intros items [H | H]; unfold setItemsPerPage; rewrite H;
      [| rewrite orb_true_r]; reflexivity.
Qed.

Lemma pagination_stays_consistent_witness :
  consistent (initialize new (VArr [VNull; VNull; VNull])) /\
  consistent (setItemsPerPage (initialize new (VArr [VNull; VNull; VNull])) (Int 2)) /\
  initialize new (VStr "none") = new /\
  setItemsPerPage new (Int 0) = new.
Proof.
  pose proof (proj2 pagination_stays_consistent new (proj1 pagination_stays_consistent))
    as (Hinit & Hrefuse & _ & _ & _ & _ & _ & _ & _ & Hsmall).
  assert (H3 : len [VNull; VNull; VNull] < 2 ^ 32) by reflexivity.
  assert (Hs : consistent (initialize new (VArr [VNull; VNull; VNull])))
    by exact (proj1 (Hinit [VNull; VNull; VNull] H3)).
  split; [exact Hs |]. split; [| split].
  - pose proof (proj2 pagination_stays_consistent _ Hs)
      as (_ & _ & _ & _ & _ & _ & _ & _ & Hsize & _).
    apply Hsize. split; [lia | reflexivity].
  - exact (proj1 (Hrefuse (VStr "none") eq_refl)).
  - apply Hsmall. right. reflexivity.
Defined.

(** X17.  A page size that is [Infinity], which [parseInt] returns on a
    numeral beyond the range of numbers, is not refused: [setItemsPerPage]
    stores it, the number of pages becomes 0 and the current page 1, and
    from then on no page shows anything: [getCurrentPageData] is empty,
    whatever the data, also after [updateData] or [initialize] with a new
    array, and [goToPage] goes nowhere. *)
Theorem infinite_page_size_shows_nothing (s : state) :
  1 <= currentPage s ->
  let s' := setItemsPerPage s Infinity in
  itemsPerPage s' = Infinite /\ totalPages s' = 0 /\ currentPage s' = 1 /\
  data s' = data s /\ totalItems s' = totalItems s /\
  getCurrentPageData s' = [] /\
  (forall page, goToPage s' page = s') /\
  (forall items,
     getCurrentPageData (updateData s' (VArr items)) = [] /\
     getCurrentPageData (initialize s' (VArr items)) = [] /\
     totalPages (updateData s' (VArr items)) = 0 /\
     totalPages (initialize s' (VArr items)) = 0).
Proof.
  intros Hc s'. unfold s', setItemsPerPage. cbn [isNaN ltb orb pages_of].
  destruct (Z.ltb_spec 0 (currentPage s)) as [_ | H]; [| lia].
  change (Z.max 1 0) with 1.
  assert (Hempty : forall l : list value,
             match l with
             | [] => []
             | _ => slice l (mul (Int (1 - 1)) Infinity)
                          (Math_min (add (mul (Int (1 - 1)) Infinity) Infinity)
                                    (Int (len l)))
             end = []).
  { intros [| x l]; reflexivity. }
  repeat split.
  - unfold getCurrentPageData; cbn [data currentPage itemsPerPage totalItems to_num].
    destruct (data s) as [| x l]; reflexivity.
  - intros page. unfold goToPage; cbn [totalPages].
    destruct page as [ | | | p]; try reflexivity. cbn [isNaN ltb orb].
    destruct (Z.ltb_spec p 1); [reflexivity |].
    destruct (Z.ltb_spec 0 p); [reflexivity | lia].
  - unfold getCurrentPageData, updateData;
      cbn [data currentPage itemsPerPage totalItems to_num pages_of].
    destruct items; reflexivity.
  - unfold getCurrentPageData, initialize, DEFAULT_PAGE;
      cbn [data currentPage itemsPerPage totalItems to_num pages_of].
    destruct items; reflexivity.
Qed.

Lemma infinite_page_size_shows_nothing_witness :
  let s := initialize new (VArr [VNull; VNull; VNull]) in
  1 <= currentPage s /\
  data (setItemsPerPage s Infinity) = [VNull; VNull; VNull] /\
  getCurrentPageData (setItemsPerPage s Infinity) = [].
Proof.
  intros s. assert (H : 1 <= currentPage s) by (vm_compute; intros E; discriminate E).
  split; [exact H |].
  pose proof (infinite_page_size_shows_nothing s H) as (_ & _ & _ & Hd & _ & He & _).
  split; [exact Hd | exact He].
Defined.

Lemma firstn_add {A : Type} (a b : nat) (l : list A) :
  firstn (a + b) l = firstn a l ++ firstn b (skipn a l).
Proof.
  revert l. induction a as [| a IH]; intros l; [reflexivity |].
  destruct l as [| x l]; cbn [Nat.add firstn skipn app].
  - destruct b; reflexivity.
  - rewrite IH. reflexivity.
Qed.

Lemma concat_chunks {A : Type} (l : list A) (k m : nat) :
  List.concat (map (fun i => firstn k (skipn (i * k) l)) (seq 0 m)) = firstn (m * k) l.
Proof.
  induction m as [| m IH]; [reflexivity |].
  rewrite seq_S, map_app, concat_app, IH. cbn [Nat.add map List.concat].
  rewrite app_nil_r. replace (S m * k)%nat with (m * k + k)%nat by lia.
  symmetry. apply firstn_add.
Qed.

Lemma firstn_min_length {A : Type} (a : nat) (l : list A) :
  firstn (Nat.min a (List.length l)) l = firstn a l.
Proof.
  destruct (Nat.le_ge_cases a (List.length l)) as [H | H].
  - rewrite Nat.min_l by exact H. reflexivity.
  - rewrite Nat.min_r by exact H. rewrite !firstn_all2 by lia. reflexivity.
Qed.

(** A page of a non-empty array, with the indices in range, is a chunk of
    [k] elements at most. *)
Lemma slice_chunk {A : Type} (l : list A) (i k : nat) :
  (i * k <= List.length l)%nat ->
  slice l (Int (Z.of_nat i * Z.of_nat k))
          (Int (Z.min (Z.of_nat i * Z.of_nat k + Z.of_nat k) (len l))) =
  firstn k (skipn (i * k) l).
Proof.
  intros Hi. unfold slice, relative_index, len.
  destruct (Z.ltb_spec (Z.of_nat i * Z.of_nat k) 0); [lia |].
  destruct (Z.ltb_spec (Z.min (Z.of_nat i * Z.of_nat k + Z.of_nat k)
                              (Z.of_nat (List.length l))) 0); [lia |].
  replace (Z.to_nat (Z.min (Z.of_nat i * Z.of_nat k) (Z.of_nat (List.length l))))
    with (i * k)%nat by lia.
  rewrite <- (firstn_min_length k). rewrite length_skipn.
  f_equal. lia.
Qed.

Lemma page_chunk (s : state) (i : nat) (k : Z) :
  consistent s -> itemsPerPage s = Whole k ->
  (i < Z.to_nat (totalPages s))%nat ->
  page s (1 + Z.of_nat i) =
  firstn (Z.to_nat k) (skipn (i * Z.to_nat k) (data s)).
Proof.
  intros Hs Hsz Hi. pages_facts s. rewrite Hsz in Hsize. injection Hsize as <-.
  unfold page. rewrite (getCurrentPageData_whole _ k) by exact Hsz.
  unfold set_page. cbn [currentPage itemsPerPage totalItems data].
  pose proof (ceil_div_bounds (totalItems s) k
                ltac:(unfold len in *; lia) ltac:(lia)) as (C0 & C1 & C2 & C3).
  rewrite <- Hp in *.
  destruct (data s) as [| x l] eqn:Ed.
  - cbn in Hn. specialize (C3 Hn). lia.
  - rewrite Hn.
    replace (1 + Z.of_nat i - 1) with (Z.of_nat i) by lia.
    assert (Hpos : 0 < totalItems s) by (rewrite Hn; unfold len; cbn [List.length]; lia).
    specialize (C2 Hpos).
    pose proof (slice_chunk (x :: l) i (Z.to_nat k)) as Hsl.
    rewrite Z2Nat.id in Hsl by lia. apply Hsl.
    unfold len in Hn. nia.
Qed.

(** X11.  The pages partition the data: for consistent fields, the slices
    [getCurrentPageData] returns on the pages 1 to [totalPages], in this
    order, make up the data array, with no element lost or repeated. *)
Theorem pages_partition_data (s : state) :
  consistent s -> List.concat (map (page s) (pages s)) = data s.
Proof.
  intros Hs. assert (Hs' := Hs). pages_facts s.
  unfold pages, numbers_from. rewrite map_map.
  rewrite (map_ext_in _
             (fun i => firstn (Z.to_nat k) (skipn (i * Z.to_nat k) (data s)))).
  - rewrite concat_chunks. apply firstn_all2.
    pose proof (ceil_div_bounds (totalItems s) k
                  ltac:(unfold len in *; lia) ltac:(lia)) as (C0 & C1 & _).
    rewrite <- Hp in *. unfold len in Hn. nia.
  - intros i Hi. apply in_seq in Hi. apply page_chunk; [assumption | exact Hsize | lia].
Qed.

Lemma pages_partition_data_witness :
  let s := setItemsPerPage (initialize new (VArr [VNum (Num.of_Z 1); VNum (Num.of_Z 2);
                                                   VNum (Num.of_Z 3)])) (Int 2) in
  consistent s /\ List.concat (map (page s) (pages s)) = data s.
Proof.
  intros s.
  assert (Hs : consistent s).
  { exists 2. split; [reflexivity |].
    vm_compute. repeat split; intros H; discriminate H. }
  split; [exact Hs | exact (pages_partition_data s Hs)].
Defined.

(** X12.  For consistent fields over a non-empty array, the current page
    holds between one and [itemsPerPage] elements, and they are the items
    numbered [startItem] to [endItem] by [getPaginationInfo], which are
    whole numbers: the slice is the data from index [startItem - 1] up to
    [endItem], and its length is [endItem - startItem + 1]. *)
Theorem page_matches_info (s : state) :
  consistent s -> 0 < totalItems s ->
  let i := getPaginationInfo s in
  exists k first last,
    itemsPerPage s = Whole k /\ startItem i = Int first /\ endItem i = Int last /\
    getCurrentPageData s =
      firstn (Z.to_nat (last - first + 1)) (skipn (Z.to_nat (first - 1)) (data s)) /\
    len (getCurrentPageData s) = last - first + 1 /\
    1 <= len (getCurrentPageData s) <= k /\
    1 <= first <= last /\ last <= totalItems s.
Proof.
  intros Hs Hpos. pages_facts s.
  pose proof (ceil_div_bounds (totalItems s) k
                ltac:(lia) ltac:(lia)) as (C0 & C1 & C2 & C3).
  rewrite <- Hp in *. specialize (C2 Hpos).
  assert (Hlt : (currentPage s - 1) * k < totalItems s) by nia.
  assert (E : getCurrentPageData s =
              firstn (Z.to_nat (Z.min (currentPage s * k) (totalItems s)
                                - (currentPage s - 1) * k))
                     (skipn (Z.to_nat ((currentPage s - 1) * k)) (data s))).
  { rewrite (getCurrentPageData_whole s k Hsize).
    destruct (data s) as [| x l] eqn:Ed.
    - cbn in Hn. lia.
    - rewrite <- Ed in *. unfold slice, relative_index. rewrite <- Hn.
      destruct (Z.ltb_spec ((currentPage s - 1) * k) 0); [nia |].
      destruct (Z.ltb_spec (Z.min ((currentPage s - 1) * k + k)
                                  (totalItems s)) 0); [nia |].
      f_equal; [| f_equal]; nia. }
  cbn zeta. unfold getPaginationInfo; cbn [startItem endItem].
  rewrite Hsize. cbn [to_num mul add]. rewrite Math_min_Int.
  destruct (Z.ltb_spec 0 (totalItems s)); [| lia].
  assert (L : len (getCurrentPageData s) =
              Z.min (currentPage s * k) (totalItems s)
              - ((currentPage s - 1) * k + 1) + 1).
  { rewrite E. unfold len. rewrite length_firstn, length_skipn.
    unfold len in Hn. nia. }
  exists k, ((currentPage s - 1) * k + 1), (Z.min (currentPage s * k) (totalItems s)).
  split; [reflexivity |]. split; [reflexivity |]. split; [reflexivity |].
  split; [| split; [exact L | rewrite L; nia]].
  rewrite E. f_equal; [| f_equal]; nia.
Qed.

Lemma page_matches_info_witness :
  let s := goToPage (setItemsPerPage (initialize new (VArr [VNull; VNull; VNull]))
                                     (Int 2)) (Int 2) in
  consistent s /\ 0 < totalItems s /\
  startItem (getPaginationInfo s) = Int 3 /\ endItem (getPaginationInfo s) = Int 3 /\
  len (getCurrentPageData s) = 1.
Proof.
  intros s.
  assert (Hs : consistent s).
  { exists 2. split; [reflexivity |].
    vm_compute. repeat split; intros H; discriminate H. }
  assert (Hpos : 0 < totalItems s) by reflexivity.
  split; [exact Hs | split; [exact Hpos |]].
  destruct (page_matches_info s Hs Hpos)
    as (k & first & last & _ & Hf & Hl & _ & Hlen & _).
  vm_compute in Hf, Hl. injection Hf as <-. injection Hl as <-.
  split; [reflexivity |]. split; [reflexivity |]. exact Hlen.
Defined.

Lemma set_page_current (s : state) : set_page s (currentPage s) = s.
Proof. destruct s; reflexivity. Qed.

Lemma set_page_set_page (s : state) (p q : Z) : set_page (set_page s p) q = set_page s q.
Proof. reflexivity. Qed.

(** X13.  [goToPage] moves to a page exactly when its number lies between
    1 and [totalPages]; any other request, a number that does not parse
    or an infinity included, leaves every field as it was, and no request
    changes a field other than [currentPage]. *)
Theorem goToPage_accepts_pages_only (s : state) (page : num) :
  (match page with
   | Int p =>
       if (1 <=? p) && (p <=? totalPages s)
       then currentPage (goToPage s page) = p
       else goToPage s page = s
   | _ => goToPage s page = s
   end) /\
  set_page (goToPage s page) (currentPage s) = s.
Proof.
  destruct page as [ | | | p];
    try (split; [reflexivity | apply set_page_current]).
  rewrite goToPage_Int.
  destruct (Z.leb_spec 1 p), (Z.ltb_spec p 1); try lia; cbn [andb orb];
    [| split; [reflexivity | apply set_page_current]].
  destruct (Z.leb_spec p (totalPages s)), (Z.ltb_spec (totalPages s) p); try lia;
    [| split; [reflexivity | apply set_page_current]].
  destruct (Z.eqb_spec p (currentPage s)) as [E | E].
  - split; [symmetry; exact E | apply set_page_current].
  - split; [reflexivity |]. rewrite set_page_set_page. apply set_page_current.
Qed.

(** X14.  Stepping forth and back returns to the same fields: where there
    is a next page, [goToNextPage] then [goToPreviousPage] restores the
    manager, and where there is a previous page, [goToPreviousPage] then
    [goToNextPage] does; at the last page [goToNextPage] changes nothing
    and at the first [goToPreviousPage] changes nothing. *)
Theorem next_previous_round_trip (s : state) :
  consistent s ->
  (if hasNextPage s then goToPreviousPage (goToNextPage s) = s else goToNextPage s = s) /\
  (if hasPreviousPage s then goToNextPage (goToPreviousPage s) = s
   else goToPreviousPage s = s).
Proof.
  intros Hs. pages_facts s. split.
  - unfold goToNextPage. destruct (hasNextPage s) eqn:Hnx; [| reflexivity].
    unfold hasNextPage in Hnx. apply Z.ltb_lt in Hnx. rewrite goToPage_Int.
    destruct (Z.ltb_spec (currentPage s + 1) 1); [lia |]; cbn [orb].
    destruct (Z.ltb_spec (totalPages s) (currentPage s + 1)); [lia |].
    destruct (Z.eqb_spec (currentPage s + 1) (currentPage s)); [lia |].
    unfold goToPreviousPage, hasPreviousPage. cbn [currentPage set_page].
    destruct (Z.ltb_spec 1 (currentPage s + 1)); [| lia].
    rewrite goToPage_Int. cbn [currentPage totalPages set_page].
    destruct (Z.ltb_spec (currentPage s + 1 - 1) 1); [lia |]; cbn [orb].
    destruct (Z.ltb_spec (totalPages s) (currentPage s + 1 - 1)); [lia |].
    destruct (Z.eqb_spec (currentPage s + 1 - 1) (currentPage s + 1)); [lia |].
    rewrite set_page_set_page. replace (currentPage s + 1 - 1) with (currentPage s) by lia.
    apply set_page_current.
  - unfold goToPreviousPage. destruct (hasPreviousPage s) eqn:Hpv; [| reflexivity].
    unfold hasPreviousPage in Hpv. apply Z.ltb_lt in Hpv. rewrite goToPage_Int.
    destruct (Z.ltb_spec (currentPage s - 1) 1); [lia |]; cbn [orb].
    destruct (Z.ltb_spec (totalPages s) (currentPage s - 1)); [lia |].
    destruct (Z.eqb_spec (currentPage s - 1) (currentPage s)); [lia |].
    unfold goToNextPage, hasNextPage. cbn [currentPage totalPages set_page].
    destruct (Z.ltb_spec (currentPage s - 1) (totalPages s)); [| lia].
    rewrite goToPage_Int. cbn [currentPage totalPages set_page].
    destruct (Z.ltb_spec (currentPage s - 1 + 1) 1); [lia |]; cbn [orb].
    destruct (Z.ltb_spec (totalPages s) (currentPage s - 1 + 1)); [lia |].
    destruct (Z.eqb_spec (currentPage s - 1 + 1) (currentPage s - 1)); [lia |].
    rewrite set_page_set_page. replace (currentPage s - 1 + 1) with (currentPage s) by lia.
    apply set_page_current.
Qed.

Lemma next_previous_round_trip_witness :
  let s := setItemsPerPage (initialize new (VArr [VNull; VNull; VNull])) (Int 2) in
  consistent s /\ goToPreviousPage (goToNextPage s) = s.
Proof.
  intros s.
  assert (Hs : consistent s).
  { exists 2. split; [reflexivity |].
    vm_compute. repeat split; intros H; discriminate H. }
  split; [exact Hs | exact (proj1 (next_previous_round_trip s Hs))].
Defined.

Lemma numbers_from_length (first n : Z) : len (numbers_from first n) = Z.max 0 n.
Proof. unfold numbers_from, len. rewrite length_map, length_seq. lia. Qed.

(** X15.  The page numbers shown by [getVisiblePageNumbers] are a run of
    consecutive pages: for consistent fields and a limit of at least one,
    the result is [first, first + 1, ...] of length the smaller of
    [totalPages] and the limit, it lies within 1 .. [totalPages], and it
    contains the current page whenever there is a page at all. *)
Theorem visible_pages_window (s : state) (maxVisible : Z) :
  consistent s -> 1 <= maxVisible ->
  exists first,
    getVisiblePageNumbers s maxVisible =
      numbers_from first (Z.min (totalPages s) maxVisible) /\
    1 <= first /\ first + Z.min (totalPages s) maxVisible - 1 <= totalPages s /\
    (1 <= totalPages s ->
     first <= currentPage s < first + Z.min (totalPages s) maxVisible).
Proof.
  intros Hs Hm. pages_facts s.
  pose proof (ceil_div_bounds (totalItems s) k
                ltac:(unfold len in *; lia) ltac:(lia)) as (C0 & _).
  rewrite <- Hp in C0. unfold getVisiblePageNumbers.
  destruct (Z.leb_spec (totalPages s) maxVisible) as [Hle | Hgt].
  - exists 1. rewrite Z.min_l by exact Hle. repeat split; lia.
  - rewrite (Z.min_r (totalPages s) maxVisible) by lia.
    assert (Hh : 0 <= maxVisible / 2 <= maxVisible - 1).
    { split; [apply Z.div_pos; lia |].
      assert (maxVisible / 2 < maxVisible) by (apply Z.div_lt; lia). lia. }
    set (half := maxVisible / 2) in *.
    set (start := Z.max 1 (currentPage s - half)).
    set (finish := Z.min (totalPages s) (start + maxVisible - 1)).
    destruct (Z.ltb_spec (finish - start) (maxVisible - 1)) as [Hadj | Hadj].
    + exists (Z.max 1 (finish - maxVisible + 1)).
      replace (finish - Z.max 1 (finish - maxVisible + 1) + 1) with maxVisible
        by (unfold finish, start in *; lia).
      repeat split; unfold finish, start in *; lia.
    + exists start.
      replace (finish - start + 1) with maxVisible by (unfold finish, start in *; lia).
      repeat split; unfold finish, start in *; lia.
Qed.

Lemma visible_pages_window_witness :
  let s := goToPage (setItemsPerPage
                       (initialize new (VArr (repeat VNull 20))) (Int 2)) (Int 9) in
  consistent s /\ 1 <= 5 /\
  exists first,
    getVisiblePageNumbers s 5 = numbers_from first (Z.min (totalPages s) 5) /\
    1 <= first /\ first + Z.min (totalPages s) 5 - 1 <= totalPages s /\
    (1 <= totalPages s -> first <= currentPage s < first + Z.min (totalPages s) 5).
Proof.
  intros s.
  assert (Hs : consistent s).
  { exists 2. split; [reflexivity |].
    vm_compute. repeat split; intros H; discriminate H. }
  assert (Hm : 1 <= 5) by lia.
  split; [exact Hs | split; [exact Hm |]].
  exact (visible_pages_window s 5 Hs Hm).
Defined.

(** Twenty items, two to a page, the ninth page current, five numbers
    shown: the window is moved back to end at the last page. *)
Example visible_pages_near_the_end :
  getVisiblePageNumbers
    (goToPage (setItemsPerPage (initialize new (VArr (repeat VNull 20))) (Int 2))
              (Int 9)) 5
  = [6; 7; 8; 9; 10].
Proof. reflexivity. Qed.

(** X16.  For consistent fields, paging is needed exactly when the items
    do not fit on one page, and there is a next page exactly when items
    remain after the last one shown: [isPaginationNeeded] holds iff
    [itemsPerPage < totalItems], and [hasNextPage] holds iff the
    [endItem] of [getPaginationInfo] is below [totalItems]. *)
Theorem more_pages_iff_more_items (s : state) :
  consistent s ->
  (isPaginationNeeded s = true <->
   ltb (to_num (itemsPerPage s)) (Int (totalItems s)) = true) /\
  (hasNextPage s = true <->
   ltb (endItem (getPaginationInfo s)) (Int (totalItems s)) = true).
Proof.
  intros Hs. pages_facts s.
  pose proof (ceil_div_bounds (totalItems s) k
                ltac:(unfold len in *; lia) ltac:(lia)) as (C0 & C1 & C2 & C3).
  rewrite <- Hp in *.
  unfold isPaginationNeeded, hasNextPage, getPaginationInfo; cbn [endItem].
  rewrite Hsize. cbn [to_num mul]. rewrite Math_min_Int.
  assert (H0 : 0 <= totalItems s) by (unfold len in Hn; lia).
  split.
  - cbn [ltb]. rewrite !Z.ltb_lt. split; intros H.
    + assert (Hpos : 0 < totalItems s) by lia. specialize (C2 Hpos). nia.
    + nia.
  - destruct (Z.ltb_spec 0 (totalItems s)) as [Hpos | Hz]; cbn [ltb];
      rewrite !Z.ltb_lt.
    + specialize (C2 Hpos). split; intros H; nia.
    + assert (Hzero : totalItems s = 0) by lia. specialize (C3 Hzero). lia.
Qed.

Lemma more_pages_iff_more_items_witness :
  let s := setItemsPerPage (initialize new (VArr [VNull; VNull; VNull])) (Int 2) in
  consistent s /\ isPaginationNeeded s = true /\ hasNextPage s = true.
Proof.
  intros s.
  assert (Hs : consistent s).
  { exists 2. split; [reflexivity |].
    vm_compute. repeat split; intros H; discriminate H. }
  split; [exact Hs |].
  destruct (more_pages_iff_more_items s Hs) as [H1 H2].
  split; [apply H1 | apply H2]; reflexivity.
Defined.
